(** * pymatgen.io.vaspio: the vasprun.xml SAX handler and its typed value decoder

    A shallow embedding of [VasprunHandler] (startElement, characters,
    endElement), of the decoders [parse_parameters], [parse_v_parameters],
    [parse_from_incar] and of the value column written by
    [Incar.get_string], followed by the properties of the parse that the
    specification states.  The rest of the module that can be embedded
    follows: [Incar.diff] and [Incar.__add__], [Kpoints.from_file] and
    [Kpoints.__str__], the grouping of the sites in [Poscar], and the
    [final_energy], [final_structure] and [initial_structure] of a
    [Vasprun], with the properties that the code itself shows.

    Conventions.
    - A Python exception is a value of [exn]; a computation that may raise
      returns [res A].
    - Text is [string]; [strip], [re_split_ws], [py_int] follow the Python
      built-ins the source calls.
    - Python's [float] is not part of the repository: it is the interface
      [PyFloat].  The directory next to the parsed file is the interface
      [FileSystem].
    - A dictionary is a [gmap]; the handler's [defaultdict(bool)] is a
      [gmap] read with default [False]. *)

From Stdlib Require Import ZArith Ascii String DecimalString DecimalPos DecimalZ.
From stdpp Require Import gmap strings list fin_maps.

Local Open Scope string_scope.
Local Open Scope Z_scope.
Local Open Scope list_scope.

(** ** Exceptions *)

Inductive exn : Set :=
  | ValueError | KeyError | IndexError | AttributeError | TypeError
  | IOError | OSError.

Inductive res (A : Type) : Type :=
  | Ok (a : A)
  | Raise (e : exn).
Arguments Ok {A} a.
Arguments Raise {A} e.

#[global] Instance res_bind : MBind res :=
  fun A B (k : A -> res B) (m : res A) =>
    match m with
    | Ok a => k a
    | Raise e => Raise e
    end.

#[global] Instance res_ret : MRet res := fun A a => Ok a.

#[global] Instance res_fmap : FMap res :=
  fun A B (f : A -> B) (m : res A) =>
    match m with
    | Ok a => Ok (f a)
    | Raise e => Raise e
    end.

(** Whether a computation returned, and what it returned. *)
Definition is_ok {A} (m : res A) : bool :=
  match m with
  | Ok _ => true
  | Raise _ => false
  end.

Definition result_or {A} (d : A) (m : res A) : A :=
  match m with
  | Ok a => a
  | Raise _ => d
  end.

(** [getattr o] reads an instance attribute that [__init__] does not set:
    unset, the read raises AttributeError. *)
Definition getattr {A} (o : option A) : res A :=
  match o with
  | Some a => Ok a
  | None => Raise AttributeError
  end.

(** [of_parse] turns a failed [int(...)] / [float(...)] into ValueError. *)
Definition of_parse {A} (o : option A) : res A :=
  match o with
  | Some a => Ok a
  | None => Raise ValueError
  end.

(** A list comprehension whose element expression may raise. *)
Fixpoint mapM_res {A B} (f : A -> res B) (l : list A) : res (list B) :=
  match l with
  | [] => Ok []
  | x :: r => y ← f x; ys ← mapM_res f r; Ok (y :: ys)
  end.

(** ** Text *)

(** The characters matched by [\s] and removed by [str.strip()]:
    space, \t, \n, \v, \f, \r. *)
Definition is_space (c : ascii) : bool :=
  let n := nat_of_ascii c in
  (Nat.eqb n 32 || (Nat.leb 9 n && Nat.leb n 13))%bool.

Fixpoint lstrip (s : string) : string :=
  match s with
  | String c r => if is_space c then lstrip r else s
  | EmptyString => EmptyString
  end.

Fixpoint rstrip (s : string) : string :=
  match s with
  | EmptyString => EmptyString
  | String c r =>
      match rstrip r with
      | EmptyString => if is_space c then EmptyString else String c EmptyString
      | r' => String c r'
      end
  end.

(** [s.strip()] *)
Definition strip (s : string) : string := rstrip (lstrip s).

(** [re.split("\s+", s)]: the pieces between maximal runs of white space;
    a leading or trailing run leaves an empty first or last piece.
    [in_run] tells that the previous character was white space. *)
Fixpoint re_split_from (in_run : bool) (s : string) : list string :=
  match s with
  | EmptyString => [EmptyString]
  | String c r =>
      if is_space c then
        if in_run then re_split_from true r
        else EmptyString :: re_split_from true r
      else
        match re_split_from false r with
        | t :: ts => String c t :: ts
        | [] => [String c EmptyString]
        end
  end.

Definition re_split_ws (s : string) : list string := re_split_from false s.

(** [s.split(sep)] for a one-character separator. *)
Fixpoint split_on (sep : ascii) (s : string) : list string :=
  match s with
  | EmptyString => [EmptyString]
  | String c r =>
      if Ascii.eqb c sep then EmptyString :: split_on sep r
      else
        match split_on sep r with
        | t :: ts => String c t :: ts
        | [] => [String c EmptyString]
        end
  end.

(** [sep.join(l)] *)
Fixpoint join (sep : string) (l : list string) : string :=
  match l with
  | [] => EmptyString
  | [x] => x
  | x :: r => x +:+ sep +:+ join sep r
  end.

(** [s.startswith(p)] *)
Definition startswith (s p : string) : bool := String.prefix p s.

(** [re.search(pat, s)] for a pattern without metacharacters. *)
Fixpoint re_search (pat s : string) : bool :=
  (String.prefix pat s ||
   match s with
   | String _ r => re_search pat r
   | EmptyString => false
   end)%bool.

(** [int(s)] on text: optional surrounding white space, an optional sign,
    one or more decimal digits.  [None] is ValueError. *)
Definition py_int (s : string) : option Z :=
  let t := strip s in
  let '(neg, body) :=
    match t with
    | String "-"%char r => (true, r)
    | String "+"%char r => (false, r)
    | _ => (false, t)
    end in
  match body with
  | EmptyString => None
  | _ =>
      match NilEmpty.uint_of_string body with
      | Some d => Some (if neg : bool then - Z.of_uint d else Z.of_uint d)
      | None => None
      end
  end.

(** [str(n)] for an integer. *)
Definition py_str_int (z : Z) : string := NilZero.string_of_int (Z.to_int z).

(** [str(b)] for a boolean. *)
Definition py_str_bool (b : bool) : string := if b then "True" else "False".

(** ** The interfaces to what lies outside the repository *)

(** Python's [float]: the type, [float(s)] on text ([None] is ValueError)
    and [str(x)]. *)
Class PyFloat (float : Type) := {
  float_of_string : string -> option float;
  str_of_float : float -> string
}.

(** The files next to the parsed file: [os.listdir(d)] ([OSError] when
    [d] cannot be listed) and the cleaned lines of a file,
    [list(clean_lines(f.readlines()))] under [file_open_zip_aware(path)],
    the part of [Incar.from_file] that is outside the sources at hand. *)
Class FileSystem := {
  os_listdir : string -> res (list string);
  read_clean_lines : string -> res (list string)
}.

(** ** The data the handler builds *)

(** [Spin.up], [Spin.down] of pymatgen.core.electronic_structure. *)
Inductive Spin : Set := Spin_up | Spin_down.

#[global] Instance Spin_eq_dec : EqDecision Spin.
Proof. solve_decision. Defined.

#[global] Instance Spin_countable : Countable Spin.
Proof.
  refine (inj_countable' (fun s => match s with Spin_up => true | Spin_down => false end)
            (fun b : bool => if b then Spin_up else Spin_down) _).
  by intros [].
Defined.

(** A value of [self.state], a [defaultdict(bool)]: [True], [False], or the
    [name] attribute of the element. *)
Inductive sval : Set :=
  | SBool (b : bool)
  | SStr (s : string).

#[global] Instance sval_eq_dec : EqDecision sval.
Proof. solve_decision. Defined.

#[global] Instance sval_countable : Countable sval.
Proof.
  refine (inj_countable' (fun v => match v with SBool b => inl b | SStr s => inr s end)
            (fun x : bool + string => match x with inl b => SBool b | inr s => SStr s end) _).
  by intros [].
Defined.

(** Truth value of a state entry in a condition. *)
Definition truthy (v : sval) : bool :=
  match v with
  | SBool b => b
  | SStr s => negb (String.eqb s "")
  end.

(** [v == s] for a text literal [s]. *)
Definition is_str (v : sval) (s : string) : bool :=
  match v with
  | SBool _ => false
  | SStr t => String.eqb t s
  end.

(** [str(v)] *)
Definition str_sval (v : sval) : string :=
  match v with
  | SBool b => py_str_bool b
  | SStr t => t
  end.

(** [Kpoints], with the defaults of its [__init__]. *)
Record Kpoints : Set := {
  l1_comment : string;
  l2_gen_style : string;
  l3_lattice : string;
  kpts : list Z
}.

Definition Kpoints_init : Kpoints :=
  {| l1_comment := "Default"; l2_gen_style := "0"; l3_lattice := "Gamma";
     kpts := [1; 1; 1] |}.

(** ** Values of a parameter table *)

Section Model.
Context {float : Type} `{!PyFloat float} `{!FileSystem}.

(** What an [Incar] holds: a bool, int, float or text, or a list of them. *)
Inductive scalar : Type :=
  | VBool (b : bool)
  | VInt (z : Z)
  | VFloat (x : float)
  | VStr (s : string).

Inductive pyval : Type :=
  | Scalar (a : scalar)
  | PList (l : list scalar).

Definition is_digit (c : ascii) : bool :=
  let n := nat_of_ascii c in (Nat.leb 48 n && Nat.leb n 57)%bool.

(** [\w]: letters, digits and the underscore. *)
Definition is_word (c : ascii) : bool :=
  let n := nat_of_ascii c in
  (is_digit c || (Nat.leb 65 n && Nat.leb n 90) || (Nat.leb 97 n && Nat.leb n 122)
   || Nat.eqb n 95)%bool.

(** The longest prefix of [s] whose characters satisfy [p], and the rest. *)
Fixpoint span (p : ascii -> bool) (s : string) : string * string :=
  match s with
  | String c r =>
      if p c then let '(a, b) := span p r in (String c a, b) else (EmptyString, s)
  | EmptyString => (EmptyString, EmptyString)
  end.

Definition mem_string (k : string) (l : list string) : bool :=
  existsb (String.eqb k) l.

(** *** Incar.proc_val *)

Definition list_type_keys : list string :=
  ["LDAUU"; "LDAUL"; "LDAUJ"; "LDAUTYPE"; "MAGMOM"].
Definition boolean_type_keys : list string := ["LDAU"; "LWAVE"].
Definition number_type_keys : list string :=
  ["NSW"; "NELMIN"; "ISIF"; "IBRION"; "ISPIN"; "EDIFF"; "ICHARG"; "NELM";
   "ISMEAR"; "NPAR"; "SIGMA"; "LDAUPRINT"; "LMAXMIX"].

Definition smart_int_or_float (numstr : string) : res scalar :=
  if re_search "." numstr then x ← of_parse (float_of_string numstr); Ok (VFloat x)
  else z ← of_parse (py_int numstr); Ok (VInt z).

(** One token of a list-valued key: [n*x] is [x] repeated [n] times
    ([(\d+)\*([\d\.\-\+]+)] matched at the start of the token). *)
Definition proc_list_tok (tok : string) : res (list scalar) :=
  let '(count, rest) := span is_digit tok in
  let plain := x ← smart_int_or_float tok; Ok [x] in
  match count, rest with
  | String _ _, String "*"%char r =>
      let '(body, _) :=
        span (fun c => is_digit c || mem_string (String c EmptyString) ["."; "-"; "+"])%bool r in
      match body with
      | String _ _ =>
          x ← smart_int_or_float body;
          n ← of_parse (py_int count);
          Ok (replicate (Z.to_nat n) x)
      | EmptyString => plain
      end
  | _, _ => plain
  end.

(** The body of the [try] of [proc_val]; [None] when no key class applies. *)
Definition proc_val_try (key val : string) : res (option pyval) :=
  if mem_string key list_type_keys then
    outs ← mapM_res proc_list_tok (re_split_ws val);
    Ok (Some (PList (concat outs)))
  else if mem_string key boolean_type_keys then
    (* re.search("^\W+([TtFf])", val) *)
    match span (fun c => negb (is_word c)) val with
    | (String _ _, String c _) =>
        if mem_string (String c EmptyString) ["T"; "t"] then Ok (Some (Scalar (VBool true)))
        else if mem_string (String c EmptyString) ["F"; "f"] then Ok (Some (Scalar (VBool false)))
        else Raise ValueError
    | _ => Raise ValueError
    end
  else if mem_string key number_type_keys then
    x ← smart_int_or_float val; Ok (Some (Scalar x))
  else Ok None.

(** [Incar.proc_val(key, val)]: whatever the [try] raises, the text itself
    is returned. *)
Definition proc_val (key val : string) : pyval :=
  match proc_val_try key val with
  | Ok (Some v) => v
  | Ok None | Raise _ => Scalar (VStr val)
  end.

(** [Incar.__setitem__(key, val)] on the underlying dict.  The warning for a
    key outside VALID_INCAR_TAGS changes nothing and is left out.  The
    handler passes [self.incar_param], which is [None] between parameters:
    [None.strip()] raises AttributeError. *)
Definition Incar_setitem (key : option string) (val : pyval)
    (d : gmap string pyval) : res (gmap string pyval) :=
  k ← getattr key;
  let k := strip k in
  Ok (<[k := match val with Scalar (VStr s) => proc_val k (strip s) | _ => val end]> d).

(** *** Incar.from_file and Incar.get_string *)

(** The two groups of the [re.match] in [Incar.from_file]: one or more
    word characters at the start of the line, then white space, [=],
    white space, and the rest of the line. *)
Definition match_key_value (line : string) : option (string * string) :=
  let '(key, r1) := span is_word line in
  match key with
  | EmptyString => None
  | _ =>
      match snd (span is_space r1) with
      | String "="%char r3 =>
          let r4 := snd (span is_space r3) in
          Some (key, fst (span (fun c => negb (Ascii.eqb c "010"%char)) r4))
      | _ => None
      end
  end.

(** [Incar.from_file(filename)].  [Incar(params)] fills the dict with
    [dict.update], which does not go through [__setitem__]. *)
Definition Incar_from_file (filename : string) : res (gmap string pyval) :=
  lines ← read_clean_lines filename;
  Ok (foldl (fun (params : gmap string pyval) line =>
               match match_key_value line with
               | Some (k, v) => let key := strip k in <[key := proc_val key (strip v)]> params
               | None => params
               end) ∅ lines).

(** [str(x)] for the scalars of a table. *)
Definition py_str (a : scalar) : string :=
  match a with
  | VBool b => py_str_bool b
  | VInt z => py_str_int z
  | VFloat x => str_of_float x
  | VStr s => s
  end.

(** The value cell that [Incar.get_string] puts in [lines] for one key,
    as text. *)
Definition get_string_value (v : pyval) : string :=
  match v with
  | PList l => join " " (map py_str l)
  | Scalar a => py_str a
  end.

(** Modelled from the spec: [str_delimited(lines, None, " = ")] of
    pymatgen.util.string_utils, which is not among the sources: the
    line-oriented [KEY = VALUE] form, one row per line. *)
Definition str_delimited (lines : list (string * string)) (delimiter : string) : string :=
  join (String "010"%char EmptyString) (map (fun '(k, v) => k +:+ delimiter +:+ v) lines).

(** [Incar.get_string(sort_keys, pretty=False)]; the keys come in the
    order of the dictionary. *)
Definition get_string_lines (d : gmap string pyval) : list (string * string) :=
  map (fun '(k, v) => (k, get_string_value v)) (map_to_list d).

Definition get_string (d : gmap string pyval) : string :=
  str_delimited (get_string_lines d) " = ".

(** The type tag under which vasprun.xml declares a value of this kind. *)
Definition declared_type (a : scalar) : string :=
  match a with
  | VBool _ => "logical"
  | VInt _ => "int"
  | VFloat _ => "float"
  | VStr _ => "string"
  end.

Definition same_kind (a b : scalar) : bool :=
  String.eqb (declared_type a) (declared_type b).

(** ** The typed value decoder and its fallback *)

(** [p[:p.rfind('/')+1]] *)
Fixpoint dir_head (p : string) : string :=
  match p with
  | EmptyString => EmptyString
  | String c r =>
      if re_search "/" r then String c (dir_head r)
      else if Ascii.eqb c "/"%char then "/" else EmptyString
  end.

Fixpoint all_slashes (s : string) : bool :=
  match s with
  | EmptyString => true
  | String c r => (Ascii.eqb c "/"%char && all_slashes r)%bool
  end.

Fixpoint rstrip_slash (s : string) : string :=
  match s with
  | EmptyString => EmptyString
  | String c r =>
      match rstrip_slash r with
      | EmptyString => if Ascii.eqb c "/"%char then EmptyString else String c EmptyString
      | r' => String c r'
      end
  end.

(** [os.path.dirname(p)] (posixpath). *)
Definition os_path_dirname (p : string) : string :=
  let head := dir_head p in
  if (negb (String.eqb head "") && negb (all_slashes head))%bool
  then rstrip_slash head else head.

Fixpoint endswith_slash (s : string) : bool :=
  match s with
  | EmptyString => false
  | String c EmptyString => Ascii.eqb c "/"%char
  | String _ r => endswith_slash r
  end.

(** [os.path.join(a, b)] (posixpath). *)
Definition os_path_join (a b : string) : string :=
  if startswith b "/" then b
  else if (String.eqb a "" || endswith_slash a)%bool then a +:+ b
  else a +:+ "/" +:+ b.

(** [parse_from_incar(filename, key)]: the first entry of the directory
    whose name contains INCAR decides; [Ok None] is Python's [None].  The
    handler may pass [None] as key, on which the text of the warning
    cannot be built (TypeError). *)
Definition parse_from_incar (filename : string) (key : option string) :
    res (option pyval) :=
  let dirname := os_path_dirname filename in
  entries ← os_listdir dirname;
  match List.find (re_search "INCAR") entries with
  | Some f =>
      match key with
      | None => Raise TypeError
      | Some key =>
          incar ← Incar_from_file (os_path_join dirname f);
          Ok (incar !! key)
      end
  | None => Ok None
  end.

(** [parse_parameters(val_type, val)] *)
Definition parse_parameters (val_type val : string) : res pyval :=
  if String.eqb val_type "logical" then Ok (Scalar (VBool (String.eqb val "T")))
  else if String.eqb val_type "int" then
    z ← of_parse (py_int val); Ok (Scalar (VInt z))
  else if String.eqb val_type "string" then Ok (Scalar (VStr (strip val)))
  else x ← of_parse (float_of_string val); Ok (Scalar (VFloat x)).

(** The [except ValueError] branch of [parse_v_parameters]. *)
Definition incar_fallback (filename : string) (param_name : option string) :
    res pyval :=
  val ← parse_from_incar filename param_name;
  match val with
  | Some v => Ok v
  | None => Raise IOError
  end.

(** [[conv(i) for i in l]] where [conv] raises ValueError: [None] when
    some element fails. *)
Definition parse_all {A} (conv : string -> option A) (l : list string) :
    option (list A) :=
  mapM conv l.

(** [parse_v_parameters(val_type, val, filename, param_name)] *)
Definition parse_v_parameters (val_type val filename : string)
    (param_name : option string) : res pyval :=
  let toks := re_split_ws val in
  if String.eqb val_type "logical" then
    Ok (PList (map (fun i => VBool (String.eqb i "T")) toks))
  else if String.eqb val_type "int" then
    match parse_all py_int toks with
    | Some l => Ok (PList (map VInt l))
    | None => incar_fallback filename param_name
    end
  else if String.eqb val_type "string" then Ok (PList (map VStr toks))
  else
    match parse_all float_of_string toks with
    | Some l => Ok (PList (map VFloat l))
    | None => incar_fallback filename param_name
    end.

(** ** Arrays, structures and densities of states *)

(** A numpy array with a two-dimensional shape, as its rows. *)
Definition matrix : Type := list (list float).

Fixpoint rows_of (rows cols : nat) (l : list float) : matrix :=
  match rows with
  | O => []
  | S r => take cols l :: rows_of r cols (drop cols l)
  end.

(** [a.shape = (rows, cols)] on a flat array: ValueError unless the sizes
    agree. *)
Definition reshape (rows cols : nat) (l : list float) : res matrix :=
  if Nat.eqb (length l) (rows * cols) then Ok (rows_of rows cols l)
  else Raise ValueError.

(** [np.array([float(x) for x in re.split("\s+", text.strip())])] *)
Definition floats_of_text (text : string) : res (list float) :=
  mapM_res (fun x => of_parse (float_of_string x)) (re_split_ws (strip text)).

(** Modelled from the spec: [Structure(lattice, species, coords)] of
    pymatgen.core.structure, which is not among the sources: the
    StructureSnapshot, a lattice matrix, the element symbols and the
    coordinate matrix. *)
Record Structure : Type := {
  st_lattice : matrix;
  st_species : list string;
  st_coords : matrix
}.

(** One entry of [self.scdata]: [{label: energy}]. *)
Definition ElectronicStep : Type := gmap sval float.

(** One entry of [self.ionic_steps]: the dict with the keys
    [electronic_steps], [structure], [forces], [stress]. *)
Record IonicStep : Type := {
  electronic_steps : list ElectronicStep;
  structure : Structure;
  step_forces : matrix;
  step_stress : matrix
}.

(** What [self.tdos] and [self.idos] hold: the dict [{spin: densities}]
    while the spin sets are read, then [Dos(efermi, energies, densities)].
    Modelled from the spec: [Dos] of pymatgen.core.electronic_structure,
    which is not among the sources, keeps its three arguments. *)
Inductive dos_slot : Type :=
  | DosDict (d : gmap Spin (list float))
  | DosObj (dos_efermi : option float) (dos_grid : option (list float))
           (densities : dos_slot).

(** Modelled from the spec: [PDos(efermi, energies, densities, orbital)],
    not among the sources; [Orbital.from_vasp_index(i)] is kept as [i]. *)
Record PDos : Type := {
  pdos_efermi : option float;
  pdos_grid : option (list float);
  pdos_densities : gmap Spin (list float);
  pdos_orbital : nat
}.

(** What [self.pdos] holds: the dict [{(ion, orbital, spin): densities}],
    then the list of lists of [PDos]. *)
Inductive pdos_slot : Type :=
  | PdosDict (d : gmap (Z * nat * Spin) (list float))
  | PdosList (l : list (list PDos)).

(** ** VasprunHandler *)

(** The attributes of the handler.  Those below [state] are first assigned
    outside [__init__]: [None] is an attribute that does not exist yet. *)
Record handler : Type := {
  filename : string;
  vasp_version : option string;
  incar : gmap string pyval;
  parameters : gmap string pyval;
  potcar_symbols : list string;
  atomic_symbols : list string;
  kpoints : Kpoints;
  actual_kpoints : list (list float);
  actual_kpoints_weights : list float;
  dos_energies : option (list float);
  eigenvalues : gmap (Z * Spin) (list (list float));
  tdos : dos_slot;
  idos : dos_slot;
  pdos : pdos_slot;
  efermi : option float;
  ionic_steps : list IonicStep;
  structures : list Structure;
  input_read : bool;
  all_calculations_read : bool;
  read_structure : bool;
  read_calculation : bool;
  read_eigen : bool;
  read_dos : bool;
  in_efermi : bool;
  read_atoms : bool;
  read_lattice : bool;
  read_positions : bool;
  incar_param : option string;
  dos_energies_val : list float;
  dos_val : list float;
  idos_val : list float;
  raw_data : list (list float);
  state : gmap string sval;
  read_val : option bool;
  param_type : option string;
  val : option string;
  latticestr : option string;
  posstr : option string;
  scdata : option (list ElectronicStep);
  scstep : option ElectronicStep;
  forces : option matrix;
  stress : option matrix;
  lattice : option matrix;
  pos : option matrix;
  eigen_spin : option Spin;
  eigen_kpoint : option Z;
  pdos_ion : option Z;
  pdos_spin : option Spin;
  norbitals : option nat
}.

Definition eta_handler (h : handler) : handler :=
  Build_handler (filename h) (vasp_version h) (incar h) (parameters h)
    (potcar_symbols h) (atomic_symbols h) (kpoints h) (actual_kpoints h)
    (actual_kpoints_weights h) (dos_energies h) (eigenvalues h) (tdos h) (idos h)
    (pdos h) (efermi h) (ionic_steps h) (structures h) (input_read h)
    (all_calculations_read h) (read_structure h) (read_calculation h)
    (read_eigen h) (read_dos h) (in_efermi h) (read_atoms h) (read_lattice h)
    (read_positions h) (incar_param h) (dos_energies_val h) (dos_val h)
    (idos_val h) (raw_data h) (state h) (read_val h) (param_type h) (val h)
    (latticestr h) (posstr h) (scdata h) (scstep h) (forces h) (stress h)
    (lattice h) (pos h) (eigen_spin h) (eigen_kpoint h) (pdos_ion h)
    (pdos_spin h) (norbitals h).

(** [self.field = v]: the handler with one attribute replaced. *)
Ltac assign proj :=
  let T := match type of proj with _ -> ?T => T end in
  let fn := constr:(fun (v : T) (h : handler) =>
    ltac:(let e := eval cbv beta delta [eta_handler] in (eta_handler h) in
          match eval pattern (proj h) in e with
          | ?F _ => let b := eval cbv beta in (F v) in exact b
          end)) in
  exact fn.

Definition set_vasp_version := ltac:(assign vasp_version).
Definition set_incar := ltac:(assign incar).
Definition set_parameters := ltac:(assign parameters).
Definition set_potcar_symbols := ltac:(assign potcar_symbols).
Definition set_atomic_symbols := ltac:(assign atomic_symbols).
Definition set_kpoints := ltac:(assign kpoints).
Definition set_actual_kpoints := ltac:(assign actual_kpoints).
Definition set_actual_kpoints_weights := ltac:(assign actual_kpoints_weights).
Definition set_dos_energies := ltac:(assign dos_energies).
Definition set_eigenvalues := ltac:(assign eigenvalues).
Definition set_tdos := ltac:(assign tdos).
Definition set_idos := ltac:(assign idos).
Definition set_pdos := ltac:(assign pdos).
Definition set_efermi := ltac:(assign efermi).
Definition set_ionic_steps := ltac:(assign ionic_steps).
Definition set_structures := ltac:(assign structures).
Definition set_input_read := ltac:(assign input_read).
Definition set_all_calculations_read := ltac:(assign all_calculations_read).
Definition set_read_structure := ltac:(assign read_structure).
Definition set_read_calculation := ltac:(assign read_calculation).
Definition set_read_eigen := ltac:(assign read_eigen).
Definition set_read_dos := ltac:(assign read_dos).
Definition set_read_lattice := ltac:(assign read_lattice).
Definition set_read_positions := ltac:(assign read_positions).
Definition set_incar_param := ltac:(assign incar_param).
Definition set_dos_energies_val := ltac:(assign dos_energies_val).
Definition set_dos_val := ltac:(assign dos_val).
Definition set_idos_val := ltac:(assign idos_val).
Definition set_raw_data := ltac:(assign raw_data).
Definition set_state := ltac:(assign state).
Definition set_read_val := ltac:(assign read_val).
Definition set_param_type := ltac:(assign param_type).
Definition set_val := ltac:(assign val).
Definition set_latticestr := ltac:(assign latticestr).
Definition set_posstr := ltac:(assign posstr).
Definition set_scdata := ltac:(assign scdata).
Definition set_scstep := ltac:(assign scstep).
Definition set_forces := ltac:(assign forces).
Definition set_stress := ltac:(assign stress).
Definition set_lattice := ltac:(assign lattice).
Definition set_pos := ltac:(assign pos).
Definition set_eigen_spin := ltac:(assign eigen_spin).
Definition set_eigen_kpoint := ltac:(assign eigen_kpoint).
Definition set_pdos_ion := ltac:(assign pdos_ion).
Definition set_pdos_spin := ltac:(assign pdos_spin).
Definition set_norbitals := ltac:(assign norbitals).

(** [VasprunHandler.__init__(filename)] *)
Definition handler_init (fname : string) : handler :=
  {| filename := fname;
     vasp_version := None;
     incar := ∅;
     parameters := ∅;
     potcar_symbols := [];
     atomic_symbols := [];
     kpoints := Kpoints_init;
     actual_kpoints := [];
     actual_kpoints_weights := [];
     dos_energies := None;
     eigenvalues := ∅;
     tdos := DosDict ∅;
     idos := DosDict ∅;
     pdos := PdosDict ∅;
     efermi := None;
     ionic_steps := [];
     structures := [];
     input_read := false;
     all_calculations_read := false;
     read_structure := false;
     read_calculation := false;
     read_eigen := false;
     read_dos := false;
     in_efermi := false;
     read_atoms := false;
     read_lattice := false;
     read_positions := false;
     incar_param := None;
     dos_energies_val := [];
     dos_val := [];
     idos_val := [];
     raw_data := [];
     state := ∅;
     read_val := None;
     param_type := None;
     val := None;
     latticestr := None;
     posstr := None;
     scdata := None;
     scstep := None;
     forces := None;
     stress := None;
     lattice := None;
     pos := None;
     eigen_spin := None;
     eigen_kpoint := None;
     pdos_ion := None;
     pdos_spin := None;
     norbitals := None |}.

(** [self.state[tag]], a [defaultdict(bool)] read. *)
Definition st (h : handler) (tag : string) : sval :=
  default (SBool false) (state h !! tag).

Local Notation "a == b" := (String.eqb a b) (at level 70, no associativity).

(** [l[i]] *)
Definition item {A} (l : list A) (i : nat) : res A :=
  match l !! i with
  | Some x => Ok x
  | None => Raise IndexError
  end.

(** [l[-1]] *)
Definition last_item {A} (l : list A) : res A :=
  match last l with
  | Some x => Ok x
  | None => Raise IndexError
  end.

(** [l[start::step]]: the entries at positions start, start+step, ... *)
Fixpoint stride_from {A} (start step : nat) (l : list A) : list A :=
  match l with
  | [] => []
  | x :: r =>
      match start with
      | O => x :: stride_from (step - 1) step r
      | S k => stride_from k step r
      end
  end.

(** [int(comment.split(" ")[1])] *)
Definition int_of_second_word (comment : string) : res Z :=
  w ← item (split_on " "%char comment) 1;
  of_parse (py_int w).

(** [Spin.up if self.state["set"] == "spin 1" else Spin.down] *)
Definition spin_of_set (h : handler) : Spin :=
  if is_str (st h "set") "spin 1" then Spin_up else Spin_down.

Definition is_forces_or_stress (h : handler) : bool :=
  (is_str (st h "varray") "forces" || is_str (st h "varray") "stress")%bool.

(** *** startElement *)

(** The branch [if not self.input_read] of [startElement]. *)
Definition start_input (name : string) (attributes : gmap string string)
    (h : handler) : res handler :=
  if (((name == "i") || (name == "v"))
      && (truthy (st h "incar") || truthy (st h "parameters")))%bool then
    match attributes !! "name" with
    | None => Raise KeyError
    | Some n =>
        let h := set_incar_param (Some n) h in
        let h := set_param_type (Some (default "float" (attributes !! "type"))) h in
        Ok (set_read_val (Some true) h)
    end
  else if ((name == "v") && truthy (st h "kpoints"))%bool then
    Ok (set_read_val (Some true) h)
  else if ((name == "generation") && truthy (st h "kpoints"))%bool then
    match attributes !! "param" with
    | None => Raise KeyError
    | Some p =>
        Ok (set_kpoints
              {| l1_comment := "K point data read from vasprun.xml";
                 l2_gen_style := "-1";
                 l3_lattice := p;
                 kpts := kpts (kpoints h) |} h)
    end
  else if ((name == "c")
           && (is_str (st h "array") "atoms" || is_str (st h "array") "atomtypes"))%bool then
    Ok (set_read_val (Some true) h)
  else if ((name == "i") && is_str (st h "i") "version" && truthy (st h "generator"))%bool then
    Ok (set_read_val (Some true) h)
  else Ok h.

(** The [set] element with a [comment] attribute inside [eigenvalues]. *)
Definition start_eigen_set (comment : string) (h : handler) : res handler :=
  let h := set_state (<["set" := SStr comment]> (state h)) h in
  let h := if startswith comment "spin"
           then set_eigen_spin (Some (spin_of_set h)) h else h in
  if startswith comment "kpoint" then
    k ← int_of_second_word comment; Ok (set_eigen_kpoint (Some k) h)
  else Ok h.

(** The [set] element with a [comment] attribute inside [dos]. *)
Definition start_dos_set (comment : string) (h : handler) : res handler :=
  let h := set_state (<["set" := SStr comment]> (state h)) h in
  if truthy (st h "partial") then
    if startswith comment "ion" then
      k ← int_of_second_word comment; Ok (set_pdos_ion (Some k) h)
    else if startswith comment "spin" then
      Ok (set_pdos_spin (Some (spin_of_set h)) h)
    else Ok h
  else Ok h.

(** The branch [else] of [startElement], statement by statement.  First
    [if self.read_calculation]. *)
Definition start_in_calculation (name : string) (h : handler) : handler :=
  if read_calculation h then
    if ((name == "i") && truthy (st h "scstep"))%bool then set_read_val (Some true) h
    else if ((name == "v") && is_forces_or_stress h)%bool then set_read_positions true h
    else h
  else h.

(** Then [if self.read_structure]. *)
Definition start_in_structure (name : string) (h : handler) : handler :=
  if read_structure h then
    if ((name == "v") && is_str (st h "varray") "basis")%bool then set_read_lattice true h
    else if ((name == "v") && is_str (st h "varray") "positions")%bool
    then set_read_positions true h
    else h
  else h.

(** Then the chain [if name == "calculation" ... elif name == "eigenvalues"]. *)
Definition start_section (name : string) (h : handler) : handler :=
  if name == "calculation" then set_read_calculation true (set_scdata (Some []) h)
  else if name == "scstep" then set_scstep (Some ∅) h
  else if name == "structure" then
    set_read_structure true (set_posstr (Some "") (set_latticestr (Some "") h))
  else if ((name == "varray") && is_forces_or_stress h)%bool then set_posstr (Some "") h
  else if name == "eigenvalues" then set_all_calculations_read true h
  else h.

(** Last the chain [if self.read_eigen ... elif self.read_dos ...
    elif name == "dos" ... elif name == "eigenvalues"]. *)
Definition start_eigen_dos (name : string) (attributes : gmap string string)
    (h : handler) : res handler :=
  if read_eigen h then
    if ((name == "r") && truthy (st h "set"))%bool then Ok (set_read_val (Some true) h)
    else if name == "set" then
      match attributes !! "comment" with
      | Some comment => start_eigen_set comment h
      | None => Ok h
      end
    else Ok h
  else if read_dos h then
    if (((name == "i") && is_str (st h "i") "efermi")
        || ((name == "r") && truthy (st h "set")))%bool then Ok (set_read_val (Some true) h)
    else if name == "set" then
      match attributes !! "comment" with
      | Some comment => start_dos_set comment h
      | None => Ok h
      end
    else Ok h
  else if name == "dos" then
    Ok (set_read_dos true
          (set_efermi None
             (set_pdos (PdosDict ∅)
                (set_idos (DosDict ∅) (set_tdos (DosDict ∅) (set_dos_energies None h))))))
  else if name == "eigenvalues" then Ok (set_read_eigen true (set_eigenvalues ∅ h))
  else Ok h.

Definition start_body (name : string) (attributes : gmap string string)
    (h : handler) : res handler :=
  let h := start_in_calculation name h in
  let h := start_in_structure name h in
  let h := start_section name h in
  start_eigen_dos name attributes h.

Definition startElement (name : string) (attributes : gmap string string)
    (h : handler) : res handler :=
  let h := set_state (<[name := match attributes !! "name" with
                                | None => SBool true
                                | Some a => SStr a
                                end]> (state h)) h in
  let h := set_read_val (Some false) h in
  h ← (if negb (input_read h) then start_input name attributes h
       else start_body name attributes h);
  match read_val h with
  | Some true => Ok (set_val (Some "") h)
  | _ => Ok h
  end.

(** *** characters *)

Definition characters (data : string) (h : handler) : res handler :=
  rv ← getattr (read_val h);
  h ← (if rv : bool then v ← getattr (val h); Ok (set_val (Some (v +:+ data)) h)
       else Ok h);
  if read_lattice h then
    t ← getattr (latticestr h); Ok (set_latticestr (Some (t +:+ data)) h)
  else if read_positions h then
    t ← getattr (posstr h); Ok (set_posstr (Some (t +:+ data)) h)
  else Ok h.

(** *** endElement *)

(** [VasprunHandler.EL_MAPPINGS] *)
Definition EL_MAPPINGS : gmap string string := {["X" := "Xe"]}.

(** [sym if sym not in EL_MAPPINGS else EL_MAPPINGS[sym]] *)
Definition el_mapping (sym : string) : string := default sym (EL_MAPPINGS !! sym).

(** [self.val.getvalue()] *)
Definition getvalue (h : handler) : res string := getattr (val h).

(** The branch [name == "i"] while the input is read. *)
Definition end_input_i (h : handler) : res handler :=
  h ← (if truthy (st h "incar") then
         ty ← getattr (param_type h);
         v ← getvalue h;
         x ← parse_parameters ty (strip v);
         d ← Incar_setitem (incar_param h) x (incar h);
         Ok (set_incar d h)
       else if truthy (st h "parameters") then
         ty ← getattr (param_type h);
         v ← getvalue h;
         x ← parse_parameters ty (strip v);
         d ← Incar_setitem (incar_param h) x (parameters h);
         Ok (set_parameters d h)
       else if (truthy (st h "generator") && is_str (st h "i") "version")%bool then
         v ← getvalue h; Ok (set_vasp_version (Some (strip v)) h)
       else Ok h);
  Ok (set_incar_param None h).

(** The branch [name == "set"] while the input is read. *)
Definition end_input_set (h : handler) : handler :=
  if is_str (st h "array") "atoms" then
    set_atomic_symbols (map el_mapping (stride_from 0 2 (atomic_symbols h))) h
  else if is_str (st h "array") "atomtypes" then
    set_input_read true (set_potcar_symbols (stride_from 4 5 (potcar_symbols h)) h)
  else h.

(** The branch [name == "c"] while the input is read. *)
Definition end_input_c (h : handler) : res handler :=
  if is_str (st h "array") "atoms" then
    v ← getvalue h; Ok (set_atomic_symbols (atomic_symbols h ++ [strip v]) h)
  else if is_str (st h "array") "atomtypes" then
    v ← getvalue h; Ok (set_potcar_symbols (potcar_symbols h ++ [strip v]) h)
  else Ok h.

(** The k-point leaves of the branch [name == "v"]. *)
Definition end_input_kpoints (h : handler) : res handler :=
  h ← (if is_str (st h "varray") "kpointlist" then
         v ← getvalue h;
         l ← floats_of_text v;
         Ok (set_actual_kpoints (actual_kpoints h ++ [l]) h)
       else Ok h);
  h ← (if is_str (st h "varray") "weights" then
         v ← getvalue h;
         w ← of_parse (float_of_string v);
         Ok (set_actual_kpoints_weights (actual_kpoints_weights h ++ [w]) h)
       else Ok h);
  if is_str (st h "v") "divisions" then
    v ← getvalue h;
    l ← mapM_res (fun x => of_parse (py_int x)) (re_split_ws (strip v));
    Ok (set_kpoints {| l1_comment := l1_comment (kpoints h);
                       l2_gen_style := l2_gen_style (kpoints h);
                       l3_lattice := l3_lattice (kpoints h);
                       kpts := l |} h)
  else Ok h.

(** The branch [name == "v"] while the input is read. *)
Definition end_input_v (h : handler) : res handler :=
  if truthy (st h "incar") then
    ty ← getattr (param_type h);
    v ← getvalue h;
    x ← parse_v_parameters ty (strip v) (filename h) (incar_param h);
    d ← Incar_setitem (incar_param h) x (incar h);
    Ok (set_incar_param None (set_incar d h))
  else if truthy (st h "parameters") then
    ty ← getattr (param_type h);
    v ← getvalue h;
    x ← parse_v_parameters ty (strip v) (filename h) (incar_param h);
    d ← Incar_setitem (incar_param h) x (parameters h);
    Ok (set_parameters d h)
  else if truthy (st h "kpoints") then end_input_kpoints h
  else Ok h.

(** The branch [if not self.input_read] of [endElement]. *)
Definition end_input (name : string) (h : handler) : res handler :=
  if name == "i" then end_input_i h
  else if name == "set" then Ok (end_input_set h)
  else if name == "c" then end_input_c h
  else if name == "v" then end_input_v h
  else Ok h.

(** The block [if self.read_calculation] of [endElement]. *)
Definition end_calculation (name : string) (h : handler) : res handler :=
  if ((name == "i") && truthy (st h "scstep"))%bool then
    v ← getvalue h;
    x ← of_parse (float_of_string v);
    sc ← getattr (scstep h);
    Ok (set_scstep (Some (<[st h "i" := x]> sc)) h)
  else if name == "scstep" then
    data ← getattr (scdata h);
    sc ← getattr (scstep h);
    Ok (set_scdata (Some (data ++ [sc])) h)
  else if ((name == "varray") && is_str (st h "varray") "forces")%bool then
    t ← getattr (posstr h);
    l ← floats_of_text t;
    m ← reshape (length (atomic_symbols h)) 3 l;
    Ok (set_forces (Some m) h)
  else if ((name == "varray") && is_str (st h "varray") "stress")%bool then
    t ← getattr (posstr h);
    l ← floats_of_text t;
    m ← reshape 3 3 l;
    Ok (set_stress (Some m) h)
  else if name == "calculation" then
    data ← getattr (scdata h);
    s ← last_item (structures h);
    f ← getattr (forces h);
    t ← getattr (stress h);
    Ok (set_read_calculation false
          (set_ionic_steps
             (ionic_steps h ++ [{| electronic_steps := data; structure := s;
                                   step_forces := f; step_stress := t |}]) h))
  else Ok h.

(** The block [if self.read_structure] of [endElement]. *)
Definition end_structure (name : string) (h : handler) : res handler :=
  if name == "v" then Ok (set_read_lattice false (set_read_positions false h))
  else if name == "structure" then
    lt ← getattr (latticestr h);
    ll ← floats_of_text lt;
    lm ← reshape 3 3 ll;
    pt ← getattr (posstr h);
    pl ← floats_of_text pt;
    pm ← reshape (length (atomic_symbols h)) 3 pl;
    Ok (set_read_structure false
          (set_structures
             (structures h ++ [{| st_lattice := lm; st_species := atomic_symbols h;
                                  st_coords := pm |}])
             (set_pos (Some pm) (set_lattice (Some lm) h))))
  else Ok h.

(** [slot[spin] = v]: item assignment on a [Dos] object raises. *)
Definition dos_setitem (slot : dos_slot) (spin : Spin) (v : list float) : res dos_slot :=
  match slot with
  | DosDict d => Ok (DosDict (<[spin := v]> d))
  | DosObj _ _ _ => Raise TypeError
  end.

(** [self.pdos[key] = v]: a list does not take a tuple as index. *)
Definition pdos_setitem (slot : pdos_slot) (key : Z * nat * Spin) (v : list float) :
    res pdos_slot :=
  match slot with
  | PdosDict d => Ok (PdosDict (<[key := v]> d))
  | PdosList _ => Raise TypeError
  end.

(** [self.pdos[key]] *)
Definition pdos_getitem (slot : pdos_slot) (key : Z * nat * Spin) : res (list float) :=
  match slot with
  | PdosDict d =>
      match d !! key with
      | Some v => Ok v
      | None => Raise KeyError
      end
  | PdosList _ => Raise TypeError
  end.

(** [None if key not in self.pdos else self.pdos[key]] *)
Definition pdos_get_opt (slot : pdos_slot) (key : Z * nat * Spin) : option (list float) :=
  match slot with
  | PdosDict d => d !! key
  | PdosList _ => None
  end.

(** A row of the total DOS: energy, density, integrated density. *)
Definition end_dos_total_row (h : handler) : res handler :=
  v ← getvalue h;
  let tok := re_split_ws (strip v) in
  t0 ← item tok 0;
  e ← of_parse (float_of_string t0);
  t1 ← item tok 1;
  d ← of_parse (float_of_string t1);
  t2 ← item tok 2;
  i ← of_parse (float_of_string t2);
  Ok (set_idos_val (idos_val h ++ [i])
        (set_dos_val (dos_val h ++ [d])
           (set_dos_energies_val (dos_energies_val h ++ [e]) h))).

(** The close of a spin set of the total DOS. *)
Definition end_dos_total_set (h : handler) : res handler :=
  let spin := spin_of_set h in
  t ← dos_setitem (tdos h) spin (dos_val h);
  i ← dos_setitem (idos h) spin (dos_val h);
  Ok (set_idos_val []
        (set_dos_val []
           (set_dos_energies_val []
              (set_dos_energies (Some (dos_energies_val h))
                 (set_idos i (set_tdos t h)))))).

(** The close of a spin set of the partial DOS: one column per orbital. *)
Fixpoint store_orbitals (ion : option Z) (spin : Spin) (rows : list (list float))
    (orbitals : list nat) (slot : pdos_slot) : res pdos_slot :=
  match orbitals with
  | [] => Ok slot
  | i :: r =>
      col ← mapM_res (fun row => item row i) rows;
      k ← getattr ion;
      slot ← pdos_setitem slot (k, i, spin) col;
      store_orbitals ion spin rows r slot
  end.

Definition end_dos_partial_set (h : handler) : res handler :=
  let spin := spin_of_set h in
  row0 ← item (raw_data h) 0;
  let n := length row0 in
  p ← store_orbitals (pdos_ion h) spin (raw_data h) (seq 0 n) (pdos h);
  Ok (set_raw_data [] (set_pdos p (set_norbitals (Some n) h))).

(** One [PDos] of the close of [partial]. *)
Definition make_pdos (h : handler) (iatom : Z) (iorbital : nat) : res PDos :=
  updos ← pdos_getitem (pdos h) (iatom, iorbital, Spin_up);
  let downdos := pdos_get_opt (pdos h) (iatom, iorbital, Spin_down) in
  match downdos with
  | Some (x :: l) =>
      Ok {| pdos_efermi := efermi h; pdos_grid := dos_energies h;
            pdos_densities := <[Spin_down := x :: l]> {[Spin_up := updos]};
            pdos_orbital := iorbital |}
  | _ =>
      Ok {| pdos_efermi := efermi h; pdos_grid := dos_energies h;
            pdos_densities := {[Spin_up := updos]};
            pdos_orbital := iorbital |}
  end.

(** The close of [partial]: for every atom, for every orbital. *)
Definition end_dos_partial (h : handler) : res handler :=
  let natom := length (atomic_symbols h) in
  all_pdos ← mapM_res
    (fun iatom : nat =>
       n ← getattr (norbitals h);
       mapM_res (make_pdos h (Z.of_nat iatom)) (seq 0 n))
    (seq 1 natom);
  Ok (set_pdos (PdosList all_pdos) h).

(** The block [elif self.read_dos] of [endElement]. *)
Definition end_dos (name : string) (h : handler) : res handler :=
  let in_spin_set := startswith (str_sval (st h "set")) "spin" in
  if ((name == "i") && is_str (st h "i") "efermi")%bool then
    v ← getvalue h;
    x ← of_parse (float_of_string (strip v));
    Ok (set_efermi (Some x) h)
  else if ((name == "r") && truthy (st h "total") && in_spin_set)%bool then
    end_dos_total_row h
  else if ((name == "r") && truthy (st h "partial") && in_spin_set)%bool then
    v ← getvalue h;
    row ← mapM_res (fun x => of_parse (float_of_string x)) (drop 1 (re_split_ws (strip v)));
    Ok (set_raw_data (raw_data h ++ [row]) h)
  else if ((name == "set") && truthy (st h "total") && in_spin_set)%bool then
    end_dos_total_set h
  else if ((name == "set") && truthy (st h "partial") && in_spin_set)%bool then
    end_dos_partial_set h
  else if name == "partial" then end_dos_partial h
  else if name == "total" then
    Ok (set_idos (DosObj (efermi h) (dos_energies h) (idos h))
          (set_tdos (DosObj (efermi h) (dos_energies h) (tdos h)) h))
  else if name == "dos" then Ok (set_read_dos false h)
  else Ok h.

(** The block [elif self.read_eigen] of [endElement]. *)
Definition end_eigen (name : string) (h : handler) : res handler :=
  let in_kpoint_set := startswith (str_sval (st h "set")) "kpoint" in
  if ((name == "r") && in_kpoint_set)%bool then
    v ← getvalue h;
    row ← floats_of_text v;
    Ok (set_raw_data (raw_data h ++ [row]) h)
  else if ((name == "set") && in_kpoint_set)%bool then
    k ← getattr (eigen_kpoint h);
    s ← getattr (eigen_spin h);
    Ok (set_raw_data [] (set_eigenvalues (<[(k, s) := raw_data h]> (eigenvalues h)) h))
  else if name == "eigenvalues" then Ok (set_read_eigen false h)
  else Ok h.

(** The branch [else] of [endElement]. *)
Definition end_body (name : string) (h : handler) : res handler :=
  h ← (if read_calculation h then end_calculation name h else Ok h);
  if read_structure h then end_structure name h
  else if read_dos h then end_dos name h
  else if read_eigen h then end_eigen name h
  else Ok h.

Definition endElement (name : string) (h : handler) : res handler :=
  h ← (if negb (input_read h) then end_input name h else end_body name h);
  Ok (set_state (<[name := SBool false]> (state h)) h).

(** *** The parse *)

(** The events that [xml.sax.parse] delivers to the handler. *)
Inductive event : Type :=
  | StartElement (name : string) (attributes : gmap string string)
  | Characters (data : string)
  | EndElement (name : string).

Definition handle (ev : event) (h : handler) : res handler :=
  match ev with
  | StartElement name attributes => startElement name attributes h
  | Characters data => characters data h
  | EndElement name => endElement name h
  end.

(** The handler after the events, or the exception that ended the parse. *)
Fixpoint feed (evs : list event) (h : handler) : res handler :=
  match evs with
  | [] => Ok h
  | ev :: rest => h ← handle ev h; feed rest h
  end.

(** [Vasprun(filename)] on a document with the events [evs]: the handler
    whose attributes the [Vasprun] object mirrors. *)
Definition Vasprun (fname : string) (evs : list event) : res handler :=
  feed evs (handler_init fname).

End Model.

(** ** Instances for the worked examples *)

(** A decimal stand-in for Python's float, exact on the literals
    [sign digits . digits]: the number [mant * 10^-scale], with [mant] not
    a multiple of ten unless [scale] is zero. *)
Module DecFloat.

Record t : Set := Dec { mant : Z; scale : nat }.

Fixpoint normalize (m : Z) (k : nat) : t :=
  match k with
  | O => Dec m O
  | S k' => if Z.eqb (m mod 10) 0 then normalize (m / 10) k' else Dec m k
  end.

Definition all_digits (s : string) : option Z :=
  match NilEmpty.uint_of_string s with
  | Some d => Some (Z.of_uint d)
  | None => None
  end.

Definition of_string (s : string) : option t :=
  let u := strip s in
  let '(neg, body) :=
    match u with
    | String "-"%char r => (true, r)
    | String "+"%char r => (false, r)
    | _ => (false, u)
    end in
  let '(whole, rest) := span is_digit body in
  let frac :=
    match rest with
    | EmptyString => Some EmptyString
    | String "."%char f => if String.eqb (snd (span is_digit f)) "" then Some f else None
    | _ => None
    end in
  match frac with
  | Some f =>
      if String.eqb (whole +:+ f) "" then None
      else
        match all_digits (whole +:+ f) with
        | Some m => Some (normalize (if neg : bool then - m else m) (String.length f))
        | None => None
        end
  | None => None
  end.

Fixpoint zeros (n : nat) : string :=
  match n with
  | O => EmptyString
  | S k => String "0"%char (zeros k)
  end.

Definition to_string (x : t) : string :=
  let digits := py_str_int (Z.abs (mant x)) in
  let padded := zeros (S (scale x) - String.length digits) +:+ digits in
  let n := (String.length padded - scale x)%nat in
  let frac := String.substring n (scale x) padded in
  (if Z.ltb (mant x) 0 then "-" else "")
    +:+ String.substring 0 n padded +:+ "."
    +:+ (if String.eqb frac "" then "0" else frac).

End DecFloat.

#[local] Instance dec_float : PyFloat DecFloat.t :=
  {| float_of_string := DecFloat.of_string;
     str_of_float := DecFloat.to_string |}.

(** A run directory with a sidecar: [/run/vasprun.xml] next to
    [/run/INCAR]. *)
#[local] Instance run_dir_with_incar : FileSystem :=
  {| os_listdir d :=
       if String.eqb d "/run" then Ok ["vasprun.xml"; "INCAR"] else Raise OSError;
     read_clean_lines path :=
       if String.eqb path "/run/INCAR"
       then Ok ["SYSTEM = FeO"; "NSW = 10"; "LDAUL = 2 2"; "MAGMOM = 2*5.0"]
       else Raise IOError |}.

(** The same directory without the sidecar. *)
Definition run_dir_alone : FileSystem :=
  {| os_listdir d := if String.eqb d "/run" then Ok ["vasprun.xml"] else Raise OSError;
     read_clean_lines path := Raise IOError |}.



(** ** Example documents *)

Section Documents.

Definition elem (name : string) : event := StartElement name ∅.
Definition named (name n : string) : event := StartElement name {["name" := n]}.
Definition leaf (name text : string) : list event :=
  [elem name; Characters text; EndElement name].
Definition row (cells : list string) : list event :=
  [elem "rc"] ++ concat (map (leaf "c") cells) ++ [EndElement "rc"].
Definition varray (n : string) (rows : list string) : list event :=
  [named "varray" n] ++ concat (map (leaf "v") rows) ++ [EndElement "varray"].

(** The species catalogue: the array [atoms] with the given cells. *)
Definition ex_atoms (cells : list string) : list event :=
  [named "array" "atoms"; elem "set"] ++ concat (map (leaf "c") cells)
  ++ [EndElement "set"; EndElement "array"].

(** The input part of a document for one Fe and one O: a declared
    parameter, a k-point mesh, the species and the element types. *)
Definition ex_header : list event :=
  [elem "modeling"; elem "incar";
   StartElement "i" {["type" := "int"; "name" := "NSW"]}; Characters " 10";
   EndElement "i"; EndElement "incar";
   elem "kpoints"; StartElement "generation" {["param" := "Gamma"]};
   StartElement "v" {["type" := "int"; "name" := "divisions"]};
   Characters " 2 2 2 "; EndElement "v"; EndElement "generation";
   EndElement "kpoints"; elem "atominfo"]
  ++ ex_atoms ["Fe"; "Fe"; "O"; "O"]
  ++ [named "array" "atomtypes"; elem "set"]
  ++ row ["1"; "Fe"; "55.8"; "8.0"; " PAW_PBE Fe 06Sep2000 "]
  ++ row ["1"; "O"; "16.0"; "6.0"; " PAW_PBE O 08Apr2002 "]
  ++ [EndElement "set"; EndElement "array"; EndElement "atominfo"].

(** A structure section with two atoms and the identity lattice. *)
Definition ex_structure (n : string) : list event :=
  [named "structure" n; elem "crystal"]
  ++ varray "basis" [" 1.0 0.0 0.0 "; " 0.0 1.0 0.0 "; " 0.0 0.0 1.0 "]
  ++ [EndElement "crystal"]
  ++ varray "positions" [" 0.0 0.0 0.0 "; " 0.5 0.5 0.5 "]
  ++ [EndElement "structure"].

Definition ex_scstep : list event :=
  [elem "scstep"; elem "energy"; named "i" "e_wo_entrp"; Characters " -10.5 ";
   EndElement "i"; EndElement "energy"; EndElement "scstep"].

Definition ex_forces_stress : list event :=
  varray "forces" [" 0.0 0.0 0.0 "; " 0.0 0.0 0.0 "]
  ++ varray "stress" [" 1.0 0.0 0.0 "; " 0.0 1.0 0.0 "; " 0.0 0.0 1.0 "].

(** A calculation section with the given convergence iterations. *)
Definition ex_calculation (scsteps : list event) : list event :=
  [elem "calculation"] ++ scsteps ++ ex_structure "" ++ ex_forces_stress
  ++ [EndElement "calculation"].

(** One spin set of the total DOS up to its close, a row per line of
    text, and the whole set. *)
Definition ex_spin_set_open (comment : string) (rows : list string) : list event :=
  [StartElement "set" {["comment" := comment]}] ++ concat (map (leaf "r") rows).

Definition ex_spin_set (comment : string) (rows : list string) : list event :=
  ex_spin_set_open comment rows ++ [EndElement "set"].

(** A DOS section up to some point of its total part, and a whole DOS
    section whose total part has the given spin sets. *)
Definition ex_dos_open (sets : list event) : list event :=
  [elem "dos"; named "i" "efermi"; Characters " 0.5 "; EndElement "i";
   elem "total"; elem "array"; elem "set"] ++ sets.

Definition ex_dos (sets : list event) : list event :=
  ex_dos_open sets ++ [EndElement "set"; EndElement "array"; EndElement "total";
                       EndElement "dos"].

(** The declared parameters of a document with a single scalar entry:
    its type tag, its name and its text. *)
Definition ex_declared (tag key text : string) : list event :=
  [elem "modeling"; elem "incar";
   StartElement "i" {["type" := tag; "name" := key]}; Characters text;
   EndElement "i"; EndElement "incar"].

End Documents.

(** ** Vocabulary of the statements *)

Section Vocabulary.
Context {float : Type} `{!PyFloat float}.

(** The declared types decoded as numbers: [int], and every tag other
    than [logical] and [string] (decoded as float). *)
Definition numeric_type (val_type : string) : Prop :=
  val_type ≠ "logical" ∧ val_type ≠ "string".

(** The number parser that the decoder applies under a numeric tag
    rejects the token. *)
Definition rejects (val_type tok : string) : Prop :=
  if String.eqb val_type "int" then py_int tok = None
  else float_of_string tok = None.

(** The densities that a [tdos] / [idos] slot holds for a spin channel,
    before or after [Dos(...)] wraps the dict. *)
Fixpoint dos_lookup (slot : dos_slot (float:=float)) (spin : Spin) : option (list float) :=
  match slot with
  | DosDict d => d !! spin
  | DosObj _ _ inner => dos_lookup inner spin
  end.

(** The energy grid attached to a slot by [Dos(...)]. *)
Definition dos_grid_of (slot : dos_slot (float:=float)) : option (list float) :=
  match slot with
  | DosDict _ => None
  | DosObj _ grid _ => grid
  end.

(** A matrix of [rows] rows of [cols] columns. *)
Definition has_shape (m : list (list float)) (rows cols : nat) : Prop :=
  length m = rows ∧ Forall (fun r => length r = cols) m.

(** The attributes that the structure and ionic-step properties follow. *)
Definition tracked (h : handler (float:=float)) :=
  (input_read h, atomic_symbols h, structures h, ionic_steps h, forces h,
   read_calculation h, read_structure h).

(** The energy grid and the energy column being accumulated. *)
Definition grid (h : handler (float:=float)) := (dos_energies h, dos_energies_val h).

(** The dict of a [tdos] / [idos] slot that [Dos(...)] has not wrapped. *)
Definition is_dict (slot : dos_slot (float:=float)) : bool :=
  match slot with
  | DosDict _ => true
  | DosObj _ _ _ => false
  end.

Definition dict_of (slot : dos_slot (float:=float)) : gmap Spin (list float) :=
  match slot with
  | DosDict d => d
  | DosObj _ _ _ => ∅
  end.

(** What holds of the structures, the forces and the ionic steps at every
    point of a parse: nothing is recorded before the input is read; every
    structure is over the atomic symbols of the handler; the current force
    matrix and the force matrix of every ionic step have one row of three
    per atomic symbol. *)
Definition forces_fit (h : handler (float:=float)) : Prop :=
  (input_read h = false -> structures h = [] ∧ ionic_steps h = [] ∧ forces h = None)
  ∧ Forall (fun s => st_species s = atomic_symbols h) (structures h)
  ∧ (∀ m, forces h = Some m -> has_shape m (length (atomic_symbols h)) 3)
  ∧ Forall (fun step =>
              has_shape (step_forces step) (length (st_species (structure step))) 3)
           (ionic_steps h).

End Vocabulary.

(** ** The textual form of a table and its decoding *)

(** Every character of [s] satisfies [p]. *)
Fixpoint all_chars (p : ascii -> bool) (s : string) : bool :=
  match s with
  | EmptyString => true
  | String c r => (p c && all_chars p r)%bool
  end.

(** A token: text that is not empty and holds no white space. *)
Definition is_token (s : string) : bool :=
  (negb (String.eqb s "") && all_chars (fun c => negb (is_space c)) s)%bool.

Section Encoding.
Context {float : Type} `{!PyFloat float} `{!FileSystem}.

(** The type tag under which an entry is declared: that of the value, for
    a list that of its first item. *)
Definition type_tag (v : pyval (float:=float)) : string :=
  match v with
  | Scalar a => declared_type a
  | PList (a :: _) => declared_type a
  | PList [] => "float"
  end.

(** Decoding the text of one entry under the tag of the value it was
    written from: a scalar through [parse_parameters], a list through
    [parse_v_parameters]. *)
Definition decode_entry (filename key : string) (v : pyval (float:=float))
    (text : string) : res pyval :=
  match v with
  | Scalar _ => parse_parameters (type_tag v) text
  | PList _ => parse_v_parameters (type_tag v) text filename (Some key)
  end.

(** The scalars that their text gives back: [False]; every integer; a
    float that [float(str(x))] gives back; text without white space at
    its ends. *)
Definition scalar_survives (a : scalar (float:=float)) : Prop :=
  match a with
  | VBool b => b = false
  | VInt _ => True
  | VFloat x => float_of_string (str_of_float x) = Some x
  | VStr s => strip s = s
  end.

(** The same for an item of a list, whose text must also be one token. *)
Definition item_survives (a : scalar (float:=float)) : Prop :=
  match a with
  | VBool b => b = false
  | VInt _ => True
  | VFloat x => float_of_string (str_of_float x) = Some x
                ∧ is_token (str_of_float x) = true
  | VStr s => is_token s = true
  end.

(** The values that encoding and decoding give back: a surviving scalar,
    or a list that is not empty, whose items are of one kind and all
    survive. *)
Definition survives (v : pyval (float:=float)) : Prop :=
  match v with
  | Scalar a => scalar_survives a
  | PList l =>
      match l with
      | [] => False
      | a :: _ => Forall (fun b => same_kind a b = true ∧ item_survives b) l
      end
  end.

End Encoding.

(** The number of sections [tag] that the events close: the end events
    of the elements of that name. *)
Fixpoint sections_closed (tag : string) (evs : list event) : nat :=
  match evs with
  | [] => 0
  | EndElement n :: rest =>
      if String.eqb n tag then S (sections_closed tag rest) else sections_closed tag rest
  | _ :: rest => sections_closed tag rest
  end.

(** No section [tag] lies inside another: among the events of the
    elements [tag], starts and ends take turns, [opened] telling whether
    a section is open where the events begin. *)
Fixpoint not_nested (tag : string) (opened : bool) (evs : list event) : bool :=
  match evs with
  | [] => true
  | StartElement n _ :: rest =>
      if String.eqb n tag then (negb opened && not_nested tag true rest)%bool
      else not_nested tag opened rest
  | Characters _ :: rest => not_nested tag opened rest
  | EndElement n :: rest =>
      if String.eqb n tag then (opened && not_nested tag false rest)%bool
      else not_nested tag opened rest
  end.

(** The flag of a section as the handler keeps it ([read_structure],
    [read_calculation]), replayed on the events: a start event of [tag]
    sets it, an end event of [tag] that finds it set is counted and
    clears it, an end event of [tag] that finds it cleared is passed
    over.  Of the ends of two sections that lie one inside the other, the
    first is counted and the second is not. *)
Fixpoint closes_with_flag (tag : string) (opened : bool) (evs : list event) : nat :=
  match evs with
  | [] => 0
  | StartElement n _ :: rest => closes_with_flag tag (String.eqb n tag || opened) rest
  | Characters _ :: rest => closes_with_flag tag opened rest
  | EndElement n :: rest =>
      if (String.eqb n tag && opened)%bool then S (closes_with_flag tag false rest)
      else closes_with_flag tag opened rest
  end.

(** The events that follow the input part of a document: the input ends
    with the close of the [set] of the array [atomtypes].  [arr] is the
    entry of the context for [array], set by the start and reset by the
    end of the elements of that name. *)
Fixpoint body_events (arr : sval) (evs : list event) : list event :=
  match evs with
  | [] => []
  | StartElement n attributes :: rest =>
      body_events
        (if String.eqb n "array"
         then match attributes !! "name" with
              | None => SBool true
              | Some a => SStr a
              end
         else arr) rest
  | Characters _ :: rest => body_events arr rest
  | EndElement n :: rest =>
      if (String.eqb n "set" && is_str arr "atomtypes")%bool then rest
      else body_events (if String.eqb n "array" then SBool false else arr) rest
  end.

(** A run with an initial structure and one calculation. *)
Definition ex_run : list event :=
  ex_header ++ ex_structure "initialpos" ++ ex_calculation ex_scstep.

(** The same run up to the close of its calculation section, the
    calculation without convergence iterations. *)
Definition ex_open_without_scstep : list event :=
  ex_header ++ ex_structure "initialpos" ++ [elem "calculation"]
  ++ ex_structure "" ++ ex_forces_stress.






(** A structure section that lies inside another one, after the input
    part. *)
Definition ex_nested_structures : list event :=
  ex_header ++ [named "structure" "outer"] ++ ex_structure "inner"
  ++ [EndElement "structure"].

(** A run followed by a DOS section with the given spin sets. *)
Definition ex_run_with_dos (sets : list event) : list event :=
  ex_run ++ ex_dos sets.

(** A total DOS with one spin channel, two rows of energy, density and
    integrated density. *)
Definition ex_one_spin : list event :=
  ex_spin_set "spin 1" [" 1.0 2.0 3.0 "; " 1.5 4.0 7.0 "].

(** A total DOS whose two spin sets carry different energy columns, up to
    the close of the second set. *)
Definition ex_two_spins_open : list event :=
  ex_spin_set "spin 1" [" 1.0 2.0 3.0 "] ++ ex_spin_set_open "spin 2" [" 9.0 2.0 3.0 "].

Definition ex_two_spins : list event := ex_two_spins_open ++ [EndElement "set"].

(** ** The rest of the module: tables, k-points, POSCAR, results *)

(** [s.split()]: the pieces between runs of white space, none of them
    empty. *)
Definition py_split (s : string) : list string :=
  List.filter (fun t => negb (String.eqb t "")) (re_split_ws s).

(** *** Kpoints *)

(** [Kpoints.from_file] once the lines are read:
    [lines = list(clean_lines(f.readlines(), False))]. *)
Definition Kpoints_from_lines (lines : list string) : res Kpoints :=
  c ← item lines 0;
  g ← item lines 1;
  l ← item lines 2;
  k ← item lines 3;
  mesh ← mapM_res (fun x => of_parse (py_int x)) (py_split (strip k));
  Ok {| l1_comment := strip c; l2_gen_style := strip g; l3_lattice := strip l;
        kpts := mesh |}.

(** The [lines] of [Kpoints.__str__] and the text it returns. *)
Definition Kpoints_lines (k : Kpoints) : list string :=
  [l1_comment k; l2_gen_style k; l3_lattice k; join " " (map py_str_int (kpts k))].

Definition Kpoints_str (k : Kpoints) : string :=
  join (String "010"%char EmptyString) (Kpoints_lines k).

Section Tables.
Context {float : Type} `{!PyFloat float}.
Local Abbreviation pyval := (@pyval float).

(** [v1 != v2] on two values of a table.  Python decides it by the types
    of the values and, inside lists, by the identity of the items: it is
    taken as given. *)
Variable py_ne : pyval -> pyval -> bool.

(** *** Incar.diff *)

(** The text that [diff] puts where a table has no value. *)
Definition Default : pyval := Scalar (VStr "Default").

(** The dict that [diff] returns: [{'Same parameters': similar_param,
    'Different': different_param}], an entry of [different_param] being
    the pair of its [INCAR1] and [INCAR2]. *)
Record Diff : Type := {
  similar_param : gmap string pyval;
  different_param : gmap string (pyval * pyval)
}.

(** The body of the loop over [self.items()]. *)
Definition diff_own (other : gmap string pyval)
    (acc : gmap string pyval * gmap string (pyval * pyval)) (kv : string * pyval) :
    gmap string pyval * gmap string (pyval * pyval) :=
  let '(similar, different) := acc in
  let '(k1, v1) := kv in
  match other !! k1 with
  | None => (similar, <[k1 := (v1, Default)]> different)
  | Some v2 =>
      if py_ne v1 v2 then (similar, <[k1 := (v1, v2)]> different)
      else (<[k1 := v1]> similar, different)
  end.

(** The body of the loop over [other.items()].  It tests and assigns under
    [k1], the variable of the first loop: the last key of [self], or no
    variable at all when [self] is empty, which is an UnboundLocalError,
    here [None]. *)
Definition diff_other (self : gmap string pyval) (k1 : option string)
    (acc : option (gmap string pyval * gmap string (pyval * pyval)))
    (kv : string * pyval) :
    option (gmap string pyval * gmap string (pyval * pyval)) :=
  match acc with
  | None => None
  | Some (similar, different) =>
      let '(k2, v2) := kv in
      match similar !! k2, different !! k2 with
      | None, None =>
          match k1 with
          | None => None
          | Some k1 =>
              match self !! k1 with
              | None => Some (similar, <[k1 := (Default, v2)]> different)
              | Some _ => Some (similar, different)
              end
          end
      | _, _ => Some (similar, different)
      end
  end.

(** [self.diff(other)] *)
Definition Incar_diff (self other : gmap string pyval) : option Diff :=
  let items := map_to_list self in
  let acc := foldl (diff_own other) (∅, ∅) items in
  let k1 := fst <$> last items in
  match foldl (diff_other self k1) (Some acc) (map_to_list other) with
  | Some (similar, different) =>
      Some {| similar_param := similar; different_param := different |}
  | None => None
  end.

(** *** Incar.__add__ *)

(** The body of the loop over [other.items()]. *)
Definition add_item (self : gmap string pyval) (acc : res (gmap string pyval))
    (kv : string * pyval) : res (gmap string pyval) :=
  params ← acc;
  let '(k, v) := kv in
  match self !! k with
  | Some w => if py_ne v w then Raise ValueError else Ok (<[k := v]> params)
  | None => Ok (<[k := v]> params)
  end.

(** [self + other] *)
Definition Incar_add (self other : gmap string pyval) : res (gmap string pyval) :=
  foldl (add_item self) (Ok self) (map_to_list other).

End Tables.

Section Results.
Context {float : Type} `{!PyFloat float}.
Local Abbreviation handler := (@handler float).

(** *** The properties of a Vasprun object *)

(** [self.ionic_steps[-1]['electronic_steps'][-1]['e_wo_entrp']] *)
Definition final_energy (h : handler) : res float :=
  step ← last_item (ionic_steps h);
  sc ← last_item (electronic_steps step);
  match sc !! SStr "e_wo_entrp" with
  | Some e => Ok e
  | None => Raise KeyError
  end.

(** [self.structures[-1]] *)
Definition final_structure (h : handler) : res Structure := last_item (structures h).

(** [self.structures[0]] *)
Definition initial_structure (h : handler) : res Structure := item (structures h) 0.

(** *** Poscar *)

(** [struct.formula], of pymatgen.core.structure, is taken as given. *)
Variable formula : Structure (float:=float) -> string.

(** The attributes of a [Poscar]. *)
Record Poscar : Type := {
  _struct : Structure (float:=float);
  _site_symbols : list string;
  _natoms : list Z;
  _true_names : bool;
  _selective_dynamics : option (list (list bool));
  comment : string
}.

(** The body of the loop over the sites of [Poscar.__init__]: the symbols
    and the amounts appended so far, [curr_sym] and [curr_amt]. *)
Definition count_site (acc : list string * list Z * string * Z) (symbol : string) :
    list string * list Z * string * Z :=
  let '(symbols, amounts, curr_sym, curr_amt) := acc in
  if String.eqb symbol curr_sym then (symbols, amounts, curr_sym, curr_amt + 1)
  else (symbols ++ [curr_sym], amounts ++ [curr_amt], symbol, 1).

(** [Poscar(struct, comment)].  A structure of the model holds one symbol
    for each site, so it is ordered; [struct[0]] on a structure without
    sites raises IndexError. *)
Definition Poscar_init (struct : Structure (float:=float)) (text : option string) :
    res Poscar :=
  first ← item (st_species struct) 0;
  let '(symbols, amounts, curr_sym, curr_amt) :=
    foldl count_site ([], [], first, 0) (st_species struct) in
  Ok {| _struct := struct;
        _site_symbols := symbols ++ [curr_sym];
        _natoms := amounts ++ [curr_amt];
        _true_names := true;
        _selective_dynamics := None;
        comment := default (formula struct) text |}.

(** [[symbols[i]] * natoms[i]] for every [i] in [range(len(symbols))],
    one after the other. *)
Definition site_elements (symbols : list string) (natoms : list Z) : res (list string) :=
  groups ← mapM_res (fun i : nat =>
                       s ← item symbols i;
                       n ← item natoms i;
                       Ok (replicate (Z.to_nat n) s))
                    (seq 0 (length symbols));
  Ok (concat groups).

(** [Structure(lattice, species, coords)], the constructor of
    pymatgen.core.structure, is taken as given: what it accepts and what
    it raises is outside the sources at hand. *)
Variable Structure_new :
  matrix (float:=float) -> list string -> matrix (float:=float)
  -> res (Structure (float:=float)).

(** [poscar.set_site_symbols(symbols)]; the structure is rebuilt by
    [Structure(...)] over the lattice and the coordinates it had. *)
Definition set_site_symbols (symbols : list string) (p : Poscar) : res Poscar :=
  elements ← site_elements symbols (_natoms p);
  s ← Structure_new (st_lattice (_struct p)) elements (st_coords (_struct p));
  Ok {| _struct := s;
        _site_symbols := symbols;
        _natoms := _natoms p;
        _true_names := true;
        _selective_dynamics := _selective_dynamics p;
        comment := comment p |}.

End Results.

(** A constructor for the worked examples: it takes the lists when there
    are as many symbols as rows of coordinates, and raises ValueError
    otherwise. *)
Definition checked_structure {float : Type} (lattice : matrix (float:=float))
    (species : list string) (coords : matrix (float:=float)) :
    res (Structure (float:=float)) :=
  if Nat.eqb (length species) (length coords)
  then Ok {| st_lattice := lattice; st_species := species; st_coords := coords |}
  else Raise ValueError.

(** ** More vocabulary *)

Section MoreVocabulary.
Context {float : Type} `{!PyFloat float}.

(** What the input part of a document fills. *)
Definition inputs (h : handler (float:=float)) :=
  (input_read h, vasp_version h, incar h, parameters h, potcar_symbols h,
   atomic_symbols h, kpoints h, actual_kpoints h, actual_kpoints_weights h).

(** A structure with a lattice of three rows of three and one row of
    three coordinates for each of its symbols. *)
Definition well_shaped (s : Structure (float:=float)) : Prop :=
  has_shape (st_lattice s) 3 3 ∧ has_shape (st_coords s) (length (st_species s)) 3.

(** No two neighbours of the list are equal. *)
Fixpoint neighbours_differ (l : list string) : Prop :=
  match l with
  | a :: (b :: _) as r => a ≠ b ∧ neighbours_differ r
  | _ => True
  end.

(** A value that differs from another when their texts differ: a stand-in
    for [!=] in the worked examples. *)
Definition ne_by_text (a b : pyval (float:=float)) : bool :=
  negb (String.eqb (get_string_value a) (get_string_value b)).

End MoreVocabulary.

(** ** The texts of a table *)

(** A character of the numbers that [proc_val] repeats: [[\d\.\-\+]]. *)
Definition number_char (c : ascii) : bool :=
  (is_digit c || mem_string (String c EmptyString) ["."; "-"; "+"])%bool.

(** An item of the text of a list-valued key: a number, or [n*number]. *)
Definition list_token (count : option nat) (number : string) : string :=
  match count with
  | None => number
  | Some n => py_str_int (Z.of_nat n) +:+ "*" +:+ number
  end.

Definition copies (count : option nat) : nat := default 1%nat count.

(** A line [KEY = VALUE] and the key that [Incar.from_file] reads from a
    line, if any. *)
Definition incar_line (key value : string) : string := key +:+ " = " +:+ value.

Definition key_of_line (line : string) : option string :=
  (fun kv : string * string => strip kv.1) <$> match_key_value line.

(** A text without white space at its ends and without a line break. *)
Definition one_line (t : string) : Prop :=
  strip t = t ∧ all_chars (fun c => negb (Ascii.eqb c "010")) t = true.

(** A directory whose every file holds the lines of the given table: for
    the worked examples. *)
Definition dir_of_table {float : Type} `{!PyFloat float}
    (d : gmap string (pyval (float:=float))) : FileSystem :=
  {| os_listdir _ := Raise OSError;
     read_clean_lines _ :=
       Ok (map (fun kv : string * string => incar_line kv.1 kv.2) (get_string_lines d)) |}.

(** ** More example documents *)

(** The rows of one ion of the partial DOS, spin up. *)
Definition ex_ion_set (ion : string) (rows : list string) : list event :=
  [StartElement "set" {["comment" := ion]}; StartElement "set" {["comment" := "spin 1"]}]
  ++ concat (map (leaf "r") rows)
  ++ [EndElement "set"; EndElement "set"].

(** A run followed by a DOS section whose partial part has two ions of
    two orbitals, up to the close of [partial]. *)
Definition ex_partial_open : list event :=
  ex_run
  ++ [elem "dos"; elem "partial"; elem "array"; elem "set"]
  ++ ex_ion_set "ion 1" [" 1.0 0.1 0.2 "; " 2.0 0.3 0.4 "]
  ++ ex_ion_set "ion 2" [" 1.0 0.5 0.6 "; " 2.0 0.7 0.8 "]
  ++ [EndElement "set"; EndElement "array"].

(** The run [ex_run] up to the close of its calculation section. *)
Definition ex_open_run : list event := take (length ex_run - 1) ex_run.

(** The input part [ex_header] up to the close of the [set] of its array
    [atomtypes]. *)
Definition ex_open_atomtypes : list event := take (length ex_header - 3) ex_header.

(** ** Vocabulary of the eigenvalue table *)

Section EigenVocabulary.
Context {float : Type} `{!PyFloat float}.

(** What the rows of a k-point set are read under. *)
Definition eigen_context (h : handler (float:=float)) :=
  (input_read h, read_calculation h, read_structure h, read_dos h, read_eigen h,
   read_lattice h, read_positions h, st h "set", eigen_kpoint h, eigen_spin h,
   eigenvalues h).

(** Text can be taken: the buffer of the positions exists if it is open. *)
Definition text_accepted (h : handler (float:=float)) : Prop :=
  read_lattice h = false ∧ (read_positions h = false ∨ is_Some (posstr h)).

(** A k-point set of the eigenvalues section: its rows between the start
    and the end of the [set]. *)
Definition kpoint_set (k : Z) (texts : list string) : list event :=
  [StartElement "set" {["comment" := "kpoint " +:+ py_str_int k]}]
  ++ concat (map (leaf "r") texts) ++ [EndElement "set"].

End EigenVocabulary.

(** The run [ex_run] up to the close of its calculation section, followed
    inside that section by the start of an eigenvalues section and of its
    first spin set. *)
Definition ex_eigen_open : list event :=
  ex_open_run ++ [elem "eigenvalues"; elem "array"; elem "set";
                  StartElement "set" {["comment" := "spin 1"]}].

(** ** Vocabulary of the total density of states *)

Section DosVocabulary.
Context {float : Type} `{!PyFloat float}.

(** The three numbers of a row of the total DOS: [float(tok[0])],
    [float(tok[1])] and [float(tok[2])] of its text split at white space,
    read in this order. *)
Definition total_row (text : string) : res (float * float * float) :=
  let tok := re_split_ws (strip text) in
  t0 ← item tok 0;
  e ← of_parse (float_of_string t0);
  t1 ← item tok 1;
  d ← of_parse (float_of_string t1);
  t2 ← item tok 2;
  i ← of_parse (float_of_string t2);
  Ok (e, d, i).

Definition row_energy (r : float * float * float) : float := r.1.1.
Definition row_density (r : float * float * float) : float := r.1.2.
Definition row_integral (r : float * float * float) : float := r.2.

(** What the rows of the total DOS are read under. *)
Definition dos_context (h : handler (float:=float)) :=
  (input_read h, read_calculation h, read_structure h, read_dos h, read_eigen h,
   read_lattice h, read_positions h, st h "total", efermi h).

(** The three columns being accumulated, and what the close of a spin set
    stores. *)
Definition dos_columns (h : handler (float:=float)) :=
  (dos_energies_val h, dos_val h, idos_val h).

Definition dos_store (h : handler (float:=float)) :=
  (dos_energies h, tdos h, idos h).

(** [Spin.up if comment == "spin 1" else Spin.down] *)
Definition spin_of_comment (c : string) : Spin :=
  if String.eqb c "spin 1" then Spin_up else Spin_down.

(** Spin sets one after the other, each a comment and the texts of its
    rows. *)
Definition spin_sets (sets : list (string * list string)) : list event :=
  concat (map (fun s => ex_spin_set s.1 s.2) sets).

(** What a spin set of the total part is read under, where it starts:
    the total part of a DOS section is open, outside a structure and an
    eigenvalues section, the slots of the total and of the integrated DOS
    are the dicts that the start of [dos] made, and the three columns are
    empty, as [__init__] and the close of a spin set leave them. *)
Definition between_sets (h : handler (float:=float)) : Prop :=
  input_read h = true ∧ read_structure h = false ∧ read_eigen h = false
  ∧ read_dos h = true ∧ truthy (st h "total") = true ∧ text_accepted h
  ∧ is_dict (tdos h) = true ∧ is_dict (idos h) = true
  ∧ dos_columns h = ([], [], []).

End DosVocabulary.

(** A total part whose first spin set holds a row and another set, so
    that its own close finds the entry of [set] cleared, followed by a
    second spin set. *)
Definition ex_unclosed_spin_set : list event :=
  [StartElement "set" {["comment" := "spin 1"]}] ++ leaf "r" " 1.0 2.0 3.0 "
  ++ [StartElement "set" {["comment" := "junk"]}; EndElement "set"; EndElement "set"]
  ++ ex_spin_set "spin 2" [" 9.0 2.0 3.0 "].

(** * Properties *)

(** ** Reasoning about computations that returned *)

Lemma bind_ok {A B} (m : res A) (k : A -> res B) (b : B) :
  m ≫= k = Ok b -> ∃ a, m = Ok a ∧ k a = Ok b.
Proof. destruct m; simpl; [eauto|discriminate]. Qed.

Lemma getattr_ok {A} (o : option A) (a : A) : getattr o = Ok a -> o = Some a.
Proof. destruct o; simpl; congruence. Qed.

Lemma last_item_ok {A} (l : list A) (a : A) : last_item l = Ok a -> last l = Some a.
Proof. unfold last_item. destruct (last l); congruence. Qed.

(** Inversion of a computation that returned. *)
Ltac ok_step :=
  match goal with
  | H : Ok _ = Ok _ |- _ => injection H as H; try subst
  | H : Raise _ = Ok _ |- _ => discriminate H
  | H : _ ≫= _ = Ok _ |- _ =>
      let a := fresh "a" in let Ha := fresh "Ha" in
      apply bind_ok in H; destruct H as (a & Ha & H)
  | H : (if ?b then _ else _) = Ok _ |- _ => destruct b eqn:?
  | H : match ?x with _ => _ end = Ok _ |- _ => destruct x eqn:?
  | H : getattr _ = Ok _ |- _ => apply getattr_ok in H
  | H : last_item _ = Ok _ |- _ => apply last_item_ok in H
  end.
Ltac ok_inv := repeat ok_step.

(** What a test on the element name says about the name. *)
Ltac name_facts :=
  repeat match goal with
  | H : (_ && _)%bool = true |- _ => apply andb_prop in H; destruct H
  | H : String.eqb ?n _ = true |- _ => apply String.eqb_eq in H; subst n
  end.


(** ** The typed value decoder *)

Section DecoderFacts.
Context {float : Type} `{!PyFloat float}.

Lemma eqb_false_of_ne (a b : string) : a ≠ b -> String.eqb a b = false.
Proof. intros Hne. by apply String.eqb_neq. Qed.

Lemma numeric_type_cases (val_type : string) :
  numeric_type val_type ->
  String.eqb val_type "logical" = false ∧ String.eqb val_type "string" = false.
Proof. intros [H1 H2]. split; by apply eqb_false_of_ne. Qed.






End DecoderFacts.

Lemma ok_result_or {A} (d : A) (m : res A) : is_ok m = true -> m = Ok (result_or d m).
Proof. by destruct m. Qed.



Section ScalarFacts.
Context {float : Type} `{!PyFloat float}.

(** The scalar decoder under a numeric tag is the number parser alone. *)
Lemma parse_parameters_numeric (val_type val : string) :
  numeric_type val_type -> rejects val_type val ->
  parse_parameters val_type val = Raise ValueError.
Proof.
  intros Hnum Hrej. destruct (numeric_type_cases _ Hnum) as [Hl Hs].
  unfold parse_parameters, rejects in *. rewrite Hl.
  destruct (String.eqb val_type "int"); [by rewrite Hrej|].
  by rewrite Hs, Hrej.
Qed.

(** C3 (amended). A scalar parameter of numeric declared type whose text
    fails numeric parsing makes the decoder raise ValueError at once:
    [parse_parameters] receives neither the file name nor the parameter
    name, and the close of the parameter's element in the declared
    parameter section raises ValueError whatever the directory of the
    parsed file holds. *)
Theorem scalar_decode_fails_at_once (val_type txt : string) :
  numeric_type val_type ->
  rejects val_type txt ->
  parse_parameters val_type txt = Raise ValueError
  ∧ ∀ (fs : FileSystem) (h : handler) (raw : string),
      input_read h = false ->
      truthy (st h "incar") = true ->
      param_type h = Some val_type ->
      val h = Some raw ->
      strip raw = txt ->
      endElement "i" h = Raise ValueError.
Proof.
  intros Hnum Hrej. split; [by apply parse_parameters_numeric|].
  intros fs h raw Hin Hincar Hty Hval Hstrip.
  unfold endElement, end_input, end_input_i, getvalue.
  rewrite Hin, Hincar, Hty, Hval. simpl. rewrite Hstrip.
  by rewrite (parse_parameters_numeric _ _ Hnum Hrej).
Qed.

(** C4 (amended). Under the tag [logical] the scalar decoder never fails:
    it returns true when the text is exactly [T] and false for every other
    text. *)
Theorem logical_scalar_is_exact_T (val : string) :
  ∃ b : bool, parse_parameters "logical" val = Ok (Scalar (VBool b))
              ∧ (b = true <-> val = "T").
Proof.
  exists (String.eqb val "T"). split; [reflexivity|]. apply String.eqb_eq.
Qed.

End ScalarFacts.

Lemma scalar_decode_fails_at_once_witness :
  @parse_parameters _ dec_float "int" "2****" = Raise ValueError.
Proof.
  apply (@scalar_decode_fails_at_once _ dec_float "int" "2****").
  - split; discriminate.
  - vm_compute; reflexivity.
Defined.

(** The close of a scalar [LDAUL] printed as [2****] ends the parse with
    ValueError although the sidecar defines [LDAUL]; the same text in a
    list-valued element is replaced by the sidecar's value. *)
Lemma scalar_decode_ignores_sidecar :
  @Vasprun _ dec_float run_dir_with_incar "/run/vasprun.xml"
     [elem "incar"; StartElement "i" {["type" := "int"; "name" := "LDAUL"]};
      Characters " 2**** "; EndElement "i"] = Raise ValueError
  ∧ @parse_from_incar _ dec_float run_dir_with_incar "/run/vasprun.xml" (Some "LDAUL")
    = Ok (Some (PList [VInt 2; VInt 2]))
  ∧ (fun h => incar h !! "LDAUL")
      <$> @Vasprun _ dec_float run_dir_with_incar "/run/vasprun.xml"
            [elem "incar"; StartElement "v" {["type" := "int"; "name" := "LDAUL"]};
             Characters " 2**** "; EndElement "v"]
    = Ok (Some (PList [VInt 2; VInt 2])).
Proof. repeat split; vm_compute; reflexivity. Qed.

(** The texts [t] and [maybe] under the tag [logical] both decode to
    false: no comparison without regard to case, and no error. *)
Lemma logical_scalar_counterexample :
  @parse_parameters _ dec_float "logical" "t" = Ok (Scalar (VBool false))
  ∧ @parse_parameters _ dec_float "logical" "maybe" = Ok (Scalar (VBool false))
  ∧ @parse_parameters _ dec_float "logical" "T F" = Ok (Scalar (VBool false)).
Proof. repeat split. Qed.

(** ** The species catalogue *)

Section Species.
Context {float : Type} `{!PyFloat float} `{!FileSystem}.

(** [l[::2]] and [l[1::2]] by position. *)
Lemma stride_2_lookup {A} (l : list A) (i : nat) :
  stride_from 0 2 l !! i = l !! (2 * i)%nat
  ∧ stride_from 1 2 l !! i = l !! (2 * i + 1)%nat.
Proof.
  revert i. induction l as [|x r IH]; intros i.
  - split; reflexivity.
  - split.
    + destruct i as [|i]; [reflexivity|].
      replace (2 * S i)%nat with (S (2 * i + 1)) by lia.
      exact (proj2 (IH i)).
    + replace (2 * i + 1)%nat with (S (2 * i)) by lia.
      exact (proj1 (IH i)).
Qed.

Lemma el_mapping_X : el_mapping "X" = "Xe".
Proof. reflexivity. Qed.

Lemma el_mapping_other (sym : string) : sym ≠ "X" -> el_mapping sym = sym.
Proof.
  intros Hne. unfold el_mapping, EL_MAPPINGS.
  rewrite lookup_singleton_ne; [reflexivity|congruence].
Qed.

(** C5. At the close of the [set] of the array [atoms] the stored symbol
    list is made of the entries 0, 2, 4, ... of the accumulated entries,
    with [X] replaced by [Xe] and every other symbol kept; the entries
    Fe, Fe, O, O give [Fe; O] and Fe, Fe, O, O, O, O give [Fe; O; O]. *)
Theorem atoms_close_keeps_every_second_entry :
  (∀ h : handler,
      input_read h = false ->
      is_str (st h "array") "atoms" = true ->
      ∃ h', endElement "set" h = Ok h'
            ∧ ∀ i : nat,
                atomic_symbols h' !! i = el_mapping <$> atomic_symbols h !! (2 * i)%nat)
  ∧ el_mapping "X" = "Xe"
  ∧ (∀ sym, sym ≠ "X" -> el_mapping sym = sym)
  ∧ (∀ fname, atomic_symbols <$> Vasprun fname (ex_atoms ["Fe"; "Fe"; "O"; "O"])
              = Ok ["Fe"; "O"])
  ∧ (∀ fname, atomic_symbols <$> Vasprun fname (ex_atoms ["Fe"; "Fe"; "O"; "O"; "O"; "O"])
              = Ok ["Fe"; "O"; "O"]).
Proof.
  split; [|split; [apply el_mapping_X|split; [apply el_mapping_other|]]].
  - intros h Hin Hatoms.
    unfold endElement, end_input, end_input_set. rewrite Hin, Hatoms. simpl.
    eexists. split; [reflexivity|]. intros i. simpl.
    rewrite list_lookup_fmap. f_equal. apply stride_2_lookup.
  - split; intros fname; vm_compute; reflexivity.
Qed.

End Species.

Lemma atoms_close_keeps_every_second_entry_witness :
  let h := result_or (handler_init "")
             (@feed _ dec_float run_dir_with_incar
                ([named "array" "atoms"; elem "set"]
                 ++ concat (map (leaf "c") ["X"; "1"; "O"; "2"]))
                (handler_init "/run/vasprun.xml")) in
  ∃ h', @endElement _ dec_float run_dir_with_incar "set" h = Ok h'
        ∧ atomic_symbols h' !! 0%nat = Some "Xe"
        ∧ atomic_symbols h' !! 1%nat = Some "O".
Proof.
  intros h.
  destruct (proj1 (@atoms_close_keeps_every_second_entry _ dec_float run_dir_with_incar) h)
    as (h' & Hend & Hsym).
  - vm_compute; reflexivity.
  - vm_compute; reflexivity.
  - exists h'. split; [exact Hend|]. split.
    + rewrite (Hsym 0%nat). vm_compute; reflexivity.
    + rewrite (Hsym 1%nat). vm_compute; reflexivity.
Defined.

(** ** What each event does to the structures and the ionic steps *)

Section Effects.
Context {float : Type} `{!PyFloat float} `{!FileSystem}.
Local Abbreviation handler := (@handler float).

Lemma start_input_tracked name attrs (h h' : handler) :
  start_input name attrs h = Ok h' -> tracked h' = tracked h.
Proof. unfold start_input. intros Hs. ok_inv; reflexivity. Qed.

Lemma start_in_calculation_tracked name (h : handler) :
  tracked (start_in_calculation name h) = tracked h.
Proof. unfold start_in_calculation. repeat case_match; reflexivity. Qed.

Lemma start_in_structure_tracked name (h : handler) :
  tracked (start_in_structure name h) = tracked h.
Proof. unfold start_in_structure. repeat case_match; reflexivity. Qed.

Lemma start_section_tracked name (h : handler) :
  tracked (start_section name h)
  = (input_read h, atomic_symbols h, structures h, ionic_steps h, forces h,
     (String.eqb name "calculation" || read_calculation h)%bool,
     (String.eqb name "structure" || read_structure h)%bool).
Proof.
  unfold start_section.
  destruct (String.eqb name "calculation") eqn:Hc.
  { apply String.eqb_eq in Hc. subst. reflexivity. }
  destruct (String.eqb name "scstep") eqn:Hs.
  { apply String.eqb_eq in Hs. subst. reflexivity. }
  destruct (String.eqb name "structure") eqn:Ht; [reflexivity|].
  repeat case_match; reflexivity.
Qed.

Lemma start_eigen_dos_tracked name attrs (h h' : handler) :
  start_eigen_dos name attrs h = Ok h' -> tracked h' = tracked h.
Proof.
  unfold start_eigen_dos, start_eigen_set, start_dos_set. intros Hs.
  ok_inv; try reflexivity.
  all: repeat case_match; reflexivity.
Qed.

Lemma start_body_tracked name attrs (h h' : handler) :
  start_body name attrs h = Ok h' ->
  tracked h'
  = (input_read h, atomic_symbols h, structures h, ionic_steps h, forces h,
     (String.eqb name "calculation" || read_calculation h)%bool,
     (String.eqb name "structure" || read_structure h)%bool).
Proof.
  unfold start_body. intros Hs.
  rewrite (start_eigen_dos_tracked _ _ _ _ Hs), start_section_tracked.
  pose proof (start_in_structure_tracked name (start_in_calculation name h)) as H1.
  pose proof (start_in_calculation_tracked name h) as H2.
  unfold tracked in H1, H2. congruence.
Qed.

(** A start event leaves the structures, the ionic steps and the forces
    as they are; past the input it opens a calculation or a structure
    section by its name alone. *)
Lemma startElement_tracked name attrs (h h' : handler) :
  startElement name attrs h = Ok h' ->
  tracked h'
  = (input_read h, atomic_symbols h, structures h, ionic_steps h, forces h,
     (if input_read h then (String.eqb name "calculation" || read_calculation h)%bool
      else read_calculation h),
     (if input_read h then (String.eqb name "structure" || read_structure h)%bool
      else read_structure h)).
Proof.
  unfold startElement. intros Hs.
  apply bind_ok in Hs. destruct Hs as (h1 & Hbr & Hs).
  assert (Hh' : tracked h' = tracked h1) by (ok_inv; reflexivity).
  rewrite Hh'. clear Hs Hh'.
  change (negb (input_read _)) with (negb (input_read h)) in Hbr.
  destruct (input_read h) eqn:Hin; simpl in Hbr.
  - rewrite (start_body_tracked _ _ _ _ Hbr). simpl. by rewrite Hin.
  - rewrite (start_input_tracked _ _ _ _ Hbr). unfold tracked. simpl. by rewrite Hin.
Qed.

Lemma characters_tracked data (h h' : handler) :
  characters data h = Ok h' -> tracked h' = tracked h.
Proof.
  unfold characters. intros Hs. ok_inv; reflexivity.
Qed.

(** While the input is read, the close of an element touches neither the
    structures nor the ionic steps. *)
Lemma end_input_tracked name (h h' : handler) :
  end_input name h = Ok h' ->
  structures h' = structures h ∧ ionic_steps h' = ionic_steps h
  ∧ forces h' = forces h ∧ read_calculation h' = read_calculation h
  ∧ read_structure h' = read_structure h.
Proof.
  unfold end_input, end_input_i, end_input_set, end_input_c, end_input_v,
    end_input_kpoints.
  intros Hs. ok_inv; repeat split; try reflexivity.
  all: repeat case_match; reflexivity.
Qed.

(** The block [if self.read_calculation]: the close of [calculation]
    appends one ionic step made of the collected convergence iterations,
    the last structure and the current forces; the close of the array
    [forces] reshapes to one row of three per atomic symbol. *)
Lemma end_calculation_effect name (h h1 : handler) :
  end_calculation name h = Ok h1 ->
  input_read h1 = input_read h ∧ atomic_symbols h1 = atomic_symbols h
  ∧ structures h1 = structures h ∧ read_structure h1 = read_structure h
  ∧ read_dos h1 = read_dos h ∧ read_eigen h1 = read_eigen h
  ∧ ((name = "calculation"
      ∧ ∃ step, ionic_steps h1 = ionic_steps h ++ [step]
                ∧ read_calculation h1 = false
                ∧ forces h1 = forces h
                ∧ forces h = Some (step_forces step)
                ∧ last (structures h) = Some (structure step)
                ∧ scdata h = Some (electronic_steps step))
     ∨ (name ≠ "calculation"
        ∧ ionic_steps h1 = ionic_steps h
        ∧ read_calculation h1 = read_calculation h
        ∧ (forces h1 = forces h
           ∨ ∃ l m, reshape (length (atomic_symbols h)) 3 l = Ok m
                    ∧ forces h1 = Some m))).
Proof.
  unfold end_calculation. intros Hs.
  ok_inv; name_facts; repeat (split; [reflexivity|]).
  - right. split; [discriminate|]. simpl. repeat split. by left.
  - right. split; [discriminate|]. simpl. repeat split. by left.
  - right. split; [discriminate|]. simpl. repeat split. right. eauto.
  - right. split; [discriminate|]. simpl. repeat split. by left.
  - left. split; [reflexivity|]. eexists. simpl. repeat split; eauto.
  - right. split; [|repeat split; by left]. intros ->. discriminate.
Qed.

(** The block [if self.read_structure]: the close of [structure] appends
    one structure over the current atomic symbols. *)
Lemma end_structure_effect name (h h1 : handler) :
  end_structure name h = Ok h1 ->
  input_read h1 = input_read h ∧ atomic_symbols h1 = atomic_symbols h
  ∧ ionic_steps h1 = ionic_steps h ∧ forces h1 = forces h
  ∧ read_calculation h1 = read_calculation h
  ∧ ((name = "structure"
      ∧ read_structure h1 = false
      ∧ ∃ s, structures h1 = structures h ++ [s]
             ∧ st_species s = atomic_symbols h)
     ∨ (name ≠ "structure"
        ∧ structures h1 = structures h
        ∧ read_structure h1 = read_structure h)).
Proof.
  unfold end_structure. intros Hs.
  ok_inv; name_facts; repeat (split; [reflexivity|]).
  - right. split; [discriminate|]. simpl. by split.
  - left. split; [reflexivity|]. simpl. split; [reflexivity|]. eauto.
  - right. split; [|by split]. intros ->. discriminate.
Qed.

Lemma end_dos_tracked name (h h' : handler) :
  end_dos name h = Ok h' -> tracked h' = tracked h.
Proof.
  unfold end_dos, end_dos_total_row, end_dos_total_set, end_dos_partial_set,
    end_dos_partial.
  intros Hs. ok_inv; reflexivity.
Qed.

Lemma end_eigen_tracked name (h h' : handler) :
  end_eigen name h = Ok h' -> tracked h' = tracked h.
Proof. unfold end_eigen. intros Hs. ok_inv; reflexivity. Qed.

(** The close of an element past the input. *)
Lemma end_body_effect name (h h' : handler) :
  end_body name h = Ok h' ->
  input_read h' = input_read h ∧ atomic_symbols h' = atomic_symbols h
  ∧ ((name = "calculation" ∧ read_calculation h = true
      ∧ read_calculation h' = false
      ∧ ∃ step, ionic_steps h' = ionic_steps h ++ [step]
                ∧ forces h = Some (step_forces step)
                ∧ last (structures h) = Some (structure step)
                ∧ scdata h = Some (electronic_steps step))
     ∨ ((name ≠ "calculation" ∨ read_calculation h = false)
        ∧ ionic_steps h' = ionic_steps h
        ∧ read_calculation h' = read_calculation h))
  ∧ ((name = "structure" ∧ read_structure h = true
      ∧ read_structure h' = false
      ∧ ∃ s, structures h' = structures h ++ [s]
             ∧ st_species s = atomic_symbols h)
     ∨ ((name ≠ "structure" ∨ read_structure h = false)
        ∧ structures h' = structures h
        ∧ read_structure h' = read_structure h))
  ∧ (forces h' = forces h
     ∨ ∃ l m, reshape (length (atomic_symbols h)) 3 l = Ok m ∧ forces h' = Some m).
Proof.
  unfold end_body. intros Hs.
  apply bind_ok in Hs. destruct Hs as (h1 & Hcalc & Hrest).
  (* the block of the calculation *)
  assert (Hc : input_read h1 = input_read h ∧ atomic_symbols h1 = atomic_symbols h
    ∧ structures h1 = structures h ∧ read_structure h1 = read_structure h
    ∧ ((name = "calculation" ∧ read_calculation h = true
        ∧ read_calculation h1 = false
        ∧ ∃ step, ionic_steps h1 = ionic_steps h ++ [step]
                  ∧ forces h = Some (step_forces step)
                  ∧ last (structures h) = Some (structure step)
                  ∧ scdata h = Some (electronic_steps step))
       ∨ ((name ≠ "calculation" ∨ read_calculation h = false)
          ∧ ionic_steps h1 = ionic_steps h
          ∧ read_calculation h1 = read_calculation h))
    ∧ (forces h1 = forces h
       ∨ ∃ l m, reshape (length (atomic_symbols h)) 3 l = Ok m ∧ forces h1 = Some m)).
  { destruct (read_calculation h) eqn:Hrc.
    - destruct (end_calculation_effect _ _ _ Hcalc)
        as (E1 & E2 & E3 & E4 & _ & _ & [(-> & step & S1 & S2 & S3 & S4 & S5 & S6)
                                        | (Hn & S1 & S2 & S3)]).
      + repeat (split; [assumption|]). split.
        * left. repeat split; try assumption. eauto 6.
        * left. assumption.
      + repeat (split; [assumption|]). split.
        * right. repeat split; [by left|assumption|congruence].
        * assumption.
    - injection Hcalc as <-. repeat (split; [reflexivity|]). split.
      + right. repeat split; [by right|assumption].
      + by left. }
  clear Hcalc. destruct Hc as (C1 & C2 & C3 & C4 & Ccalc & Cforces).
  (* the block of the structure, of the DOS or of the eigenvalues *)
  assert (Hs : input_read h' = input_read h1 ∧ atomic_symbols h' = atomic_symbols h1
    ∧ ionic_steps h' = ionic_steps h1 ∧ forces h' = forces h1
    ∧ read_calculation h' = read_calculation h1
    ∧ ((name = "structure" ∧ read_structure h1 = true
        ∧ read_structure h' = false
        ∧ ∃ s, structures h' = structures h1 ++ [s]
               ∧ st_species s = atomic_symbols h1)
       ∨ ((name ≠ "structure" ∨ read_structure h1 = false)
          ∧ structures h' = structures h1
          ∧ read_structure h' = read_structure h1))).
  { destruct (read_structure h1) eqn:Hrs.
    - destruct (end_structure_effect _ _ _ Hrest)
        as (E1 & E2 & E3 & E4 & E5 & [(-> & S1 & S2) | (Hn & S1 & S2)]).
      + repeat (split; [assumption|]). left. by repeat split.
      + repeat (split; [assumption|]). right.
        repeat split; [by left|assumption|congruence].
    - assert (Ht : tracked h' = tracked h1).
      { destruct (read_dos h1); [by eapply end_dos_tracked|].
        destruct (read_eigen h1); [by eapply end_eigen_tracked|].
        by injection Hrest as <-. }
      unfold tracked in Ht. injection Ht as T1 T2 T3 T4 T5 T6 T7.
      repeat (split; [assumption|]). right.
      repeat split; [by right|assumption|congruence]. }
  clear Hrest. destruct Hs as (S1 & S2 & S3 & S4 & S5 & Sstruct).
  split; [congruence|]. split; [congruence|]. split; [|split].
  - destruct Ccalc as [(-> & K1 & K2 & step & K3 & K4 & K5 & K6) | (K1 & K2 & K3)].
    + left. repeat split; [assumption|congruence|].
      exists step. repeat split; congruence.
    + right. repeat split; [assumption|congruence|congruence].
  - rewrite C2, C3, C4 in Sstruct.
    destruct Sstruct as [(-> & K1 & K2 & s & K3 & K4) | (K1 & K2 & K3)].
    + left. repeat split; [assumption|assumption|]. eauto.
    + right. repeat split; assumption.
  - rewrite S4. exact Cforces.
Qed.

(** The close of an element, as a whole. *)
Lemma endElement_inv name (h h' : handler) :
  endElement name h = Ok h' ->
  ∃ h1, (if input_read h then end_body name h else end_input name h) = Ok h1
        ∧ tracked h' = tracked h1.
Proof.
  unfold endElement. intros Hs.
  apply bind_ok in Hs. destruct Hs as (h1 & Hbr & Hs).
  exists h1. split.
  - destruct (input_read h); exact Hbr.
  - by injection Hs as <-.
Qed.

End Effects.

(** ** Forces and structures of the ionic steps *)

Section IonicSteps.
Context {float : Type} `{!PyFloat float} `{!FileSystem}.
Local Abbreviation handler := (@handler float).

Lemma rows_of_shape (rows cols : nat) (l : list float) :
  length l = (rows * cols)%nat -> has_shape (rows_of rows cols l) rows cols.
Proof.
  revert l. induction rows as [|r IH]; intros l Hlen; simpl.
  - split; [reflexivity|constructor].
  - destruct (IH (drop cols l)) as [Hn Hrows].
    { rewrite length_drop. simpl in Hlen. lia. }
    split; [simpl; by rewrite Hn|].
    constructor; [|exact Hrows].
    rewrite length_take. simpl in Hlen. lia.
Qed.

(** A successful [a.shape = (rows, cols)] gives that shape. *)
Lemma reshape_shape (rows cols : nat) (l : list float) (m : matrix) :
  reshape rows cols l = Ok m -> has_shape m rows cols.
Proof.
  unfold reshape. destruct (Nat.eqb (length l) (rows * cols)) eqn:Hlen; [|discriminate].
  intros [= <-]. apply rows_of_shape. by apply Nat.eqb_eq.
Qed.

Lemma forces_fit_init (fname : string) : forces_fit (handler_init fname : handler).
Proof.
  unfold forces_fit. simpl.
  split; [intros _; by repeat split|]. split; [constructor|].
  split; [intros m; discriminate|constructor].
Qed.

(** [forces_fit] reads five attributes only. *)
Lemma forces_fit_same (h h' : handler) :
  input_read h' = input_read h -> atomic_symbols h' = atomic_symbols h ->
  structures h' = structures h -> ionic_steps h' = ionic_steps h ->
  forces h' = forces h -> forces_fit h -> forces_fit h'.
Proof. unfold forces_fit. intros -> -> -> -> ->. tauto. Qed.

Lemma forces_fit_tracked (h h' : handler) :
  tracked h' = tracked h -> forces_fit h -> forces_fit h'.
Proof.
  unfold tracked. intros [= E1 E2 E3 E4 E5 _ _]. by apply forces_fit_same.
Qed.

Lemma forces_fit_endElement name (h h' : handler) :
  endElement name h = Ok h' -> forces_fit h -> forces_fit h'.
Proof.
  intros Hend Hfit. destruct (endElement_inv _ _ _ Hend) as (h1 & Hbr & Ht).
  apply (forces_fit_tracked h1); [exact Ht|]. clear Hend Ht h'.
  destruct Hfit as (Hnone & Hstruct & Hforces & Hsteps).
  destruct (input_read h) eqn:Hin.
  - destruct (end_body_effect _ _ _ Hbr) as (E1 & E2 & Ecalc & Estruct & Eforces).
    unfold forces_fit. rewrite E1, E2, Hin.
    split; [discriminate|]. split; [|split].
    + destruct Estruct as [(_ & _ & _ & s & -> & Hs) | (_ & -> & _)]; [|exact Hstruct].
      apply Forall_app_2; [exact Hstruct|]. by constructor.
    + intros m Hm. destruct Eforces as [Hsame | (l & m' & Hre & Hnew)].
      * apply Hforces. congruence.
      * rewrite Hnew in Hm. injection Hm as <-. by eapply reshape_shape.
    + destruct Ecalc as [(_ & _ & _ & step & -> & Hf & Hlast & _) | (_ & -> & _)];
        [|exact Hsteps].
      apply Forall_app_2; [exact Hsteps|]. constructor; [|constructor].
      apply last_Some_elem_of in Hlast.
      rewrite Forall_forall in Hstruct. rewrite (Hstruct _ Hlast).
      by apply Hforces.
  - destruct (Hnone eq_refl) as (N1 & N2 & N3).
    destruct (end_input_tracked _ _ _ Hbr) as (T1 & T2 & T3 & _).
    unfold forces_fit. rewrite T1, T2, T3, N1, N2, N3.
    split; [intros _; by repeat split|]. split; [constructor|].
    split; [intros m; discriminate|constructor].
Qed.

Lemma forces_fit_handle (ev : event) (h h' : handler) :
  handle ev h = Ok h' -> forces_fit h -> forces_fit h'.
Proof.
  destruct ev as [name attrs | data | name]; simpl; intros Hev.
  - pose proof (startElement_tracked _ _ _ _ Hev) as Ht. unfold tracked in Ht.
    injection Ht as E1 E2 E3 E4 E5 _ _. by apply forces_fit_same.
  - apply forces_fit_tracked. by eapply characters_tracked.
  - by eapply forces_fit_endElement.
Qed.

Lemma forces_fit_feed (evs : list event) (h h' : handler) :
  feed evs h = Ok h' -> forces_fit h -> forces_fit h'.
Proof.
  revert h. induction evs as [|ev rest IH]; simpl; intros h Hfeed Hfit.
  - by injection Hfeed as <-.
  - apply bind_ok in Hfeed. destruct Hfeed as (h1 & Hev & Hrest).
    eapply IH; [exact Hrest|]. by eapply forces_fit_handle.
Qed.

(** C6. In the result of every parse that returns, the force matrix of
    every ionic step has as many rows as the structure of that step has
    atomic symbols, and every row has three columns. *)
Theorem ionic_step_forces_match_structure (fname : string) (evs : list event)
    (h : handler) :
  Vasprun fname evs = Ok h ->
  Forall (fun step =>
            length (step_forces step) = length (st_species (structure step))
            ∧ Forall (fun r => length r = 3%nat) (step_forces step))
         (ionic_steps h).
Proof.
  intros Hrun.
  destruct (forces_fit_feed _ _ _ Hrun (forces_fit_init fname)) as (_ & _ & _ & Hsteps).
  exact Hsteps.
Qed.

End IonicSteps.

Lemma ionic_step_forces_match_structure_witness :
  let h := result_or (handler_init "")
             (@Vasprun _ dec_float run_dir_with_incar "/run/vasprun.xml" ex_run) in
  length (ionic_steps h) = 1%nat
  ∧ Forall (fun step =>
              length (step_forces step) = length (st_species (structure step))
              ∧ Forall (fun r => length r = 3%nat) (step_forces step))
           (ionic_steps h).
Proof.
  intros h. split; [vm_compute; reflexivity|].
  apply (@ionic_step_forces_match_structure _ dec_float run_dir_with_incar
           "/run/vasprun.xml" ex_run h).
  apply ok_result_or. vm_compute; reflexivity.
Defined.

(** ** How many structures and ionic steps a parse records *)

Section Counts.
Context {float : Type} `{!PyFloat float} `{!FileSystem}.
Local Abbreviation handler := (@handler float).

(** One event past the input: a structure is appended at the close of an
    open structure section, an ionic step at the close of an open
    calculation section, and nothing else changes their number. *)
Lemma handle_counts (ev : event) (h h' : handler) :
  input_read h = true -> handle ev h = Ok h' ->
  input_read h' = true
  ∧ (length (structures h') + closes_with_flag "structure" (read_structure h') [])%nat
    = (length (structures h) + closes_with_flag "structure" (read_structure h) [ev])%nat
  ∧ (length (ionic_steps h') + closes_with_flag "calculation" (read_calculation h') [])%nat
    = (length (ionic_steps h) + closes_with_flag "calculation" (read_calculation h) [ev])%nat
  ∧ ∀ rest,
      closes_with_flag "structure" (read_structure h) (ev :: rest)
      = (closes_with_flag "structure" (read_structure h) [ev]
         + closes_with_flag "structure" (read_structure h') rest)%nat
      ∧ closes_with_flag "calculation" (read_calculation h) (ev :: rest)
        = (closes_with_flag "calculation" (read_calculation h) [ev]
           + closes_with_flag "calculation" (read_calculation h') rest)%nat.
Proof.
  intros Hin Hev. destruct ev as [name attrs | data | name]; simpl in Hev.
  - pose proof (startElement_tracked _ _ _ _ Hev) as Ht. unfold tracked in Ht.
    rewrite Hin in Ht. injection Ht as -> _ -> -> _ -> ->. simpl.
    repeat split; lia.
  - pose proof (characters_tracked _ _ _ Hev) as Ht. unfold tracked in Ht.
    injection Ht as -> _ -> -> _ -> ->. simpl. rewrite Hin.
    repeat split; lia.
  - destruct (endElement_inv _ _ _ Hev) as (h1 & Hbr & Ht). rewrite Hin in Hbr.
    unfold tracked in Ht. injection Ht as -> _ -> -> _ -> ->.
    destruct (end_body_effect _ _ _ Hbr) as (E1 & _ & Ecalc & Estruct & _).
    rewrite E1, Hin. split; [reflexivity|]. simpl.
    assert (Hs : (String.eqb name "structure" && read_structure h)%bool = true
                 ∧ read_structure h1 = false
                 ∧ length (structures h1) = S (length (structures h))
               ∨ (String.eqb name "structure" && read_structure h)%bool = false
                 ∧ read_structure h1 = read_structure h
                 ∧ structures h1 = structures h).
    { destruct Estruct as [(-> & K1 & K2 & s & K3 & _) | ([Hn | Hr] & K1 & K2)].
      - left. rewrite K1, K3, length_app. simpl. repeat split; [assumption|lia].
      - right. apply String.eqb_neq in Hn. rewrite Hn. repeat split; congruence.
      - right. rewrite Hr, andb_false_r. repeat split; congruence. }
    assert (Hc : (String.eqb name "calculation" && read_calculation h)%bool = true
                 ∧ read_calculation h1 = false
                 ∧ length (ionic_steps h1) = S (length (ionic_steps h))
               ∨ (String.eqb name "calculation" && read_calculation h)%bool = false
                 ∧ read_calculation h1 = read_calculation h
                 ∧ ionic_steps h1 = ionic_steps h).
    { destruct Ecalc as [(-> & K1 & K2 & step & K3 & _) | ([Hn | Hr] & K1 & K2)].
      - left. rewrite K1, K3, length_app. simpl. repeat split; [assumption|lia].
      - right. apply String.eqb_neq in Hn. rewrite Hn. repeat split; congruence.
      - right. rewrite Hr, andb_false_r. repeat split; congruence. }
    destruct Hs as [(-> & -> & ->) | (-> & -> & ->)];
      destruct Hc as [(-> & -> & ->) | (-> & -> & ->)]; repeat split; lia.
Qed.

(** The events past the input. *)
Lemma feed_counts (evs : list event) (h h' : handler) :
  input_read h = true -> feed evs h = Ok h' ->
  length (structures h')
  = (length (structures h) + closes_with_flag "structure" (read_structure h) evs)%nat
  ∧ length (ionic_steps h')
    = (length (ionic_steps h)
       + closes_with_flag "calculation" (read_calculation h) evs)%nat.
Proof.
  revert h. induction evs as [|ev rest IH]; intros h Hin Hfeed.
  - injection Hfeed as <-. simpl. lia.
  - simpl in Hfeed. apply bind_ok in Hfeed. destruct Hfeed as (h1 & Hev & Hrest).
    destruct (handle_counts _ _ _ Hin Hev) as (Hin1 & Hs & Hc & Hsplit).
    destruct (IH _ Hin1 Hrest) as (IHs & IHc).
    destruct (Hsplit rest) as (-> & ->).
    change (closes_with_flag "structure" (read_structure h1) []) with 0%nat in Hs.
    change (closes_with_flag "calculation" (read_calculation h1) []) with 0%nat in Hc.
    lia.
Qed.

Lemma st_insert (h : handler) (m : gmap string sval) (n tag : string) (v : sval) :
  state h = <[n := v]> m ->
  st h tag = if String.eqb n tag then v else default (SBool false) (m !! tag).
Proof.
  intros Hst. unfold st. rewrite Hst.
  destruct (String.eqb n tag) eqn:Hn.
  - apply String.eqb_eq in Hn. subst. by rewrite lookup_insert_eq.
  - apply String.eqb_neq in Hn. by rewrite lookup_insert_ne.
Qed.

Lemma start_input_state name attrs (h h' : handler) :
  start_input name attrs h = Ok h' -> state h' = state h.
Proof. unfold start_input. intros Hs. ok_inv; reflexivity. Qed.

(** A start event while the input is read. *)
Lemma startElement_input name attrs (h h' : handler) :
  input_read h = false -> startElement name attrs h = Ok h' ->
  tracked h' = tracked h
  ∧ st h' "array"
    = if String.eqb name "array"
      then match attrs !! "name" with None => SBool true | Some a => SStr a end
      else st h "array".
Proof.
  intros Hin Hs. split.
  - rewrite (startElement_tracked _ _ _ _ Hs). unfold tracked. by rewrite Hin.
  - unfold startElement in Hs. apply bind_ok in Hs. destruct Hs as (h1 & Hbr & Hs).
    change (negb (input_read _)) with (negb (input_read h)) in Hbr.
    rewrite Hin in Hbr. simpl in Hbr. apply start_input_state in Hbr. simpl in Hbr.
    assert (Hst : state h' = state h1) by (ok_inv; reflexivity).
    rewrite Hbr in Hst. apply (st_insert h' _ _ "array" _ Hst).
Qed.

Lemma characters_state data (h h' : handler) :
  characters data h = Ok h' -> state h' = state h.
Proof. unfold characters. intros Hs. ok_inv; reflexivity. Qed.

Lemma is_str_atoms_atomtypes (v : sval) :
  is_str v "atomtypes" = true -> is_str v "atoms" = false.
Proof.
  destruct v as [b|t]; simpl; [discriminate|].
  intros Ht. apply String.eqb_eq in Ht. by subst.
Qed.

(** The close of an element while the input is read: the input ends at the
    close of [set] under the array [atomtypes], and nowhere else. *)
Lemma end_input_state name (h h' : handler) :
  input_read h = false -> end_input name h = Ok h' ->
  state h' = state h
  ∧ input_read h' = (String.eqb name "set" && is_str (st h "array") "atomtypes")%bool.
Proof.
  unfold end_input, end_input_i, end_input_set, end_input_c, end_input_v,
    end_input_kpoints.
  intros Hin Hs.
  destruct (String.eqb name "i") eqn:Hi.
  { apply String.eqb_eq in Hi. subst name. ok_inv; simpl; by rewrite ?Hin. }
  destruct (String.eqb name "set") eqn:Hset.
  { injection Hs as <-. simpl.
    destruct (is_str (st h "array") "atomtypes") eqn:Hty.
    - rewrite (is_str_atoms_atomtypes _ Hty). by split.
    - destruct (is_str (st h "array") "atoms"); simpl; by rewrite ?Hin. }
  simpl. ok_inv; simpl; rewrite ?Hin; split; try reflexivity.
  all: repeat case_match; reflexivity.
Qed.

(** The events from a point of the input on: nothing is recorded until the
    input ends, and the events that follow are counted by [feed_counts]. *)
Lemma feed_input_counts (evs : list event) (h h' : handler) :
  input_read h = false ->
  structures h = [] -> ionic_steps h = [] ->
  read_structure h = false -> read_calculation h = false ->
  feed evs h = Ok h' ->
  length (structures h')
  = closes_with_flag "structure" false (body_events (st h "array") evs)
  ∧ length (ionic_steps h')
    = closes_with_flag "calculation" false (body_events (st h "array") evs).
Proof.
  revert h. induction evs as [|ev rest IH]; intros h Hin Hs Hi Hrs Hrc Hfeed.
  - injection Hfeed as <-. rewrite Hs, Hi. by split.
  - simpl in Hfeed. apply bind_ok in Hfeed. destruct Hfeed as (h1 & Hev & Hrest).
    destruct ev as [name attrs | data | name]; simpl in Hev.
    + destruct (startElement_input _ _ _ _ Hin Hev) as (Ht & Harr).
      unfold tracked in Ht. injection Ht as T1 _ T3 T4 _ T6 T7.
      simpl. rewrite <- Harr. apply IH; congruence.
    + pose proof (characters_tracked _ _ _ Hev) as Ht.
      pose proof (characters_state _ _ _ Hev) as Hst.
      unfold tracked in Ht. injection Ht as T1 _ T3 T4 _ T6 T7.
      simpl. replace (st h "array") with (st h1 "array") by (unfold st; by rewrite Hst).
      apply IH; congruence.
    + destruct (endElement_inv _ _ _ Hev) as (hm & Hbr & Ht). rewrite Hin in Hbr.
      destruct (end_input_state _ _ _ Hin Hbr) as (Hst & Hflip).
      destruct (end_input_tracked _ _ _ Hbr) as (M1 & M2 & _ & M4 & M5).
      unfold tracked in Ht. injection Ht as T1 _ T3 T4 _ T6 T7.
      simpl.
      destruct (String.eqb name "set" && is_str (st h "array") "atomtypes")%bool eqn:Hend.
      * destruct (feed_counts rest h1 h') as (Cs & Cc); [congruence|exact Hrest|].
        rewrite Cs, Cc, T3, M1, Hs, T4, M2, Hi, T6, M4, Hrc, T7, M5, Hrs.
        by split.
      * assert (Harr : st h1 "array"
                       = if String.eqb name "array" then SBool false else st h "array").
        { unfold endElement in Hev. apply bind_ok in Hev.
          destruct Hev as (hm' & Hbr' & Hev).
          change (negb (input_read _)) with (negb (input_read h)) in Hbr'.
          rewrite Hin in Hbr'. simpl in Hbr'. rewrite Hbr in Hbr'.
          injection Hbr' as <-. injection Hev as <-.
          unfold st. simpl. rewrite Hst.
          destruct (String.eqb name "array") eqn:Hn.
          - apply String.eqb_eq in Hn. subst. by rewrite lookup_insert_eq.
          - apply String.eqb_neq in Hn. by rewrite lookup_insert_ne. }
        rewrite <- Harr. apply IH; congruence.
Qed.

(** What the flag counts is no more than the end events, and all of them
    where the sections do not lie inside one another. *)
Lemma closes_with_flag_le (tag : string) (evs : list event) (opened : bool) :
  (closes_with_flag tag opened evs <= sections_closed tag evs)%nat.
Proof.
  revert opened. induction evs as [|[n attrs | data | n] rest IH]; intros opened; simpl.
  - lia.
  - apply IH.
  - apply IH.
  - destruct (String.eqb n tag); simpl.
    + destruct opened.
      * specialize (IH false). lia.
      * specialize (IH false). lia.
    + apply IH.
Qed.

Lemma closes_with_flag_not_nested (tag : string) (evs : list event) (opened : bool) :
  not_nested tag opened evs = true ->
  closes_with_flag tag opened evs = sections_closed tag evs.
Proof.
  revert opened. induction evs as [|[n attrs | data | n] rest IH]; intros opened; simpl.
  - reflexivity.
  - destruct (String.eqb n tag); simpl.
    + intros Hn. apply andb_prop in Hn as [_ Hn]. by apply IH.
    + apply IH.
  - apply IH.
  - destruct (String.eqb n tag); simpl.
    + intros Hn. apply andb_prop in Hn as [-> Hn]. by rewrite (IH false Hn).
    + apply IH.
Qed.

(** C7 (amended). In the result of every parse that returns, the
    structures are no more than the structure sections closed after the
    input part of the document, and as many where these sections do not
    lie inside one another; the ionic steps are no more than the
    calculation sections closed after the input part, and as many where
    these do not lie inside one another.  Every structure section counts,
    inside a calculation section or not. *)
Theorem structures_and_ionic_steps_counted (fname : string) (evs : list event)
    (h : handler) :
  Vasprun fname evs = Ok h ->
  ((length (structures h)
    <= sections_closed "structure" (body_events (SBool false) evs))%nat
   ∧ (not_nested "structure" false (body_events (SBool false) evs) = true ->
      length (structures h)
      = sections_closed "structure" (body_events (SBool false) evs)))
  ∧ ((length (ionic_steps h)
      <= sections_closed "calculation" (body_events (SBool false) evs))%nat
     ∧ (not_nested "calculation" false (body_events (SBool false) evs) = true ->
        length (ionic_steps h)
        = sections_closed "calculation" (body_events (SBool false) evs))).
Proof.
  intros Hrun.
  destruct (feed_input_counts evs (handler_init fname) h) as (Hs & Hc);
    try reflexivity; [exact Hrun|].
  change (st (handler_init fname) "array") with (SBool false) in Hs, Hc.
  rewrite Hs, Hc. repeat split.
  - apply closes_with_flag_le.
  - apply closes_with_flag_not_nested.
  - apply closes_with_flag_le.
  - apply closes_with_flag_not_nested.
Qed.

End Counts.

Lemma structures_and_ionic_steps_counted_witness :
  let h := result_or (handler_init "")
             (@Vasprun _ dec_float run_dir_with_incar "/run/vasprun.xml" ex_run) in
  length (structures h) = 2%nat ∧ length (ionic_steps h) = 1%nat.
Proof.
  intros h.
  destruct (@structures_and_ionic_steps_counted _ dec_float run_dir_with_incar
              "/run/vasprun.xml" ex_run h) as ((_ & Hs) & (_ & Hc)).
  - apply ok_result_or. vm_compute; reflexivity.
  - rewrite Hs, Hc by (vm_compute; reflexivity). split; vm_compute; reflexivity.
Defined.

(** A run with an initial structure and one calculation section records
    two structures, one more than the calculation sections it closes. *)
Lemma structures_outnumber_calculations :
  (fun h => length (structures h))
    <$> @Vasprun _ dec_float run_dir_with_incar "/run/vasprun.xml" ex_run = Ok 2%nat
  ∧ sections_closed "calculation" ex_run = 1%nat
  ∧ sections_closed "calculation" (body_events (SBool false) ex_run) = 1%nat.
Proof. repeat split; vm_compute; reflexivity. Qed.

(** Of two structure sections that lie one inside the other, only the
    inner one is recorded: the close of the inner section clears the flag
    that the close of the outer one looks at. *)
Lemma nested_structures_record_one :
  (fun h => length (structures h))
    <$> @Vasprun _ dec_float run_dir_with_incar "/run/vasprun.xml" ex_nested_structures
  = Ok 1%nat
  ∧ sections_closed "structure" (body_events (SBool false) ex_nested_structures) = 2%nat
  ∧ not_nested "structure" false (body_events (SBool false) ex_nested_structures) = false.
Proof. repeat split; vm_compute; reflexivity. Qed.

(** ** The close of a calculation section *)

Section CalculationClose.
Context {float : Type} `{!PyFloat float} `{!FileSystem}.
Local Abbreviation handler := (@handler float).

Lemma feed_app (evs1 evs2 : list event) (h : handler) :
  feed (evs1 ++ evs2) h = feed evs1 h ≫= feed evs2.
Proof.
  revert h. induction evs1 as [|ev rest IH]; intros h; simpl; [reflexivity|].
  destruct (handle ev h) as [h1|e]; simpl; [apply IH|reflexivity].
Qed.

(** What follows the block of the calculation leaves the close of
    [calculation] alone. *)
Lemma end_body_tail_calculation (h : handler) :
  (if read_structure h then end_structure "calculation" h
   else if read_dos h then end_dos "calculation" h
   else if read_eigen h then end_eigen "calculation" h
   else Ok h) = Ok h.
Proof.
  destruct (read_structure h); [reflexivity|].
  destruct (read_dos h); [reflexivity|].
  destruct (read_eigen h); reflexivity.
Qed.


(** The close of [calculation] with a structure, forces and a stress. *)
Lemma calculation_close_appends (h : handler) (data : list ElectronicStep)
    (s : Structure) (f t : matrix) :
  input_read h = true -> read_calculation h = true ->
  scdata h = Some data -> last (structures h) = Some s ->
  forces h = Some f -> stress h = Some t ->
  ∃ h', endElement "calculation" h = Ok h'
        ∧ ionic_steps h'
          = ionic_steps h ++ [{| electronic_steps := data; structure := s;
                                 step_forces := f; step_stress := t |}].
Proof.
  intros Hin Hrc Hdata Hs Hf Ht.
  set (step := {| electronic_steps := data; structure := s;
                  step_forces := f; step_stress := t |}).
  set (h1 := set_read_calculation false (set_ionic_steps (ionic_steps h ++ [step]) h)).
  assert (Hc : end_calculation "calculation" h = Ok h1).
  { unfold end_calculation, last_item. simpl. by rewrite Hdata, Hs, Hf, Ht. }
  exists (set_state (<["calculation" := SBool false]> (state h1)) h1).
  split; [|reflexivity].
  unfold endElement, end_body. rewrite Hin, Hrc. simpl. rewrite Hc.
  change (Ok h1 ≫= ?k) with (k h1). cbv beta.
  by rewrite end_body_tail_calculation.
Qed.





End CalculationClose.



(** ** The density of states *)

Lemma dict_of_is_dict {float : Type} (slot : dos_slot (float:=float)) :
  is_dict slot = true -> slot = DosDict (dict_of slot).
Proof. destruct slot; [reflexivity|discriminate]. Qed.

Section DensityOfStates.
Context {float : Type} `{!PyFloat float} `{!FileSystem}.
Local Abbreviation handler := (@handler float).

Lemma start_input_grid name attrs (h h' : handler) :
  start_input name attrs h = Ok h' -> grid h' = grid h.
Proof. unfold start_input. intros Hs. ok_inv; reflexivity. Qed.

Lemma start_section_grid name (h : handler) :
  grid (start_section name (start_in_structure name (start_in_calculation name h)))
  = grid h.
Proof.
  unfold start_section, start_in_structure, start_in_calculation.
  repeat case_match; reflexivity.
Qed.

Lemma start_eigen_dos_grid name attrs (h h' : handler) :
  start_eigen_dos name attrs h = Ok h' ->
  grid h' = grid h
  ∨ (name = "dos" ∧ dos_energies h' = None).
Proof.
  unfold start_eigen_dos, start_eigen_set, start_dos_set. intros Hs.
  ok_inv; name_facts; try (left; reflexivity); try (right; by split).
  all: left; repeat case_match; reflexivity.
Qed.

Lemma startElement_grid name attrs (h h' : handler) :
  startElement name attrs h = Ok h' ->
  dos_energies h' = dos_energies h
  ∨ (name = "dos" ∧ dos_energies h' = None).
Proof.
  unfold startElement. intros Hs.
  apply bind_ok in Hs. destruct Hs as (h1 & Hbr & Hs).
  assert (Hh' : dos_energies h' = dos_energies h1) by (ok_inv; reflexivity).
  rewrite Hh'. clear Hs Hh'.
  change (negb (input_read _)) with (negb (input_read h)) in Hbr.
  destruct (input_read h); simpl in Hbr.
  - unfold start_body in Hbr.
    destruct (start_eigen_dos_grid _ _ _ _ Hbr) as [Hg | (-> & Hg)].
    + left. rewrite start_section_grid in Hg. by injection Hg.
    + right. by split.
  - left. apply start_input_grid in Hbr. by injection Hbr.
Qed.

Lemma characters_grid data (h h' : handler) :
  characters data h = Ok h' -> dos_energies h' = dos_energies h.
Proof. unfold characters. intros Hs. ok_inv; reflexivity. Qed.

Lemma end_input_grid name (h h' : handler) :
  end_input name h = Ok h' -> grid h' = grid h.
Proof.
  unfold end_input, end_input_i, end_input_set, end_input_c, end_input_v,
    end_input_kpoints.
  intros Hs. ok_inv; try reflexivity.
  all: repeat case_match; reflexivity.
Qed.

Lemma end_calculation_grid name (h h' : handler) :
  end_calculation name h = Ok h' -> grid h' = grid h.
Proof. unfold end_calculation. intros Hs. ok_inv; reflexivity. Qed.

Lemma end_structure_grid name (h h' : handler) :
  end_structure name h = Ok h' -> grid h' = grid h.
Proof. unfold end_structure. intros Hs. ok_inv; reflexivity. Qed.

Lemma end_eigen_grid name (h h' : handler) :
  end_eigen name h = Ok h' -> grid h' = grid h.
Proof. unfold end_eigen. intros Hs. ok_inv; reflexivity. Qed.

Lemma end_dos_grid name (h h' : handler) :
  end_dos name h = Ok h' ->
  dos_energies h' = dos_energies h
  ∨ (name = "set" ∧ dos_energies h' = Some (dos_energies_val h)).
Proof.
  unfold end_dos, end_dos_total_row, end_dos_total_set, end_dos_partial_set,
    end_dos_partial.
  intros Hs. ok_inv; name_facts; try (left; reflexivity).
  right. by split.
Qed.

Lemma endElement_grid name (h h' : handler) :
  endElement name h = Ok h' ->
  dos_energies h' = dos_energies h
  ∨ (name = "set" ∧ dos_energies h' = Some (dos_energies_val h)).
Proof.
  unfold endElement. intros Hs.
  apply bind_ok in Hs. destruct Hs as (h1 & Hbr & Hs).
  assert (Hh' : dos_energies h' = dos_energies h1) by (ok_inv; reflexivity).
  rewrite Hh'. clear Hs Hh'.
  destruct (input_read h); simpl in Hbr.
  - unfold end_body in Hbr. apply bind_ok in Hbr. destruct Hbr as (h0 & Hcalc & Hrest).
    assert (Hg0 : grid h0 = grid h).
    { destruct (read_calculation h); [by eapply end_calculation_grid|].
      by injection Hcalc as <-. }
    injection Hg0 as G1 G2. rewrite <- G1, <- G2.
    destruct (read_structure h0).
    { left. apply end_structure_grid in Hrest. by injection Hrest. }
    destruct (read_dos h0); [by eapply end_dos_grid|].
    destruct (read_eigen h0).
    { left. apply end_eigen_grid in Hrest. by injection Hrest. }
    left. by injection Hrest as <-.
  - left. apply end_input_grid in Hbr. by injection Hbr.
Qed.

(** The block of the calculation leaves these closes alone. *)
Lemma end_calculation_skips (name : string) (h : handler) :
  name = "set" ∨ name = "total" ∨ name = "partial" ∨ name = "r" ->
  (if read_calculation h then end_calculation name h else Ok h) = Ok h.
Proof.
  intros [-> | [-> | [-> | ->]]]; destruct (read_calculation h); reflexivity.
Qed.

(** The close of a spin set of the total DOS: the densities accumulated
    from the second column go under the spin key of [tdos] and of [idos]
    alike, the energy column becomes the grid, and the three columns are
    cleared.  The column accumulated from the third field is dropped. *)
Lemma total_spin_set_close (h : handler) (dt di : gmap Spin (list float)) :
  input_read h = true -> read_structure h = false -> read_dos h = true ->
  truthy (st h "total") = true ->
  startswith (str_sval (st h "set")) "spin" = true ->
  tdos h = DosDict dt -> idos h = DosDict di ->
  ∃ h', endElement "set" h = Ok h'
        ∧ tdos h' = DosDict (<[spin_of_set h := dos_val h]> dt)
        ∧ idos h' = DosDict (<[spin_of_set h := dos_val h]> di)
        ∧ dos_energies h' = Some (dos_energies_val h)
        ∧ dos_energies_val h' = [] ∧ dos_val h' = [] ∧ idos_val h' = [].
Proof.
  intros Hin Hrs Hrd Htot Hset Ht Hi.
  unfold endElement, end_body. rewrite Hin. simpl.
  rewrite end_calculation_skips by auto. simpl.
  rewrite Hrs, Hrd. unfold end_dos. simpl. rewrite Htot, Hset. simpl.
  unfold end_dos_total_set. rewrite Ht, Hi. simpl.
  eexists. split; [reflexivity|]. simpl. by repeat split.
Qed.

(** The close of [total]: [Dos(...)] takes the grid as it stands. *)
Lemma total_close (h : handler) :
  input_read h = true -> read_structure h = false -> read_dos h = true ->
  ∃ h', endElement "total" h = Ok h'
        ∧ tdos h' = DosObj (efermi h) (dos_energies h) (tdos h)
        ∧ idos h' = DosObj (efermi h) (dos_energies h) (idos h)
        ∧ dos_energies h' = dos_energies h.
Proof.
  intros Hin Hrs Hrd.
  unfold endElement, end_body. rewrite Hin. simpl.
  rewrite end_calculation_skips by auto. simpl.
  rewrite Hrs, Hrd. unfold end_dos. simpl.
  eexists. split; [reflexivity|]. simpl. by repeat split.
Qed.

Lemma mapM_res_Forall {A B} (f : A -> res B) (P : B -> Prop) (l : list A) (r : list B) :
  (∀ x y, f x = Ok y -> P y) -> mapM_res f l = Ok r -> Forall P r.
Proof.
  intros Hf. revert r. induction l as [|x l IH]; simpl; intros r Hr.
  - injection Hr as <-. constructor.
  - ok_inv. constructor; eauto.
Qed.

Lemma make_pdos_grid (h : handler) (iatom : Z) (iorbital : nat) (p : PDos) :
  make_pdos h iatom iorbital = Ok p -> pdos_grid p = dos_energies h.
Proof. unfold make_pdos. intros Hs. ok_inv; reflexivity. Qed.

(** The close of [partial]: every [PDos] takes the grid as it stands. *)
Lemma partial_close (h h' : handler) :
  input_read h = true -> read_structure h = false -> read_dos h = true ->
  endElement "partial" h = Ok h' ->
  ∃ l, pdos h' = PdosList l
       ∧ Forall (Forall (fun p => pdos_grid p = dos_energies h)) l
       ∧ dos_energies h' = dos_energies h.
Proof.
  intros Hin Hrs Hrd.
  unfold endElement, end_body. rewrite Hin. simpl.
  rewrite end_calculation_skips by auto. simpl.
  rewrite Hrs, Hrd. unfold end_dos. simpl. unfold end_dos_partial.
  intros Hs. ok_inv. simpl. eexists. split; [reflexivity|]. split; [|reflexivity].
  eapply mapM_res_Forall; [|eassumption].
  intros iatom row Hrow. simpl in Hrow. ok_inv.
  eapply mapM_res_Forall; [|eassumption].
  intros iorbital p. apply make_pdos_grid.
Qed.

Lemma spin_is_not_ion (c : string) :
  startswith c "spin" = true -> startswith c "ion" = false ∧ c ≠ "".
Proof.
  unfold startswith. intros Hc.
  destruct c as [|a c]; [vm_compute in Hc; discriminate|].
  change (String.prefix "spin" (String a c))
    with (if ascii_dec "s" a then String.prefix "pin" c else false) in Hc.
  destruct (ascii_dec "s" a) as [<-|]; [|discriminate].
  split; [reflexivity|discriminate].
Qed.

Lemma dos_row_start (h : handler) (c : string) :
  input_read h = true -> read_structure h = false -> read_eigen h = false ->
  read_dos h = true -> st h "set" = SStr c -> c ≠ "" ->
  ∃ h1, startElement "r" ∅ h = Ok h1
        ∧ val h1 = Some "" ∧ read_val h1 = Some true
        ∧ dos_context h1 = dos_context h ∧ st h1 "set" = SStr c
        ∧ dos_columns h1 = dos_columns h ∧ dos_store h1 = dos_store h
        ∧ posstr h1 = posstr h.
Proof.
  intros Hin Hrs Hre Hrd Hset Hc.
  assert (Hst : ∀ v tag, tag ≠ "r" ->
            default (SBool false) ((<["r" := v]> (state h)) !! tag) = st h tag).
  { intros v tag Hne. unfold st. by rewrite lookup_insert_ne. }
  unfold startElement, start_body, start_in_calculation, start_in_structure,
    start_section, start_eigen_dos.
  destruct (read_calculation h) eqn:Hrc;
    repeat (simpl; rewrite ?Hin, ?Hrc, ?Hrs, ?Hre, ?Hrd);
    unfold st; simpl; rewrite !Hst by done; rewrite Hset; simpl;
    (destruct c as [|x c]; [done|]); simpl;
    (eexists; split; [reflexivity|]); unfold dos_context, st; simpl;
    rewrite !Hst by done; rewrite ?Hrc, ?Hset; by repeat split.
Qed.

Lemma dos_row_text (text v : string) (h : handler) :
  read_val h = Some true -> val h = Some v -> text_accepted h ->
  ∃ h1, characters text h = Ok h1
        ∧ val h1 = Some (v +:+ text)
        ∧ dos_context h1 = dos_context h ∧ st h1 "set" = st h "set"
        ∧ dos_columns h1 = dos_columns h ∧ dos_store h1 = dos_store h
        ∧ text_accepted h1.
Proof.
  intros Hrv Hv [Hl Hp]. unfold characters, text_accepted.
  repeat (simpl; rewrite ?Hrv, ?Hv, ?Hl).
  destruct (read_positions h) eqn:Hrp.
  - destruct Hp as [Hp | [t Ht]]; [discriminate|].
    repeat (simpl; rewrite ?Hrp, ?Ht).
    eexists. split; [reflexivity|]. unfold dos_context, st. simpl.
    rewrite Hrp, Hl. repeat split; eauto.
  - simpl. eexists. split; [reflexivity|]. unfold dos_context, st. simpl.
    rewrite Hrp, Hl. repeat split; eauto.
Qed.

Lemma dos_row_end (h : handler) (c v : string) (row : float * float * float) :
  input_read h = true -> read_structure h = false -> read_dos h = true ->
  truthy (st h "total") = true ->
  st h "set" = SStr c -> startswith c "spin" = true ->
  val h = Some v -> total_row v = Ok row ->
  ∃ h1, endElement "r" h = Ok h1
        ∧ dos_context h1 = dos_context h ∧ st h1 "set" = SStr c
        ∧ dos_columns h1
          = (dos_energies_val h ++ [row_energy row], dos_val h ++ [row_density row],
             idos_val h ++ [row_integral row])
        ∧ dos_store h1 = dos_store h ∧ posstr h1 = posstr h.
Proof.
  intros Hin Hrs Hrd Htot Hset Hc Hv Hrow.
  unfold total_row in Hrow. ok_inv.
  unfold endElement, end_body. rewrite Hin. simpl.
  rewrite end_calculation_skips by auto. simpl.
  rewrite Hrs, Hrd. unfold end_dos. simpl. rewrite Htot, Hset. simpl. rewrite Hc. simpl.
  unfold end_dos_total_row, getvalue. rewrite Hv. simpl.
  repeat match goal with E : _ = Ok _ |- _ => rewrite E; simpl end.
  eexists. split; [reflexivity|]. unfold dos_context, st. simpl.
  rewrite !lookup_insert_ne by done. fold (st h "set"). rewrite Hset.
  by repeat split.
Qed.

(** A whole row. *)
Lemma dos_row (h : handler) (c text : string) (row : float * float * float) :
  input_read h = true -> read_structure h = false -> read_eigen h = false ->
  read_dos h = true -> truthy (st h "total") = true ->
  st h "set" = SStr c -> startswith c "spin" = true ->
  text_accepted h -> total_row text = Ok row ->
  ∃ h1, feed (leaf "r" text) h = Ok h1
        ∧ dos_context h1 = dos_context h ∧ st h1 "set" = SStr c
        ∧ dos_columns h1
          = (dos_energies_val h ++ [row_energy row], dos_val h ++ [row_density row],
             idos_val h ++ [row_integral row])
        ∧ dos_store h1 = dos_store h ∧ text_accepted h1.
Proof.
  intros Hin Hrs Hre Hrd Htot Hset Hc Hacc Hrow.
  destruct (spin_is_not_ion c Hc) as [_ Hne].
  destruct (dos_row_start h c Hin Hrs Hre Hrd Hset Hne)
    as (h1 & H1 & Hv1 & Hrv1 & C1 & S1 & K1 & T1 & P1).
  pose proof C1 as C1'. unfold dos_context in C1'.
  injection C1' as E1 E2 E3 E4 E5 E6 E7 E8 E9.
  assert (Hacc1 : text_accepted h1).
  { unfold text_accepted in *. rewrite E6, E7, P1. exact Hacc. }
  destruct (dos_row_text text "" h1 Hrv1 Hv1 Hacc1)
    as (h2 & H2 & Hv2 & C2 & S2 & K2 & T2 & Hacc2).
  pose proof C2 as C2'. unfold dos_context in C2'.
  injection C2' as F1 F2 F3 F4 F5 F6 F7 F8 F9.
  assert (Hv2' : val h2 = Some text) by exact Hv2.
  destruct (dos_row_end h2 c text row ltac:(congruence) ltac:(congruence)
              ltac:(congruence) ltac:(congruence) ltac:(congruence) Hc Hv2' Hrow)
    as (h3 & H3 & C3 & S3 & K3 & T3 & P3).
  exists h3. split.
  - unfold leaf, elem. simpl. rewrite H1. simpl. rewrite H2. simpl. by rewrite H3.
  - split; [congruence|]. split; [exact S3|]. split.
    + rewrite K3. unfold dos_columns in K1, K2.
      injection K2 as -> -> ->. injection K1 as -> -> ->. reflexivity.
    + split; [congruence|].
      unfold text_accepted in *. unfold dos_context in C3.
      injection C3 as _ _ _ _ _ G6 G7 _ _. rewrite G6, G7, P3. exact Hacc2.
Qed.

(** The rows of a set, one after the other. *)
Lemma dos_rows (c : string) (texts : list string) (rows : list (float * float * float)) :
  startswith c "spin" = true ->
  Forall2 (fun text row => total_row text = Ok row) texts rows ->
  ∀ h : handler,
    input_read h = true -> read_structure h = false -> read_eigen h = false ->
    read_dos h = true -> truthy (st h "total") = true ->
    st h "set" = SStr c -> text_accepted h ->
    ∃ h1, feed (concat (map (leaf "r") texts)) h = Ok h1
          ∧ dos_context h1 = dos_context h ∧ st h1 "set" = SStr c
          ∧ dos_columns h1
            = (dos_energies_val h ++ map row_energy rows,
               dos_val h ++ map row_density rows,
               idos_val h ++ map row_integral rows)
          ∧ dos_store h1 = dos_store h ∧ text_accepted h1.
Proof.
  intros Hc. induction 1 as [|text row texts rows Hrow _ IH];
    intros h Hin Hrs Hre Hrd Htot Hset Hacc.
  - exists h. simpl. by rewrite !app_nil_r.
  - destruct (dos_row h c text row Hin Hrs Hre Hrd Htot Hset Hc Hacc Hrow)
      as (h1 & H1 & C1 & S1 & K1 & T1 & A1).
    pose proof C1 as C1'. unfold dos_context in C1'.
    injection C1' as E1 E2 E3 E4 E5 E6 E7 E8 E9.
    destruct (IH h1) as (h2 & H2 & C2 & S2 & K2 & T2 & A2); try congruence.
    exists h2. split.
    + change (concat (map (leaf "r") (text :: texts)))
        with (leaf "r" text ++ concat (map (leaf "r") texts)).
      by rewrite feed_app, H1.
    + split; [congruence|]. split; [exact S2|]. split; [|split; [congruence|exact A2]].
      rewrite K2. unfold dos_columns in K1. injection K1 as -> -> ->.
      simpl. by rewrite <- !app_assoc.
Qed.

(** The start of a spin set. *)
Lemma dos_set_start (h : handler) (c : string) :
  input_read h = true -> read_structure h = false -> read_eigen h = false ->
  read_dos h = true -> startswith c "spin" = true ->
  ∃ h1, startElement "set" {["comment" := c]} h = Ok h1
        ∧ dos_context h1 = dos_context h ∧ st h1 "set" = SStr c
        ∧ dos_columns h1 = dos_columns h ∧ dos_store h1 = dos_store h
        ∧ posstr h1 = posstr h.
Proof.
  intros Hin Hrs Hre Hrd Hc.
  destruct (spin_is_not_ion c Hc) as [Hion _].
  unfold startElement, start_body, start_in_calculation, start_in_structure,
    start_section, start_eigen_dos, start_dos_set.
  destruct (read_calculation h) eqn:Hrc;
    repeat (simpl; rewrite ?Hin, ?Hrc, ?Hrs, ?Hre, ?Hrd);
    rewrite lookup_singleton_eq; simpl;
    rewrite ?lookup_singleton_ne by done; simpl;
    rewrite Hion, Hc;
    match goal with
    | |- context [if truthy ?t then _ else _] => destruct (truthy t)
    end; simpl;
    (eexists; split; [reflexivity|]); unfold dos_context, st; simpl;
    rewrite lookup_insert_eq, ?Hrc; rewrite !lookup_insert_ne by done;
    by repeat split.
Qed.

(** The close of a spin set. *)
Lemma dos_set_end (h : handler) (c : string) (dt di : gmap Spin (list float)) :
  input_read h = true -> read_structure h = false -> read_dos h = true ->
  truthy (st h "total") = true ->
  st h "set" = SStr c -> startswith c "spin" = true ->
  tdos h = DosDict dt -> idos h = DosDict di ->
  ∃ h1, endElement "set" h = Ok h1
        ∧ dos_context h1 = dos_context h ∧ st h1 "set" = SBool false
        ∧ dos_columns h1 = ([], [], [])
        ∧ dos_store h1
          = (Some (dos_energies_val h),
             DosDict (<[spin_of_comment c := dos_val h]> dt),
             DosDict (<[spin_of_comment c := dos_val h]> di))
        ∧ posstr h1 = posstr h.
Proof.
  intros Hin Hrs Hrd Htot Hset Hc Ht Hi.
  unfold endElement, end_body. rewrite Hin. simpl.
  rewrite end_calculation_skips by auto. simpl.
  rewrite Hrs, Hrd. unfold end_dos. simpl. rewrite Htot, Hset. simpl. rewrite Hc. simpl.
  unfold end_dos_total_set, spin_of_set. rewrite Ht, Hi, Hset. simpl.
  eexists. split; [reflexivity|]. unfold dos_context, st. simpl.
  rewrite lookup_insert_eq. rewrite !lookup_insert_ne by done.
  by repeat split.
Qed.

(** One spin set of rows. *)
Lemma dos_spin_set (h : handler) (c : string) (texts : list string)
    (rows : list (float * float * float)) :
  between_sets h -> startswith c "spin" = true ->
  Forall2 (fun text row => total_row text = Ok row) texts rows ->
  ∃ h1, feed (ex_spin_set c texts) h = Ok h1
        ∧ between_sets h1 ∧ dos_context h1 = dos_context h
        ∧ st h1 "set" = SBool false
        ∧ dos_store h1
          = (Some (map row_energy rows),
             DosDict (<[spin_of_comment c := map row_density rows]> (dict_of (tdos h))),
             DosDict (<[spin_of_comment c := map row_density rows]> (dict_of (idos h)))).
Proof.
  intros (Hin & Hrs & Hre & Hrd & Htot & Hacc & Ht & Hi & Hcols) Hc Hrows.
  apply dict_of_is_dict in Ht, Hi.
  destruct (dos_set_start h c Hin Hrs Hre Hrd Hc) as (h1 & H1 & C1 & S1 & K1 & T1 & P1).
  pose proof C1 as C1'. unfold dos_context in C1'.
  injection C1' as E1 E2 E3 E4 E5 E6 E7 E8 E9.
  assert (A1 : text_accepted h1).
  { unfold text_accepted in *. rewrite E6, E7, P1. exact Hacc. }
  destruct (dos_rows c texts rows Hc Hrows h1) as (h2 & H2 & C2 & S2 & K2 & T2 & A2);
    try congruence.
  pose proof C2 as C2'. unfold dos_context in C2'.
  injection C2' as F1 F2 F3 F4 F5 F6 F7 F8 F9.
  unfold dos_columns in K1, K2, Hcols. rewrite Hcols in K1.
  injection K1 as K1a K1b K1c. rewrite K1a, K1b, K1c in K2. simpl in K2.
  injection K2 as K2a K2b K2c.
  unfold dos_store in T1, T2. rewrite T1 in T2. injection T2 as T2a T2b T2c.
  destruct (dos_set_end h2 c (dict_of (tdos h)) (dict_of (idos h)))
    as (h3 & H3 & C3 & S3 & K3 & T3 & P3); try congruence.
  pose proof C3 as C3'. unfold dos_context in C3'.
  injection C3' as G1 G2 G3 G4 G5 G6 G7 G8 G9.
  pose proof T3 as T3'. unfold dos_store in T3'. injection T3' as T3a T3b T3c.
  exists h3. split; [|split; [|split; [|split]]].
  - unfold ex_spin_set, ex_spin_set_open. simpl. rewrite H1. simpl.
    rewrite feed_app, H2. simpl. by rewrite H3.
  - assert (A3 : text_accepted h3).
    { unfold text_accepted in *. rewrite G6, G7, P3. exact A2. }
    unfold between_sets. rewrite T3b, T3c.
    split; [congruence|]. split; [congruence|]. split; [congruence|].
    split; [congruence|]. split; [congruence|]. split; [exact A3|].
    split; [reflexivity|]. split; [reflexivity|]. exact K3.
  - congruence.
  - exact S3.
  - rewrite T3, K2a, K2b. reflexivity.
Qed.

(** Spin sets of rows, one after the other. *)
Lemma dos_spin_sets (sets : list (string * list string))
    (cols : list (list (float * float * float))) :
  Forall2 (fun s col => startswith s.1 "spin" = true
                        ∧ Forall2 (fun text row => total_row text = Ok row) s.2 col)
          sets cols ->
  ∀ h : handler, between_sets h ->
    ∃ h1, feed (spin_sets sets) h = Ok h1
          ∧ between_sets h1 ∧ dos_context h1 = dos_context h.
Proof.
  induction 1 as [|[c texts] rows sets cols [Hc Hrows] _ IH]; intros h Hb.
  - exists h. split; [reflexivity|]. split; [exact Hb|reflexivity].
  - simpl in Hc, Hrows.
    destruct (dos_spin_set h c texts rows Hb Hc Hrows) as (h1 & H1 & B1 & C1 & _).
    destruct (IH h1 B1) as (h2 & H2 & B2 & C2).
    exists h2. split; [|split; [exact B2|congruence]].
    change (spin_sets ((c, texts) :: sets))
      with (ex_spin_set c texts ++ spin_sets sets).
    by rewrite feed_app, H1.
Qed.

(** The closes that follow the spin sets of the total part: those of the
    enclosing [set] and of the [array] pass. *)
Lemma dos_close_passes (name : string) (h : handler) :
  name = "array" ∨ (name = "set" ∧ st h "set" = SBool false) ->
  input_read h = true -> read_structure h = false -> read_dos h = true ->
  ∃ h1, endElement name h = Ok h1
        ∧ input_read h1 = true ∧ read_structure h1 = false ∧ read_dos h1 = true
        ∧ efermi h1 = efermi h ∧ dos_store h1 = dos_store h.
Proof.
  intros Hname Hin Hrs Hrd.
  unfold endElement, end_body. rewrite Hin. simpl.
  destruct Hname as [-> | [-> Hset]].
  - assert (Hc : (if read_calculation h then end_calculation "array" h else Ok h) = Ok h)
      by (destruct (read_calculation h); reflexivity).
    rewrite Hc. simpl. rewrite Hrs, Hrd. unfold end_dos. simpl.
    eexists. split; [reflexivity|]. by repeat split.
  - rewrite end_calculation_skips by auto. simpl.
    rewrite Hrs, Hrd. unfold end_dos. simpl. rewrite Hset. simpl.
    rewrite !andb_false_r. simpl.
    eexists. split; [reflexivity|]. by repeat split.
Qed.

(** The accumulator of the energy column at a start event and at text. *)
Lemma start_eigen_dos_column name attrs (h h' : handler) :
  start_eigen_dos name attrs h = Ok h' -> dos_energies_val h' = dos_energies_val h.
Proof.
  unfold start_eigen_dos, start_eigen_set, start_dos_set. intros Hs.
  ok_inv; try reflexivity.
  all: repeat case_match; reflexivity.
Qed.

Lemma startElement_column name attrs (h h' : handler) :
  startElement name attrs h = Ok h' -> dos_energies_val h' = dos_energies_val h.
Proof.
  unfold startElement. intros Hs.
  apply bind_ok in Hs. destruct Hs as (h1 & Hbr & Hs).
  assert (Hh' : dos_energies_val h' = dos_energies_val h1) by (ok_inv; reflexivity).
  rewrite Hh'. clear Hs Hh'.
  change (negb (input_read _)) with (negb (input_read h)) in Hbr.
  destruct (input_read h); simpl in Hbr.
  - unfold start_body in Hbr. apply start_eigen_dos_column in Hbr. rewrite Hbr.
    pose proof (start_section_grid name
                  (set_read_val (Some false)
                     (set_state (<[name := match attrs !! "name" with
                                           | None => SBool true
                                           | Some a => SStr a
                                           end]> (state h)) h))) as Hg.
    by injection Hg.
  - apply start_input_grid in Hbr. by injection Hbr.
Qed.

Lemma characters_column data (h h' : handler) :
  characters data h = Ok h' -> dos_energies_val h' = dos_energies_val h.
Proof. unfold characters. intros Hs. ok_inv; reflexivity. Qed.

(** The accumulator at the close of an element of the DOS: the close of
    a row of the total part appends the first number of the row, the
    close of a spin set of the total part hands the column over to the
    grid and starts an empty one. *)
Lemma end_dos_column name (h h' : handler) :
  end_dos name h = Ok h' ->
  dos_energies_val h' = dos_energies_val h
  ∨ (name = "r"
     ∧ ∃ v row, val h = Some v ∧ total_row v = Ok row
                ∧ dos_energies_val h' = dos_energies_val h ++ [row_energy row])
  ∨ (name = "set" ∧ dos_energies h' = Some (dos_energies_val h)
     ∧ dos_energies_val h' = []).
Proof.
  unfold end_dos, end_dos_total_row, end_dos_total_set, end_dos_partial_set,
    end_dos_partial, getvalue.
  intros Hs. ok_inv; name_facts; try (left; reflexivity).
  - right. left. split; [reflexivity|].
    eexists _, (_, _, _). split; [eassumption|]. split; [|reflexivity].
    unfold total_row.
    repeat match goal with E : _ = Ok _ |- _ => rewrite E; clear E; simpl end.
    reflexivity.
  - right. right. by repeat split.
Qed.

Lemma endElement_column name (h h' : handler) :
  endElement name h = Ok h' ->
  dos_energies_val h' = dos_energies_val h
  ∨ (name = "r"
     ∧ ∃ v row, val h = Some v ∧ total_row v = Ok row
                ∧ dos_energies_val h' = dos_energies_val h ++ [row_energy row])
  ∨ (name = "set" ∧ dos_energies h' = Some (dos_energies_val h)
     ∧ dos_energies_val h' = []).
Proof.
  unfold endElement. intros Hs.
  apply bind_ok in Hs. destruct Hs as (h1 & Hbr & Hs).
  assert (Hh' : grid h' = grid h1) by (ok_inv; reflexivity).
  injection Hh' as -> ->. clear Hs.
  destruct (input_read h); simpl in Hbr.
  - unfold end_body in Hbr. apply bind_ok in Hbr. destruct Hbr as (h0 & Hcalc & Hrest).
    assert (Hg0 : grid h0 = grid h).
    { destruct (read_calculation h); [by eapply end_calculation_grid|].
      by injection Hcalc as <-. }
    injection Hg0 as _ G2. rewrite <- G2.
    destruct (read_structure h0).
    { left. apply end_structure_grid in Hrest. by injection Hrest. }
    destruct (read_dos h0).
    { destruct (end_dos_column _ _ _ Hrest) as [Hc | [(-> & Hc) | Hc]];
        [by left| |by right; right].
      rewrite end_calculation_skips in Hcalc by auto. injection Hcalc as <-.
      right. by left. }
    destruct (read_eigen h0).
    { left. apply end_eigen_grid in Hrest. by injection Hrest. }
    left. by injection Hrest as <-.
  - left. apply end_input_grid in Hbr. by injection Hbr.
Qed.

(** C10 (amended).  At an event the energy grid stays as it is, or, at
    the close of a [set], becomes the column accumulated, whatever grid
    was there, or, at the start of [dos], is cleared.  The column
    accumulated stays as it is, or, at the close of a row [r] whose text
    reads as three numbers, gets the first of them appended, or, at the
    close of a [set] that makes it the grid, becomes empty.  Where the
    total part is made of spin sets that hold rows only, read from empty
    columns, the grid after them is the energy column of the spin set
    closed last, not of the first; the densities of that set are stored
    under its spin, and the closes of the enclosing [set], of the [array]
    and of [total] attach that grid to the total and to the integrated
    DOS.  The close of [total] attaches the grid of that moment, whatever
    it is, the close of [partial] attaches it to every projected DOS. *)
Theorem energy_grid_is_last_spin_set (h : handler)
    (sets : list (string * list string)) (cols : list (list (float * float * float)))
    (c : string) (texts : list string) (rows : list (float * float * float)) :
  (∀ ev h', handle ev h = Ok h' ->
     (dos_energies h' = dos_energies h
      ∨ (ev = EndElement "set" ∧ dos_energies h' = Some (dos_energies_val h))
      ∨ (∃ attributes, ev = StartElement "dos" attributes ∧ dos_energies h' = None))
     ∧ (dos_energies_val h' = dos_energies_val h
        ∨ (ev = EndElement "r"
           ∧ ∃ v row, val h = Some v ∧ total_row v = Ok row
                      ∧ dos_energies_val h' = dos_energies_val h ++ [row_energy row])
        ∨ (ev = EndElement "set" ∧ dos_energies h' = Some (dos_energies_val h)
           ∧ dos_energies_val h' = [])))
  ∧ (between_sets h ->
     Forall2 (fun s col =>
                startswith s.1 "spin" = true
                ∧ Forall2 (fun text row => total_row text = Ok row) s.2 col)
             sets cols ->
     startswith c "spin" = true ->
     Forall2 (fun text row => total_row text = Ok row) texts rows ->
     ∃ h1 h2,
       feed (spin_sets (sets ++ [(c, texts)])) h = Ok h1
       ∧ dos_energies h1 = Some (map row_energy rows)
       ∧ dos_lookup (tdos h1) (spin_of_comment c) = Some (map row_density rows)
       ∧ feed [EndElement "set"; EndElement "array"; EndElement "total"] h1 = Ok h2
       ∧ dos_energies h2 = Some (map row_energy rows)
       ∧ dos_grid_of (tdos h2) = Some (map row_energy rows)
       ∧ dos_grid_of (idos h2) = Some (map row_energy rows))
  ∧ (input_read h = true -> read_structure h = false -> read_dos h = true ->
     (∃ h', endElement "total" h = Ok h'
            ∧ dos_grid_of (tdos h') = dos_energies h
            ∧ dos_grid_of (idos h') = dos_energies h
            ∧ dos_energies h' = dos_energies h)
     ∧ (∀ h', endElement "partial" h = Ok h' ->
          ∃ l, pdos h' = PdosList l
               ∧ Forall (Forall (fun p => pdos_grid p = dos_energies h)) l
               ∧ dos_energies h' = dos_energies h)).
Proof.
  split; [|split].
  - intros ev h' Hev. destruct ev as [name attrs | data | name]; simpl in Hev.
    + split.
      * destruct (startElement_grid _ _ _ _ Hev) as [Hg | (-> & Hg)]; [by left|].
        right. right. eauto.
      * left. by eapply startElement_column.
    + split; left; [by eapply characters_grid|by eapply characters_column].
    + split.
      * destruct (endElement_grid _ _ _ Hev) as [Hg | (-> & Hg)]; [by left|].
        right. left. by split.
      * destruct (endElement_column _ _ _ Hev) as [Hc | [(-> & Hc) | (-> & Hc)]];
          [by left|right; by left|right; by right].
  - intros Hb Hsets Hc Hrows.
    destruct (dos_spin_sets sets cols Hsets h Hb) as (h0 & H0 & B0 & _).
    destruct (dos_spin_set h0 c texts rows B0 Hc Hrows) as (h1 & H1 & B1 & _ & S1 & T1).
    unfold dos_store in T1. injection T1 as T1a T1b T1c.
    destruct B1 as (Hin & Hrs & _ & Hrd & _).
    destruct (dos_close_passes "set" h1) as (h2 & H2 & Hin2 & Hrs2 & Hrd2 & _ & T2);
      [by right|assumption..|].
    destruct (dos_close_passes "array" h2) as (h3 & H3 & Hin3 & Hrs3 & Hrd3 & _ & T3);
      [by left|assumption..|].
    destruct (total_close h3 Hin3 Hrs3 Hrd3) as (h4 & H4 & Ht4 & Hi4 & Hg4).
    unfold dos_store in T2, T3. rewrite T2 in T3. injection T3 as T3a T3b T3c.
    exists h1, h4. split; [|split; [|split; [|split; [|split; [|split]]]]].
    + unfold spin_sets. rewrite map_app, concat_app. simpl. rewrite app_nil_r.
      fold (spin_sets sets). by rewrite feed_app, H0.
    + exact T1a.
    + rewrite T1b. simpl. apply lookup_insert_eq.
    + simpl. rewrite H2. simpl. rewrite H3. simpl. by rewrite H4.
    + congruence.
    + rewrite Ht4. simpl. congruence.
    + rewrite Hi4. simpl. congruence.
  - intros Hin Hrs Hrd. split.
    + destruct (total_close h) as (h' & Hend & Ht & Hi & Hg); try assumption.
      exists h'. rewrite Ht, Hi. by repeat split.
    + intros h'. by apply partial_close.
Qed.

End DensityOfStates.

Lemma energy_grid_is_last_spin_set_witness :
  let h := result_or (handler_init "")
             (@Vasprun _ dec_float run_dir_with_incar "/run/vasprun.xml"
                (ex_open_run ++ ex_dos_open [])) in
  ∃ h1 h2,
    @feed _ dec_float run_dir_with_incar
      (spin_sets [("spin 1", [" 1.0 2.0 3.0 "]); ("spin 2", [" 9.0 2.0 3.0 "])]) h = Ok h1
    ∧ dos_energies h1 = Some [DecFloat.Dec 9 0]
    ∧ @feed _ dec_float run_dir_with_incar
        [EndElement "set"; EndElement "array"; EndElement "total"] h1 = Ok h2
    ∧ dos_grid_of (tdos h2) = Some [DecFloat.Dec 9 0]
    ∧ dos_grid_of (idos h2) = Some [DecFloat.Dec 9 0].
Proof.
  intros h.
  destruct (proj1 (proj2 (@energy_grid_is_last_spin_set _ dec_float run_dir_with_incar h
              [("spin 1", [" 1.0 2.0 3.0 "])]
              [[(DecFloat.Dec 1 0, DecFloat.Dec 2 0, DecFloat.Dec 3 0)]]
              "spin 2" [" 9.0 2.0 3.0 "]
              [(DecFloat.Dec 9 0, DecFloat.Dec 2 0, DecFloat.Dec 3 0)])))
    as (h1 & h2 & H1 & G1 & _ & H2 & _ & Gt & Gi).
  - unfold between_sets, text_accepted.
    repeat split; try (vm_compute; reflexivity). right. vm_compute. by eexists.
  - repeat constructor; vm_compute; reflexivity.
  - reflexivity.
  - repeat constructor; vm_compute; reflexivity.
  - exists h1, h2. by repeat split.
Defined.

(** With two spin sets whose energy columns are [1.0] and [9.0], the grid
    of the result, of the total DOS and of the integrated DOS is [9.0], the
    column of the set closed last, not [1.0], the column of the first. *)
Lemma energy_grid_is_not_first_spin_set :
  let r := @Vasprun _ dec_float run_dir_with_incar "/run/vasprun.xml"
             (ex_run_with_dos ex_two_spins) in
  dos_energies
    <$> @Vasprun _ dec_float run_dir_with_incar "/run/vasprun.xml"
          (ex_run ++ ex_dos_open (ex_spin_set "spin 1" [" 1.0 2.0 3.0 "]))
  = Ok (Some [DecFloat.Dec 1 0])
  ∧ dos_energies <$> r = Ok (Some [DecFloat.Dec 9 0])
  ∧ (fun h => dos_grid_of (tdos h)) <$> r = Ok (Some [DecFloat.Dec 9 0])
  ∧ (fun h => dos_grid_of (idos h)) <$> r = Ok (Some [DecFloat.Dec 9 0]).
Proof. repeat split; vm_compute; reflexivity. Qed.

(** A spin set whose close is not recognised leaves its rows in the
    column: with a set inside the first spin set, the close of the inner
    set clears the entry of [set], the close of the spin set passes, and
    the grid stored by the second spin set is [1.0; 9.0], the rows of
    both. *)
Lemma unclosed_spin_set_rows_stay :
  dos_energies
    <$> @Vasprun _ dec_float run_dir_with_incar "/run/vasprun.xml"
          (ex_run ++ ex_dos_open ex_unclosed_spin_set)
  = Ok (Some [DecFloat.Dec 1 0; DecFloat.Dec 9 0]).
Proof. vm_compute; reflexivity. Qed.

(** C1 (the code at a failing input).  A total DOS with one spin set whose
    rows are [1.0 2.0 3.0] and [1.5 4.0 7.0]: the vector stored for the
    spin channel in the integrated DOS is [2.0; 4.0], the second column,
    the same as in the total DOS; the third column [3.0; 7.0] is stored
    nowhere. *)
Theorem integrated_dos_holds_total_column :
  let r := @Vasprun _ dec_float run_dir_with_incar "/run/vasprun.xml"
             (ex_run_with_dos ex_one_spin) in
  (fun h => dos_lookup (tdos h) Spin_up) <$> r
  = Ok (Some [DecFloat.Dec 2 0; DecFloat.Dec 4 0])
  ∧ (fun h => dos_lookup (idos h) Spin_up) <$> r
    = Ok (Some [DecFloat.Dec 2 0; DecFloat.Dec 4 0])
  ∧ (fun h => dos_lookup (idos h) Spin_up) <$> r
    ≠ Ok (Some [DecFloat.Dec 3 0; DecFloat.Dec 7 0])
  ∧ dos_energies <$> r = Ok (Some [DecFloat.Dec 1 0; DecFloat.Dec 15 1]).
Proof.
  repeat split; try (vm_compute; reflexivity).
  vm_compute. discriminate.
Qed.

(** ** Encoding a table and decoding it again *)

Lemma re_split_from_cons (in_run : bool) (s : string) :
  ∃ t ts, re_split_from in_run s = t :: ts.
Proof.
  revert in_run. induction s as [|c r IH]; intros in_run; simpl; [eauto|].
  destruct (is_space c).
  - destruct in_run; [apply IH | eauto].
  - destruct (IH false) as (t & ts & ->). eauto.
Qed.

Lemma append_nil_l (s : string) : "" +:+ s = s.
Proof. reflexivity. Qed.

Lemma append_cons (c : ascii) (s t : string) : String c s +:+ t = String c (s +:+ t).
Proof. reflexivity. Qed.

Lemma append_empty_r (s : string) : s +:+ "" = s.
Proof. induction s as [|c s IH]; [reflexivity|]. by rewrite append_cons, IH. Qed.

Lemma re_split_token_app (t s : string) :
  all_chars (fun c => negb (is_space c)) t = true ->
  re_split_from false (t +:+ s)
  = match re_split_from false s with
    | u :: us => (t +:+ u) :: us
    | [] => [t]
    end.
Proof.
  induction t as [|c t IH]; intros Ht.
  - rewrite append_nil_l.
    destruct (re_split_from_cons false s) as (u & us & Hs). by rewrite Hs.
  - simpl in Ht. apply andb_prop in Ht. destruct Ht as [Hc Ht].
    apply negb_true_iff in Hc. rewrite append_cons. simpl. rewrite Hc, (IH Ht).
    destruct (re_split_from_cons false s) as (u & us & Hs). by rewrite Hs.
Qed.

Lemma re_split_run_token (t s : string) :
  is_token t = true ->
  re_split_from true (t +:+ s) = re_split_from false (t +:+ s).
Proof.
  unfold is_token. intros Ht. destruct t as [|c t]; [discriminate|].
  simpl in Ht. apply andb_prop in Ht. destruct Ht as [Hc _].
  apply negb_true_iff in Hc. rewrite append_cons. simpl. by rewrite Hc.
Qed.

Lemma join_head (t : string) (r : list string) :
  ∃ s, join " " (t :: r) = t +:+ s.
Proof.
  destruct r as [|u r]; simpl.
  - exists "". by rewrite append_empty_r.
  - eauto.
Qed.

(** Splitting at white space undoes joining tokens with one space. *)
Lemma re_split_join (toks : list string) :
  toks ≠ [] -> Forall (fun t => is_token t = true) toks ->
  re_split_ws (join " " toks) = toks.
Proof.
  unfold re_split_ws. induction toks as [|t r IH]; [done|].
  intros _ Htoks. inversion Htoks as [|? ? Ht Hr]; subst.
  assert (Hchars : all_chars (fun c => negb (is_space c)) t = true).
  { unfold is_token in Ht. by apply andb_prop in Ht as [_ ?]. }
  destruct r as [|u r].
  - simpl. rewrite <- (append_empty_r t) at 1.
    rewrite re_split_token_app by done. simpl. by rewrite append_empty_r.
  - change (join " " (t :: u :: r)) with (t +:+ String " " (join " " (u :: r))).
    rewrite re_split_token_app by done.
    change (re_split_from false (String " " (join " " (u :: r))))
      with ("" :: re_split_from true (join " " (u :: r))).
    destruct (join_head u r) as (s & Hs).
    inversion Hr as [|? ? Hu _]; subst.
    rewrite Hs, (re_split_run_token u s Hu), <- Hs, IH by done.
    by rewrite append_empty_r.
Qed.

Lemma lstrip_token (s : string) :
  all_chars (fun c => negb (is_space c)) s = true -> lstrip s = s.
Proof.
  destruct s as [|c r]; simpl; [done|]. intros H. apply andb_prop in H as [Hc _].
  apply negb_true_iff in Hc. by rewrite Hc.
Qed.

Lemma rstrip_token (s : string) :
  all_chars (fun c => negb (is_space c)) s = true -> rstrip s = s.
Proof.
  induction s as [|c r IH]; simpl; [done|]. intros H. apply andb_prop in H as [Hc Hr].
  apply negb_true_iff in Hc. rewrite (IH Hr), Hc. by destruct r.
Qed.

Lemma strip_token (s : string) :
  all_chars (fun c => negb (is_space c)) s = true -> strip s = s.
Proof. intros H. unfold strip. by rewrite (lstrip_token s H), rstrip_token. Qed.

(** The digits that [str] writes for a natural number. *)
Lemma string_of_uint_digits (d : Decimal.uint) :
  all_chars is_digit (NilEmpty.string_of_uint d) = true.
Proof. induction d; simpl; auto. Qed.

Lemma all_chars_impl (p q : ascii -> bool) (s : string) :
  (∀ c, p c = true -> q c = true) -> all_chars p s = true -> all_chars q s = true.
Proof.
  intros Hpq. induction s as [|c r IH]; simpl; [done|].
  intros H. apply andb_prop in H as [Hc Hr]. by rewrite (Hpq c Hc), (IH Hr).
Qed.

Lemma digit_not_space (c : ascii) : is_digit c = true -> negb (is_space c) = true.
Proof.
  unfold is_digit, is_space. intros H. apply andb_prop in H as [H1 H2].
  apply Nat.leb_le in H1. apply Nat.leb_le in H2.
  apply negb_true_iff, orb_false_iff. split.
  - apply Nat.eqb_neq. lia.
  - apply andb_false_iff. right. apply Nat.leb_gt. lia.
Qed.

Lemma digit_not_sign (c : ascii) (r : string) :
  all_chars is_digit (String c r) = true -> c ≠ "-"%char ∧ c ≠ "+"%char.
Proof.
  simpl. intros H. apply andb_prop in H as [Hc _].
  split; intros ->; discriminate.
Qed.

(** [int] on the digits of a positive number. *)
Lemma py_int_digits (p : positive) :
  py_int (NilEmpty.string_of_uint (Pos.to_uint p)) = Some (Z.pos p).
Proof.
  pose proof (string_of_uint_digits (Pos.to_uint p)) as Hd.
  pose proof (NilEmpty.usu (Pos.to_uint p)) as Hu.
  pose proof (DecimalPos.Unsigned.of_to p) as Hp.
  unfold py_int.
  rewrite strip_token by (eapply all_chars_impl; [apply digit_not_space|done]).
  destruct (NilEmpty.string_of_uint (Pos.to_uint p)) as [|c r] eqn:Hs.
  - destruct (Pos.to_uint p); discriminate.
  - destruct (digit_not_sign c r Hd) as [Hm Hplus].
    assert (Hbody : (match String c r with
                     | String "-"%char r0 => (true, r0)
                     | String "+"%char r0 => (false, r0)
                     | _ => (false, String c r)
                     end) = (false, String c r)).
    { destruct c as [[] [] [] [] [] [] [] []]; try reflexivity; congruence. }
    rewrite Hbody, Hu. unfold Z.of_uint. by rewrite Hp.
Qed.

Lemma string_of_uint_pos (p : positive) :
  NilZero.string_of_uint (Pos.to_uint p) = NilEmpty.string_of_uint (Pos.to_uint p).
Proof.
  unfold NilZero.string_of_uint. destruct (Pos.to_uint p) eqn:Hpu; try reflexivity.
  by destruct (DecimalPos.Unsigned.to_uint_nonnil p).
Qed.

(** [int(str(z))] is [z]. *)
Lemma py_int_str (z : Z) : py_int (py_str_int z) = Some z.
Proof.
  destruct z as [|p|p]; unfold py_str_int; simpl.
  - reflexivity.
  - rewrite string_of_uint_pos. apply py_int_digits.
  - rewrite string_of_uint_pos.
    pose proof (string_of_uint_digits (Pos.to_uint p)) as Hd.
    pose proof (py_int_digits p) as Hi. unfold py_int in *.
    assert (Hsp : all_chars (fun c => negb (is_space c))
                    (NilEmpty.string_of_uint (Pos.to_uint p)) = true)
      by (eapply all_chars_impl; [apply digit_not_space|done]).
    rewrite strip_token in Hi by done.
    rewrite strip_token by (simpl; by rewrite Hsp).
    destruct (NilEmpty.string_of_uint (Pos.to_uint p)) as [|c r] eqn:Hs; [discriminate|].
    destruct (digit_not_sign c r Hd) as [Hm Hplus].
    assert (Hbody : (match String c r with
                     | String "-"%char r0 => (true, r0)
                     | String "+"%char r0 => (false, r0)
                     | _ => (false, String c r)
                     end) = (false, String c r)).
    { destruct c as [[] [] [] [] [] [] [] []]; try reflexivity; congruence. }
    rewrite Hbody in Hi.
    destruct (NilEmpty.uint_of_string (String c r)) as [d|]; [|discriminate].
    injection Hi as Hi. by rewrite Hi.
Qed.

(** [str(z)] is one token. *)
Lemma py_str_int_token (z : Z) : is_token (py_str_int z) = true.
Proof.
  assert (Hpos : ∀ p, is_token (NilZero.string_of_uint (Pos.to_uint p)) = true).
  { intros p. rewrite string_of_uint_pos. unfold is_token.
    apply andb_true_intro. split.
    - destruct (NilEmpty.string_of_uint (Pos.to_uint p)) eqn:Hs; [|done].
      destruct (Pos.to_uint p) eqn:Hpu; try discriminate.
      by destruct (DecimalPos.Unsigned.to_uint_nonnil p).
    - eapply all_chars_impl; [apply digit_not_space|apply string_of_uint_digits]. }
  destruct z as [|p|p]; unfold py_str_int; simpl; [reflexivity|apply Hpos|].
  specialize (Hpos p). unfold is_token in *. apply andb_prop in Hpos as [_ H].
  simpl. exact H.
Qed.

Section RoundTrip.
Context {float : Type} `{!PyFloat float} `{!FileSystem}.
Local Abbreviation scalar := (@scalar float).
Local Abbreviation pyval := (@pyval float).

Lemma scalar_round_trip (a : scalar) :
  parse_parameters (declared_type a) (py_str a) = Ok (Scalar a) <-> scalar_survives a.
Proof.
  destruct a as [b|z|x|s]; unfold parse_parameters; simpl.
  - destruct b; simpl; split; congruence.
  - rewrite py_int_str. simpl. tauto.
  - destruct (float_of_string (str_of_float x)) as [y|]; simpl; split; congruence.
  - split; congruence.
Qed.

Lemma item_token (a : scalar) : item_survives a -> is_token (py_str a) = true.
Proof.
  destruct a as [b|z|x|s]; simpl.
  - by intros ->.
  - intros _. apply py_str_int_token.
  - by intros [_ ?].
  - done.
Qed.

Lemma items_round_trip (a : scalar) (l : list scalar) :
  Forall (fun b => same_kind a b = true ∧ item_survives b) l ->
  match a with
  | VBool _ => map (fun i => VBool (String.eqb i "T")) (map py_str l) = l
  | VInt _ => option_map (map VInt) (parse_all py_int (map py_str l)) = Some l
  | VFloat _ => option_map (map VFloat) (parse_all float_of_string (map py_str l)) = Some l
  | VStr _ => map VStr (map py_str l) = l
  end.
Proof.
  unfold parse_all.
  induction 1 as [|b l [Hk Hb] _ IH]; [by destruct a|].
  destruct a, b; try discriminate Hk; simpl in *.
  - rewrite Hb, IH. reflexivity.
  - rewrite py_int_str. simpl.
    destruct (mapM py_int (map py_str l)); simpl in *; congruence.
  - destruct Hb as [-> _]. simpl.
    destruct (mapM float_of_string (map py_str l)); simpl in *; congruence.
  - by rewrite IH.
Qed.

Lemma list_round_trip (filename key : string) (a : scalar) (l : list scalar) :
  Forall (fun b => same_kind a b = true ∧ item_survives b) (a :: l) ->
  parse_v_parameters (declared_type a) (join " " (map py_str (a :: l))) filename (Some key)
  = Ok (PList (a :: l)).
Proof.
  intros Hl. unfold parse_v_parameters.
  rewrite re_split_join.
  - pose proof (items_round_trip a (a :: l) Hl) as Hrt.
    remember (map py_str (a :: l)) as toks eqn:Htoks. clear Htoks.
    remember (a :: l) as items eqn:Hitems. clear Hitems Hl.
    destruct a as [b|z|x|s]; simpl.
    + by rewrite Hrt.
    + destruct (parse_all py_int toks); simpl in Hrt; congruence.
    + destruct (parse_all float_of_string toks); simpl in Hrt; congruence.
    + by rewrite Hrt.
  - done.
  - apply Forall_map. eapply Forall_impl; [exact Hl|].
    intros b [_ Hb]. by apply item_token.
Qed.

Lemma entry_round_trip (filename key : string) (v : pyval) :
  survives v -> decode_entry filename key v (get_string_value v) = Ok v.
Proof.
  destruct v as [a|[|a l]]; simpl.
  - apply scalar_round_trip.
  - done.
  - apply list_round_trip.
Qed.

End RoundTrip.

Section RoundTripTable.
Context {float : Type} `{!PyFloat float} `{!FileSystem}.
Local Abbreviation scalar := (@scalar float).
Local Abbreviation pyval := (@pyval float).

(** C9 (amended).  Writing a table with [Incar.get_string] and decoding
    the text of an entry under the type tag of its value gives the value
    back when the value survives: for a scalar that is so exactly when it
    is [False], an integer, a float that [float(str(x))] gives back, or
    text without white space at its ends; for a list it is so when the
    list is not empty, its items are of one kind, and each item is
    [False], an integer, a float given back by [float(str(x))] and written
    as one token, or text that is one token. *)
Theorem incar_text_round_trip (filename : string) :
  (∀ key (a : scalar),
     decode_entry filename key (Scalar a) (get_string_value (Scalar a)) = Ok (Scalar a)
     <-> scalar_survives a)
  ∧ (∀ (d : gmap string pyval) key v,
       d !! key = Some v -> survives v ->
       (key, get_string_value v) ∈ get_string_lines d
       ∧ decode_entry filename key v (get_string_value v) = Ok v).
Proof.
  split.
  - intros key a. apply scalar_round_trip.
  - intros d key v Hlookup Hv. split; [|by apply entry_round_trip].
    unfold get_string_lines. apply list_elem_of_In, in_map_iff.
    exists (key, v). split; [reflexivity|].
    by apply list_elem_of_In, elem_of_map_to_list.
Qed.

End RoundTripTable.

Lemma incar_text_round_trip_witness :
  let magmom : @pyval DecFloat.t :=
    PList [VFloat (DecFloat.Dec 5 0); VFloat (DecFloat.Dec (-25) 1)] in
  let d : gmap string (@pyval DecFloat.t) :=
    <["NSW" := Scalar (VInt 10)]> (<["MAGMOM" := magmom]> ∅) in
  get_string_value magmom = "5.0 -2.5"
  ∧ @decode_entry _ dec_float run_dir_alone "/run/vasprun.xml" "MAGMOM" magmom "5.0 -2.5"
    = Ok magmom
  ∧ @decode_entry _ dec_float run_dir_alone "/run/vasprun.xml" "NSW" (Scalar (VInt 10)) "10"
    = Ok (Scalar (VInt 10)).
Proof.
  intros magmom d.
  assert (Htext : get_string_value magmom = "5.0 -2.5") by (vm_compute; reflexivity).
  split; [exact Htext|]. split.
  - rewrite <- Htext.
    apply (proj2 (@incar_text_round_trip _ dec_float run_dir_alone "/run/vasprun.xml")
             d "MAGMOM" magmom).
    + vm_compute; reflexivity.
    + simpl. repeat constructor; vm_compute; reflexivity.
  - apply (proj1 (@incar_text_round_trip _ dec_float run_dir_alone "/run/vasprun.xml")
             "NSW" (VInt 10)).
    simpl. exact I.
Defined.

(** [True] is written as the text [True], which the decoder reads under
    the tag [logical] as [False], by itself and in the handler; text with
    white space at its ends comes back stripped; a list of one text
    holding a blank comes back as two items. *)
Lemma true_is_written_True_and_read_False :
  let d : gmap string (@pyval DecFloat.t) := {["LWAVE" := Scalar (VBool true)]} in
  get_string_lines d = [("LWAVE", "True")]
  ∧ @decode_entry _ dec_float run_dir_with_incar "/run/vasprun.xml" "LWAVE"
      (Scalar (VBool true)) "True"
    = Ok (Scalar (VBool false))
  ∧ (fun h => incar h !! "LWAVE")
      <$> @Vasprun _ dec_float run_dir_with_incar "/run/vasprun.xml"
            (ex_declared "logical" "LWAVE" "True")
    = Ok (Some (Scalar (VBool false)))
  ∧ @decode_entry _ dec_float run_dir_with_incar "/run/vasprun.xml" "SYSTEM"
      (Scalar (VStr " FeO ")) (get_string_value (Scalar (VStr " FeO ")))
    = Ok (Scalar (VStr "FeO"))
  ∧ @decode_entry _ dec_float run_dir_with_incar "/run/vasprun.xml" "SYSTEM"
      (PList [VStr "Fe O"]) (get_string_value (PList [VStr "Fe O"]))
    = Ok (PList [VStr "Fe"; VStr "O"]).
Proof. repeat split; vm_compute; reflexivity. Qed.

(** * More properties of the module *)

(** ** More about text *)

Lemma append_assoc_str (a b c : string) : (a +:+ b) +:+ c = a +:+ (b +:+ c).
Proof. induction a as [|x a IH]; [reflexivity|]. by rewrite !append_cons, IH. Qed.

Lemma token_chars (t : string) :
  is_token t = true -> all_chars (fun c => negb (is_space c)) t = true.
Proof. unfold is_token. intros H. by apply andb_prop in H as [_ ?]. Qed.

Lemma token_not_empty (t : string) : is_token t = true -> t ≠ "".
Proof. intros H ->. discriminate. Qed.

(** [split()] undoes joining tokens with one space, the empty list
    included. *)
Lemma py_split_join (toks : list string) :
  Forall (fun t => is_token t = true) toks -> py_split (join " " toks) = toks.
Proof.
  intros Htoks. unfold py_split. destruct toks as [|t r]; [reflexivity|].
  rewrite re_split_join by done.
  induction Htoks as [|u l Hu _ IH]; [reflexivity|]. simpl.
  destruct u; [discriminate|]. simpl. by rewrite IH.
Qed.

Lemma lstrip_token_app (t s : string) :
  is_token t = true -> lstrip (t +:+ s) = t +:+ s.
Proof.
  intros Ht. destruct t as [|c t]; [discriminate|].
  apply token_chars in Ht. simpl in Ht. apply andb_prop in Ht as [Hc _].
  apply negb_true_iff in Hc. rewrite append_cons. simpl. by rewrite Hc.
Qed.

Lemma rstrip_app_token (s t : string) :
  is_token t = true -> rstrip (s +:+ t) = s +:+ t.
Proof.
  intros Ht. induction s as [|c s IH].
  - rewrite append_nil_l. apply rstrip_token. by apply token_chars.
  - rewrite append_cons. simpl. rewrite IH.
    destruct (s +:+ t) eqn:Hst; [|reflexivity].
    destruct s; [|discriminate]. rewrite append_nil_l in Hst.
    by destruct (token_not_empty t Ht).
Qed.

Lemma join_last (r : list string) (t : string) :
  ∃ s, join " " (r ++ [t]) = s +:+ t.
Proof.
  induction r as [|a r (s & IH)].
  - by exists "".
  - exists (a +:+ " " +:+ s).
    change ((a :: r) ++ [t]) with (a :: (r ++ [t])).
    destruct (r ++ [t]) as [|b l] eqn:Hr; [by destruct r|].
    change (join " " (a :: b :: l)) with (a +:+ " " +:+ join " " (b :: l)).
    by rewrite IH, !append_assoc_str.
Qed.

(** Tokens joined with one space have no white space at their ends. *)
Lemma strip_join (toks : list string) :
  Forall (fun t => is_token t = true) toks -> strip (join " " toks) = join " " toks.
Proof.
  intros Htoks. unfold strip. destruct toks as [|t r]; [reflexivity|].
  destruct (join_head t r) as (s & Hs).
  inversion Htoks as [|? ? Ht Hr]; subst.
  rewrite Hs, (lstrip_token_app t s Ht), <- Hs.
  destruct (exists_last (l:=t :: r)) as (front & u & Hlast); [done|].
  rewrite Hlast. destruct (join_last front u) as (s' & ->).
  apply rstrip_app_token.
  rewrite Hlast in Htoks. apply Forall_app in Htoks as [_ Hu].
  by inversion Hu.
Qed.

Lemma split_on_cons (sep : ascii) (s : string) :
  ∃ t ts, split_on sep s = t :: ts.
Proof.
  induction s as [|c r (t & ts & IH)]; simpl; [eauto|].
  destruct (Ascii.eqb c sep); [eauto|]. rewrite IH. eauto.
Qed.

Lemma split_on_free_app (sep : ascii) (t s : string) :
  all_chars (fun c => negb (Ascii.eqb c sep)) t = true ->
  split_on sep (t +:+ s)
  = match split_on sep s with
    | u :: us => (t +:+ u) :: us
    | [] => [t]
    end.
Proof.
  induction t as [|c t IH]; intros Ht.
  - rewrite append_nil_l. destruct (split_on_cons sep s) as (u & us & Hs). by rewrite Hs.
  - simpl in Ht. apply andb_prop in Ht as [Hc Ht]. apply negb_true_iff in Hc.
    rewrite append_cons. simpl. rewrite Hc, (IH Ht).
    destruct (split_on_cons sep s) as (u & us & Hs). by rewrite Hs.
Qed.

(** Splitting at a character undoes joining with it texts that are free
    of it. *)
Lemma split_on_join (sep : ascii) (ls : list string) :
  ls ≠ [] ->
  Forall (fun l => all_chars (fun c => negb (Ascii.eqb c sep)) l = true) ls ->
  split_on sep (join (String sep EmptyString) ls) = ls.
Proof.
  induction ls as [|t r IH]; [done|]. intros _ Hls.
  inversion Hls as [|? ? Ht Hr]; subst.
  destruct r as [|u r].
  - simpl. rewrite <- (append_empty_r t) at 1.
    rewrite split_on_free_app by done. simpl. by rewrite append_empty_r.
  - change (join (String sep "") (t :: u :: r))
      with (t +:+ String sep (join (String sep "") (u :: r))).
    rewrite split_on_free_app by done.
    assert (Hsep : split_on sep (String sep (join (String sep "") (u :: r)))
                   = "" :: split_on sep (join (String sep "") (u :: r))).
    { simpl. by rewrite Ascii.eqb_refl. }
    rewrite Hsep, IH by done. by rewrite append_empty_r.
Qed.

Lemma all_chars_app (p : ascii -> bool) (a b : string) :
  all_chars p (a +:+ b) = (all_chars p a && all_chars p b)%bool.
Proof.
  induction a as [|c a IH]; [reflexivity|].
  rewrite append_cons. simpl. by rewrite IH, andb_assoc.
Qed.

Lemma all_chars_join (p : ascii -> bool) (sep : string) (ls : list string) :
  all_chars p sep = true -> Forall (fun l => all_chars p l = true) ls ->
  all_chars p (join sep ls) = true.
Proof.
  intros Hsep. induction 1 as [|t r Ht Hr IH]; [reflexivity|].
  destruct r as [|u r]; [exact Ht|].
  change (join sep (t :: u :: r)) with (t +:+ sep +:+ join sep (u :: r)).
  by rewrite !all_chars_app, Ht, Hsep, IH.
Qed.

Lemma py_str_int_chars (z : Z) :
  all_chars (fun c => (is_digit c || Ascii.eqb c "-")%bool) (py_str_int z) = true.
Proof.
  assert (Hd : ∀ d, all_chars (fun c => (is_digit c || Ascii.eqb c "-")%bool)
                      (NilEmpty.string_of_uint d) = true).
  { intros d. eapply all_chars_impl; [|apply string_of_uint_digits].
    intros c ->. reflexivity. }
  destruct z as [|p|p]; unfold py_str_int; simpl; [reflexivity| |].
  - rewrite string_of_uint_pos. apply Hd.
  - rewrite string_of_uint_pos. apply Hd.
Qed.

(** ** Kpoints *)

Lemma parse_ints_of_str (l : list Z) :
  mapM_res (fun x => of_parse (py_int x)) (map py_str_int l) = Ok l.
Proof.
  induction l as [|z l IH]; [reflexivity|]. simpl. rewrite py_int_str. simpl.
  by rewrite IH.
Qed.

(** X1.  A [Kpoints] whose comment, generation style and lattice are
    single lines without white space at their ends is read back from the
    text that [__str__] writes: the text has the four lines of the object,
    and [from_file] makes the object of them, whatever the mesh, the empty
    mesh included. *)
Theorem Kpoints_read_back (k : Kpoints) :
  Forall (fun s => strip s = s
                   ∧ all_chars (fun c => negb (Ascii.eqb c "010")) s = true)
         [l1_comment k; l2_gen_style k; l3_lattice k] ->
  split_on "010" (Kpoints_str k) = Kpoints_lines k
  ∧ Kpoints_from_lines (Kpoints_lines k) = Ok k.
Proof.
  intros Hk.
  apply Forall_cons in Hk as [[Hc1 Hc2] Hk].
  apply Forall_cons in Hk as [[Hg1 Hg2] Hk].
  apply Forall_cons in Hk as [[Hl1 Hl2] _].
  assert (Htoks : Forall (fun t => is_token t = true) (map py_str_int (kpts k))).
  { apply Forall_map, Forall_forall. intros z _. apply py_str_int_token. }
  split.
  - unfold Kpoints_str. apply split_on_join; [done|].
    unfold Kpoints_lines. repeat (apply Forall_cons; split; [assumption|]).
    apply Forall_cons. split; [|constructor].
    apply all_chars_join; [reflexivity|].
    apply Forall_map, Forall_forall. intros z _.
    eapply all_chars_impl; [|apply py_str_int_chars].
    intros c Hc. apply orb_prop in Hc as [Hc | Hc].
    + destruct (Ascii.eqb c "010") eqn:E; [|reflexivity].
      apply Ascii.eqb_eq in E. subst. discriminate.
    + apply Ascii.eqb_eq in Hc. by subst.
  - unfold Kpoints_from_lines, Kpoints_lines. simpl.
    rewrite (strip_join _ Htoks), (py_split_join _ Htoks), parse_ints_of_str. simpl.
    rewrite Hc1, Hg1, Hl1. by destruct k.
Qed.

Lemma Kpoints_read_back_witness :
  let k := {| l1_comment := "Automatic mesh"; l2_gen_style := "0";
              l3_lattice := "Gamma"; kpts := [4; 4; -2] |} in
  Kpoints_lines k = ["Automatic mesh"; "0"; "Gamma"; "4 4 -2"]
  ∧ Kpoints_from_lines (split_on "010" (Kpoints_str k)) = Ok k.
Proof.
  intros k.
  destruct (Kpoints_read_back k) as [Hlines Hread].
  - repeat constructor.
  - split; [reflexivity|]. by rewrite Hlines.
Defined.

(** X2.  [Kpoints.from_file] reads the first four lines and no other:
    with fewer than four it raises IndexError; what follows the fourth
    line changes nothing. *)
Theorem Kpoints_reads_four_lines (lines more : list string) :
  ((length lines < 4)%nat -> Kpoints_from_lines lines = Raise IndexError)
  ∧ (length lines = 4%nat ->
     Kpoints_from_lines (lines ++ more) = Kpoints_from_lines lines).
Proof.
  split.
  - intros Hlen. unfold Kpoints_from_lines, item.
    destruct lines as [|a [|b [|c [|d r]]]]; simpl in *; try reflexivity. lia.
  - intros Hlen.
    destruct lines as [|a [|b [|c [|d [|e r]]]]]; simpl in Hlen; try lia.
    reflexivity.
Qed.

Lemma Kpoints_reads_four_lines_witness :
  Kpoints_from_lines ["Automatic mesh"; "0"; "Gamma"] = Raise IndexError
  ∧ Kpoints_from_lines (["Automatic mesh"; "0"; "Gamma"; "4 4 4"] ++ ["0 0 0"])
    = Kpoints_from_lines ["Automatic mesh"; "0"; "Gamma"; "4 4 4"].
Proof.
  split.
  - apply (proj1 (Kpoints_reads_four_lines ["Automatic mesh"; "0"; "Gamma"] [])).
    simpl. lia.
  - apply (proj2 (Kpoints_reads_four_lines ["Automatic mesh"; "0"; "Gamma"; "4 4 4"]
                    ["0 0 0"])).
    reflexivity.
Defined.

(** ** Incar.proc_val *)

Lemma span_app (p : ascii -> bool) (t s : string) :
  all_chars p t = true ->
  match s with
  | EmptyString => True
  | String c _ => p c = false
  end ->
  span p (t +:+ s) = (t, s).
Proof.
  intros Ht Hs. induction t as [|c t IH].
  - rewrite append_nil_l. destruct s as [|c r]; [reflexivity|]. simpl. by rewrite Hs.
  - simpl in Ht. apply andb_prop in Ht as [Hc Ht].
    rewrite append_cons. simpl. by rewrite Hc, (IH Ht).
Qed.

Lemma span_all (p : ascii -> bool) (t : string) :
  all_chars p t = true -> span p t = (t, "").
Proof.
  intros Ht. rewrite <- (append_empty_r t) at 1. by apply span_app.
Qed.

Lemma prefix_char (c : ascii) (s : string) :
  String.prefix (String c "") s
  = match s with
    | String b _ => Ascii.eqb c b
    | EmptyString => false
    end.
Proof.
  destruct s as [|b r]; [reflexivity|]. simpl.
  destruct (ascii_dec c b) as [->|Hne].
  - rewrite Ascii.eqb_refl. by destruct r.
  - symmetry. by apply Ascii.eqb_neq.
Qed.

Lemma re_search_char_absent (c : ascii) (s : string) :
  all_chars (fun b => negb (Ascii.eqb c b)) s = true ->
  re_search (String c "") s = false.
Proof.
  induction s as [|b r IH]; [reflexivity|].
  simpl all_chars. intros H. apply andb_prop in H as [Hb Hr].
  apply negb_true_iff in Hb.
  change (re_search (String c "") (String b r))
    with (String.prefix (String c "") (String b r) || re_search (String c "") r)%bool.
  by rewrite prefix_char, Hb, (IH Hr).
Qed.

Section ProcVal.
Context {float : Type} `{!PyFloat float}.
Local Abbreviation scalar := (@scalar float).
Local Abbreviation pyval := (@pyval float).

(** X3.  Under the keys [LDAU] and [LWAVE] a value is read as a boolean
    only when punctuation comes before the letter: after one or more
    characters that are not of a word, [T] or [t] gives [True], [F] or [f]
    gives [False]; a value that begins with a letter, as [T] or [True]
    do, stays the text it was, and so does every other value. *)
Theorem proc_val_boolean_needs_punctuation (key p r : string) (c : ascii) :
  key = "LDAU" ∨ key = "LWAVE" ->
  all_chars (fun x => negb (is_word x)) p = true -> is_word c = true ->
  proc_val key (p +:+ String c r)
  = (if String.eqb p "" then Scalar (VStr (String c r))
     else if (Ascii.eqb c "T" || Ascii.eqb c "t")%bool then Scalar (VBool true)
     else if (Ascii.eqb c "F" || Ascii.eqb c "f")%bool then Scalar (VBool false)
     else Scalar (VStr (p +:+ String c r)) : pyval)
  ∧ proc_val key p = (Scalar (VStr p) : pyval).
Proof.
  intros Hkey Hp Hc.
  assert (Hspan : span (fun x => negb (is_word x)) (p +:+ String c r) = (p, String c r)).
  { apply span_app; [exact Hp|]. simpl. by rewrite Hc. }
  assert (Hlist : mem_string key list_type_keys = false)
    by (destruct Hkey as [-> | ->]; reflexivity).
  assert (Hbool : mem_string key boolean_type_keys = true)
    by (destruct Hkey as [-> | ->]; reflexivity).
  unfold proc_val, proc_val_try. rewrite Hlist, Hbool. split.
  - rewrite Hspan. destruct p as [|x p]; [reflexivity|].
    change (String.eqb (String x p) "") with false. cbv iota.
    unfold mem_string. simpl existsb.
    destruct (Ascii.eqb c "T") eqn:E1; [reflexivity|].
    destruct (Ascii.eqb c "t") eqn:E2; [reflexivity|].
    destruct (Ascii.eqb c "F") eqn:E3; [reflexivity|].
    destruct (Ascii.eqb c "f") eqn:E4; reflexivity.
  - rewrite (span_all _ p Hp). by destruct p.
Qed.

End ProcVal.

Lemma proc_val_boolean_needs_punctuation_witness :
  (@proc_val _ dec_float "LWAVE" ".TRUE." = Scalar (VBool true))
  ∧ (@proc_val _ dec_float "LWAVE" "T" = Scalar (VStr "T")).
Proof.
  split.
  - apply (proj1 (@proc_val_boolean_needs_punctuation _ dec_float "LWAVE" "." "RUE." "T"
                    ltac:(by right) ltac:(reflexivity) ltac:(reflexivity))).
  - apply (proj1 (@proc_val_boolean_needs_punctuation _ dec_float "LWAVE" "" "" "T"
                    ltac:(by right) ltac:(reflexivity) ltac:(reflexivity))).
Defined.

Lemma span_split (p : ascii -> bool) (s a b : string) :
  span p s = (a, b) -> s = a +:+ b.
Proof.
  revert a b. induction s as [|c s IH]; simpl; intros a b Hs.
  - by injection Hs as <- <-.
  - destruct (p c).
    + destruct (span p s) as [a' b']. injection Hs as <- <-.
      by rewrite append_cons, (IH a' b').
    + by injection Hs as <- <-.
Qed.

Lemma number_char_not_space (c : ascii) : number_char c = true -> negb (is_space c) = true.
Proof.
  unfold number_char. intros H. apply orb_prop in H as [H | H].
  - by apply digit_not_space.
  - unfold mem_string in H. simpl in H.
    destruct c as [[] [] [] [] [] [] [] []]; try discriminate H; reflexivity.
Qed.

Lemma py_str_nat_digits (n : nat) : all_chars is_digit (py_str_int (Z.of_nat n)) = true.
Proof.
  destruct (Z.of_nat n) as [|p|p] eqn:Hn; unfold py_str_int; simpl; [reflexivity| |lia].
  rewrite string_of_uint_pos. apply string_of_uint_digits.
Qed.

Lemma list_token_is_token (count : option nat) (number : string) :
  number ≠ "" -> all_chars number_char number = true ->
  is_token (list_token count number) = true.
Proof.
  intros Hne Hnum.
  assert (Hsp : all_chars (fun c => negb (is_space c)) number = true)
    by (eapply all_chars_impl; [apply number_char_not_space|done]).
  unfold is_token. apply andb_true_intro. split.
  - destruct count as [n|]; simpl.
    + pose proof (py_str_int_token (Z.of_nat n)) as Ht.
      destruct (py_str_int (Z.of_nat n)); [discriminate|reflexivity].
    + by destruct number.
  - destruct count as [n|]; simpl; [|exact Hsp].
    rewrite !all_chars_app, Hsp, andb_true_r.
    eapply all_chars_impl; [apply digit_not_space|apply py_str_nat_digits].
Qed.

Section ProcValLists.
Context {float : Type} `{!PyFloat float}.
Local Abbreviation scalar := (@scalar float).
Local Abbreviation pyval := (@pyval float).

Lemma proc_list_tok_number (number : string) :
  all_chars number_char number = true ->
  proc_list_tok number = (x ← smart_int_or_float number; Ok [x] : res (list scalar)).
Proof.
  intros Hnum. unfold proc_list_tok.
  destruct (span is_digit number) as [count rest] eqn:Hspan.
  apply span_split in Hspan. subst number.
  rewrite all_chars_app in Hnum. apply andb_prop in Hnum as [_ Hrest].
  destruct count as [|a count]; [reflexivity|].
  destruct rest as [|x rest]; [reflexivity|].
  simpl in Hrest. apply andb_prop in Hrest as [Hx _].
  destruct x as [[] [] [] [] [] [] [] []]; try reflexivity; discriminate Hx.
Qed.

Lemma proc_list_tok_copies (n : nat) (number : string) :
  number ≠ "" -> all_chars number_char number = true ->
  proc_list_tok (py_str_int (Z.of_nat n) +:+ "*" +:+ number)
  = (x ← smart_int_or_float number; Ok (replicate n x) : res (list scalar)).
Proof.
  intros Hne Hnum. unfold proc_list_tok.
  rewrite (span_app is_digit _ ("*" +:+ number)) by (apply py_str_nat_digits || done).
  pose proof (py_str_int_token (Z.of_nat n)) as Ht.
  destruct (py_str_int (Z.of_nat n)) as [|a count] eqn:Hcount; [discriminate|].
  change ("*" +:+ number) with (String "*" number). cbv iota.
  fold number_char. change (fun c : ascii => number_char c) with number_char.
  rewrite (span_all number_char number Hnum).
  destruct number as [|b number]; [done|].
  rewrite <- Hcount, py_int_str. simpl.
  destruct (smart_int_or_float (String b number)); simpl; [|reflexivity].
  by rewrite Nat2Z.id.
Qed.

Lemma proc_list_tok_item (count : option nat) (number : string) :
  number ≠ "" -> all_chars number_char number = true ->
  proc_list_tok (list_token count number)
  = (x ← smart_int_or_float number; Ok (replicate (copies count) x) : res (list scalar)).
Proof.
  intros Hne Hnum. destruct count as [n|]; simpl.
  - by apply proc_list_tok_copies.
  - by apply proc_list_tok_number.
Qed.

(** X4.  Under a list-valued key ([LDAUU], [LDAUL], [LDAUJ], [LDAUTYPE],
    [MAGMOM]) a text of one or more items separated by single blanks, each
    a number or [n*number], is read as the list of the numbers in order,
    [n*number] standing for [n] copies, none when [n] is zero. *)
Theorem proc_val_list_items (key : string) (items : list (option nat * string))
    (values : list scalar) :
  mem_string key list_type_keys = true -> items ≠ [] ->
  Forall2 (fun it v => it.2 ≠ "" ∧ all_chars number_char it.2 = true
                       ∧ smart_int_or_float it.2 = Ok v) items values ->
  proc_val key (join " " (map (fun it => list_token it.1 it.2) items))
  = PList (concat (zip_with (fun it v => replicate (copies it.1) v) items values)).
Proof.
  intros Hkey Hne Hitems.
  unfold proc_val, proc_val_try. rewrite Hkey.
  rewrite re_split_join.
  - assert (Hout : mapM_res proc_list_tok (map (fun it => list_token it.1 it.2) items)
                   = Ok (zip_with (fun it (v : scalar) => replicate (copies it.1) v)
                           items values)).
    { clear Hne. induction Hitems as [|it v items values (Hn & Hc & Hv) _ IH];
        [reflexivity|].
      simpl. rewrite (proc_list_tok_item it.1 it.2 Hn Hc), Hv. simpl.
      by rewrite IH. }
    by rewrite Hout.
  - by destruct items.
  - apply Forall_map. eapply Forall2_Forall_l; [exact Hitems|].
    apply Forall_forall. intros v _ it (Hn & Hc & _). by apply list_token_is_token.
Qed.

End ProcValLists.

Lemma proc_val_list_items_witness :
  join " " (map (fun it : option nat * string => list_token it.1 it.2)
              [(Some 2%nat, "5.0"); (None, "-1"); (Some 0%nat, "7")])
  = "2*5.0 -1 0*7"
  ∧ @proc_val _ dec_float "MAGMOM" "2*5.0 -1 0*7"
    = PList [VFloat (DecFloat.Dec 5 0); VFloat (DecFloat.Dec 5 0); VInt (-1)].
Proof.
  split; [reflexivity|].
  apply (@proc_val_list_items _ dec_float "MAGMOM"
           [(Some 2%nat, "5.0"); (None, "-1"); (Some 0%nat, "7")]
           [VFloat (DecFloat.Dec 5 0); VInt (-1); VInt 7]).
  - reflexivity.
  - discriminate.
  - repeat constructor; try discriminate; vm_compute; reflexivity.
Defined.

(** ** Incar.from_file *)

Lemma lstrip_length (s : string) : (String.length (lstrip s) <= String.length s)%nat.
Proof.
  induction s as [|c s IH]; simpl; [lia|]. destruct (is_space c); simpl; lia.
Qed.

Lemma rstrip_length (s : string) : (String.length (rstrip s) <= String.length s)%nat.
Proof.
  induction s as [|c s IH]; simpl; [lia|].
  destruct (rstrip s); [destruct (is_space c)|]; simpl in *; lia.
Qed.

(** A text that [strip] leaves as it is does not begin with white space. *)
Lemma strip_head (t : string) :
  strip t = t ->
  match t with
  | EmptyString => True
  | String c _ => is_space c = false
  end.
Proof.
  destruct t as [|c r]; [done|]. unfold strip. simpl.
  destruct (is_space c) eqn:Hc; [|done]. intros Heq.
  pose proof (rstrip_length (lstrip r)) as H1. pose proof (lstrip_length r) as H2.
  rewrite Heq in H1. simpl in H1. lia.
Qed.

Lemma word_not_space (c : ascii) : is_word c = true -> negb (is_space c) = true.
Proof.
  destruct c as [[] [] [] [] [] [] [] []]; try discriminate; reflexivity.
Qed.

(** The line [KEY = VALUE] is read as the pair of its key and value. *)
Lemma match_key_value_line (key value : string) :
  key ≠ "" -> all_chars is_word key = true -> one_line value ->
  match_key_value (incar_line key value) = Some (key, value).
Proof.
  intros Hne Hkey [Hstrip Hline]. unfold match_key_value, incar_line.
  rewrite (span_app is_word key (" = " +:+ value)) by done.
  destruct key as [|c key]; [done|].
  change (" = " +:+ value) with (String " " (String "=" (String " " value))).
  assert (Hsp : span is_space value = ("", value)).
  { pose proof (strip_head value Hstrip) as Hhead.
    destruct value as [|x v]; [reflexivity|]. simpl. by rewrite Hhead. }
  simpl. rewrite Hsp. simpl. by rewrite (span_all _ value Hline).
Qed.

Section FromFile.
Context {float : Type} `{!PyFloat float} `{!FileSystem}.
Local Abbreviation pyval := (@pyval float).

(** The lines that assign no value to [k] leave the entry of [k] alone. *)
Lemma lines_leave_key (k : string) (lines : list string) (acc : gmap string pyval) :
  Forall (fun line => key_of_line line ≠ Some k) lines ->
  foldl (fun (params : gmap string pyval) line =>
           match match_key_value line with
           | Some (k, v) => let key := strip k in <[key := proc_val key (strip v)]> params
           | None => params
           end) acc lines !! k
  = acc !! k.
Proof.
  intros Hl. revert acc. induction Hl as [|line lines Hline _ IH]; intros acc; [done|].
  simpl. rewrite IH. unfold key_of_line in Hline.
  destruct (match_key_value line) as [[k' v]|]; [|done]. simpl in *.
  apply lookup_insert_ne. congruence.
Qed.

(** X5.  [Incar.from_file] keeps for every key the value of the last line
    that assigns it, read by [proc_val] from the stripped text; a line
    that is not of the form [KEY = VALUE] is passed over, and a key that
    no line assigns is absent from the table. *)
Theorem Incar_from_file_last_line_wins (path : string) (lines : list string) :
  read_clean_lines path = Ok lines ->
  ∃ d : gmap string pyval,
    Incar_from_file path = Ok d
    ∧ ∀ k,
        (Forall (fun line => key_of_line line ≠ Some k) lines -> d !! k = None)
        ∧ (∀ before line after key value,
             lines = before ++ line :: after ->
             match_key_value line = Some (key, value) -> strip key = k ->
             Forall (fun l => key_of_line l ≠ Some k) after ->
             d !! k = Some (proc_val k (strip value))).
Proof.
  intros Hread. unfold Incar_from_file. rewrite Hread. simpl.
  eexists. split; [reflexivity|]. intros k. split.
  - intros Hnone. by rewrite lines_leave_key.
  - intros before line after key value -> Hline Hkey Hafter.
    rewrite foldl_app. simpl. rewrite lines_leave_key by done.
    rewrite Hline. simpl. rewrite Hkey. apply lookup_insert_eq.
Qed.

End FromFile.

Lemma Incar_from_file_last_line_wins_witness :
  (fun d => (d !! "NSW", d !! "LDAUL", d !! "ENCUT"))
    <$> @Incar_from_file _ dec_float run_dir_with_incar "/run/INCAR"
  = Ok (Some (Scalar (VInt 10)), Some (PList [VInt 2; VInt 2]), None).
Proof.
  destruct (@Incar_from_file_last_line_wins _ dec_float run_dir_with_incar "/run/INCAR"
              ["SYSTEM = FeO"; "NSW = 10"; "LDAUL = 2 2"; "MAGMOM = 2*5.0"] eq_refl)
    as (d & -> & Hd).
  simpl. f_equal. f_equal; [f_equal|].
  - apply (proj2 (Hd "NSW") ["SYSTEM = FeO"] "NSW = 10" ["LDAUL = 2 2"; "MAGMOM = 2*5.0"]
             "NSW" "10"); try reflexivity.
    repeat constructor; vm_compute; discriminate.
  - apply (proj2 (Hd "LDAUL") ["SYSTEM = FeO"; "NSW = 10"] "LDAUL = 2 2" ["MAGMOM = 2*5.0"]
             "LDAUL" "2 2"); try reflexivity.
    repeat constructor; vm_compute; discriminate.
  - apply (proj1 (Hd "ENCUT")). repeat constructor; vm_compute; discriminate.
Defined.

Lemma foldl_insert_elem {A} (l : list (string * A)) (acc : gmap string A) (k : string) (v : A) :
  NoDup l.*1 -> (k, v) ∈ l ->
  foldl (fun (m : gmap string A) kv => <[kv.1 := kv.2]> m) acc l !! k = Some v.
Proof.
  revert acc. induction l as [|[k' v'] l IH]; intros acc Hnd Hin.
  - by apply elem_of_nil in Hin.
  - simpl in *. apply NoDup_cons in Hnd as [Hk' Hnd].
    apply elem_of_cons in Hin as [Heq | Hin].
    + injection Heq as <- <-. clear IH.
      assert (Hgen : ∀ acc' : gmap string A,
                 foldl (fun (m : gmap string A) kv => <[kv.1 := kv.2]> m) acc' l !! k
                 = acc' !! k).
      { clear Hnd. induction l as [|[k2 v2] l IHl]; intros acc'; [done|].
        simpl. rewrite IHl.
        - apply lookup_insert_ne. intros ->. apply Hk'. simpl. left.
        - intros Hin. apply Hk'. simpl. by right. }
      rewrite Hgen. apply lookup_insert_eq.
    + by apply IH.
Qed.

Lemma foldl_insert_absent {A} (l : list (string * A)) (acc : gmap string A) (k : string) :
  k ∉ l.*1 ->
  foldl (fun (m : gmap string A) kv => <[kv.1 := kv.2]> m) acc l !! k = acc !! k.
Proof.
  revert acc. induction l as [|[k' v'] l IH]; intros acc Hk; [done|].
  simpl in *. rewrite IH.
  - apply lookup_insert_ne. intros ->. apply Hk. left.
  - intros Hin. apply Hk. by right.
Qed.

(** Assigning the items of a table one after the other gives the table. *)
Lemma foldl_insert_map_to_list {A} (d : gmap string A) :
  foldl (fun (m : gmap string A) kv => <[kv.1 := kv.2]> m) ∅ (map_to_list d) = d.
Proof.
  apply map_eq. intros k. destruct (d !! k) as [v|] eqn:Hk.
  - apply foldl_insert_elem; [apply NoDup_fst_map_to_list|].
    by apply elem_of_map_to_list.
  - rewrite foldl_insert_absent; [done|].
    intros Hin. apply list_elem_of_fmap in Hin as ([k' v] & -> & Hin).
    apply elem_of_map_to_list in Hin. simpl in Hk. congruence.
Qed.

Section ReadBack.
Context {float : Type} `{!PyFloat float} `{!FileSystem}.
Local Abbreviation pyval := (@pyval float).

(** X6.  A table is read back from the lines [KEY = VALUE] that
    [get_string] writes, when every key is a word, every value is written
    on one line without white space at its ends, and [proc_val] reads the
    written value as the value under its key. *)
Theorem Incar_read_back (path : string) (d : gmap string pyval) :
  read_clean_lines path
  = Ok (map (fun kv : string * string => incar_line kv.1 kv.2) (get_string_lines d)) ->
  map_Forall (fun k v => k ≠ "" ∧ all_chars is_word k = true
                         ∧ one_line (get_string_value v)
                         ∧ proc_val k (get_string_value v) = v) d ->
  get_string d
  = join (String "010"%char EmptyString)
      (map (fun kv : string * string => incar_line kv.1 kv.2) (get_string_lines d))
  ∧ Incar_from_file path = Ok d.
Proof.
  intros Hread Hd. split.
  - unfold get_string, str_delimited. f_equal. apply map_ext. by intros [k v].
  - unfold Incar_from_file. rewrite Hread. simpl. f_equal.
    rewrite <- (foldl_insert_map_to_list d) at 2.
    unfold get_string_lines.
    assert (Hl : Forall (fun kv : string * pyval =>
                           kv.1 ≠ "" ∧ all_chars is_word kv.1 = true
                           ∧ one_line (get_string_value kv.2)
                           ∧ proc_val kv.1 (get_string_value kv.2) = kv.2)
                   (map_to_list d)).
    { apply Forall_forall. intros [k v] Hin. apply elem_of_map_to_list in Hin.
      exact (Hd k v Hin). }
    generalize (∅ : gmap string pyval).
    induction Hl as [|[k v] l (Hne & Hword & Hline & Hval) _ IH]; intros acc; [done|].
    simpl in Hne, Hword, Hline, Hval. simpl. rewrite (match_key_value_line k _ Hne Hword Hline). simpl.
    rewrite (strip_token k) by (eapply all_chars_impl; [apply word_not_space|done]).
    destruct Hline as [-> _]. rewrite Hval. apply IH.
Qed.

End ReadBack.

Lemma Incar_read_back_witness :
  let d : gmap string (@pyval DecFloat.t) :=
    <["NSW" := Scalar (VInt 10)]>
      (<["LDAUL" := PList [VInt 2; VInt (-1)]]> (<["SYSTEM" := Scalar (VStr "FeO")]> ∅)) in
  (fun r => r !! "LDAUL") <$> @Incar_from_file _ dec_float (dir_of_table d) "INCAR"
  = Ok (Some (PList [VInt 2; VInt (-1)])).
Proof.
  intros d.
  destruct (@Incar_read_back _ dec_float (dir_of_table d) "INCAR" d eq_refl) as [_ ->].
  - repeat (apply map_Forall_insert_2;
            [repeat split; try discriminate; vm_compute; reflexivity|]).
    apply map_Forall_empty.
  - vm_compute; reflexivity.
Defined.

(** ** Incar.diff and Incar.__add__ *)

Section TableFacts.
Context {float : Type} `{!PyFloat float}.
Local Abbreviation pyval := (@pyval float).
Variable py_ne : pyval -> pyval -> bool.

(** What the first loop of [diff] holds for a key. *)
Lemma diff_own_absent (other : gmap string pyval) (l : list (string * pyval))
    (acc : gmap string pyval * gmap string (pyval * pyval)) (k : string) :
  k ∉ l.*1 ->
  (foldl (diff_own py_ne other) acc l).1 !! k = acc.1 !! k
  ∧ (foldl (diff_own py_ne other) acc l).2 !! k = acc.2 !! k.
Proof.
  revert acc. induction l as [|[k1 v1] l IH]; intros [similar different] Hk; [done|].
  simpl in Hk. cbn [foldl].
  destruct (IH (diff_own py_ne other (similar, different) (k1, v1))) as [-> ->].
  { intros Hin. apply Hk. by right. }
  assert (Hne : k1 ≠ k) by (intros ->; apply Hk; left).
  unfold diff_own. destruct (other !! k1) as [v2|]; [destruct (py_ne v1 v2)|]; simpl.
  - split; [done|]. by apply lookup_insert_ne.
  - split; [|done]. by apply lookup_insert_ne.
  - split; [done|]. by apply lookup_insert_ne.
Qed.

Lemma diff_own_elem (other : gmap string pyval) (l : list (string * pyval))
    (acc : gmap string pyval * gmap string (pyval * pyval)) (k : string) (v : pyval) :
  NoDup l.*1 -> (k, v) ∈ l -> acc.1 !! k = None -> acc.2 !! k = None ->
  (foldl (diff_own py_ne other) acc l).1 !! k
  = match other !! k with
    | Some w => if py_ne v w then None else Some v
    | None => None
    end
  ∧ (foldl (diff_own py_ne other) acc l).2 !! k
    = match other !! k with
      | Some w => if py_ne v w then Some (v, w) else None
      | None => Some (v, Default)
      end.
Proof.
  revert acc. induction l as [|[k1 v1] l IH]; intros [similar different] Hnd Hin Hs Hd.
  - by apply elem_of_nil in Hin.
  - simpl in Hnd. apply NoDup_cons in Hnd as [Hk1 Hnd]. cbn [foldl].
    apply elem_of_cons in Hin as [Heq | Hin].
    + injection Heq as <- <-.
      destruct (diff_own_absent other l (diff_own py_ne other (similar, different) (k, v)) k Hk1)
        as [-> ->].
      unfold diff_own. simpl in Hs, Hd.
      destruct (other !! k) as [w|]; [destruct (py_ne v w)|]; simpl.
      * split; [done|]. apply lookup_insert_eq.
      * split; [apply lookup_insert_eq|done].
      * split; [done|]. apply lookup_insert_eq.
    + assert (Hne : k1 ≠ k).
      { intros ->. apply Hk1. apply list_elem_of_fmap. by exists (k, v). }
      apply IH; [done|done| |].
      * unfold diff_own. destruct (other !! k1) as [v2|]; [destruct (py_ne v1 v2)|];
          simpl; try done. by rewrite lookup_insert_ne.
      * unfold diff_own. destruct (other !! k1) as [v2|]; [destruct (py_ne v1 v2)|];
          simpl; try done; by rewrite lookup_insert_ne.
Qed.

(** With [k1] a key of [self], the second loop of [diff] does nothing. *)
Lemma diff_other_idle (self : gmap string pyval) (k1 : string) (l : list (string * pyval))
    (acc : gmap string pyval * gmap string (pyval * pyval)) :
  is_Some (self !! k1) ->
  foldl (diff_other self (Some k1)) (Some acc) l = Some acc.
Proof.
  intros [v Hv]. induction l as [|[k2 v2] l IH]; [done|].
  simpl. destruct acc as [similar different].
  destruct (similar !! k2), (different !! k2); try exact IH.
  rewrite Hv. exact IH.
Qed.

Lemma diff_other_unbound (self : gmap string pyval) (l : list (string * pyval)) :
  foldl (diff_other self None) None l = None.
Proof. induction l as [|kv l IH]; [done|]. exact IH. Qed.

(** X7.  [diff] sorts the keys of [self], and no other key: a key of
    [self] that [other] holds with a value that is not different goes to
    the same parameters, with its value; every other key of [self] goes to
    the different ones, with the two values, [Default] standing for the
    value that [other] lacks.  A key that only [other] holds is reported
    nowhere.  On an empty [self] and an [other] that is not empty the call
    fails, its second loop reading the variable of the first. *)
Theorem Incar_diff_sorts_own_keys (self other : gmap string pyval) :
  (self ≠ ∅ ->
   ∃ r, Incar_diff py_ne self other = Some r
        ∧ ∀ k,
            similar_param r !! k
            = match self !! k, other !! k with
              | Some v, Some w => if py_ne v w then None else Some v
              | _, _ => None
              end
            ∧ different_param r !! k
              = match self !! k, other !! k with
                | Some v, Some w => if py_ne v w then Some (v, w) else None
                | Some v, None => Some (v, Default)
                | None, _ => None
                end)
  ∧ (self = ∅ -> other ≠ ∅ -> Incar_diff py_ne self other = None).
Proof.
  split.
  - intros Hself. unfold Incar_diff.
    destruct (last (map_to_list self)) as [[k1 v1]|] eqn:Hlast.
    2:{ apply last_None in Hlast. by apply map_to_list_empty_iff in Hlast. }
    simpl fmap.
    assert (Hk1 : is_Some (self !! k1)).
    { exists v1. apply elem_of_map_to_list. by apply last_Some_elem_of. }
    rewrite (diff_other_idle self k1 _ _ Hk1).
    destruct (foldl (diff_own py_ne other) (∅, ∅) (map_to_list self))
      as [similar different] eqn:Hfold.
    eexists. split; [reflexivity|]. intros k. simpl.
    destruct (self !! k) as [v|] eqn:Hk.
    + destruct (diff_own_elem other (map_to_list self) (∅, ∅) k v) as [Hs Hd].
      * apply NoDup_fst_map_to_list.
      * by apply elem_of_map_to_list.
      * apply lookup_empty.
      * apply lookup_empty.
      * rewrite Hfold in Hs, Hd. simpl in Hs, Hd. rewrite Hs, Hd.
        by destruct (other !! k).
    + destruct (diff_own_absent other (map_to_list self) (∅, ∅) k) as [Hs Hd].
      * intros Hin. apply list_elem_of_fmap in Hin as ([k' v] & -> & Hin).
        apply elem_of_map_to_list in Hin. simpl in Hk. congruence.
      * rewrite Hfold in Hs, Hd. simpl in Hs, Hd. by rewrite Hs, Hd, !lookup_empty.
  - intros -> Hother. unfold Incar_diff. rewrite map_to_list_empty. simpl.
    destruct (map_to_list other) as [|[k2 v2] l] eqn:Hl.
    { by apply map_to_list_empty_iff in Hl. }
    simpl. rewrite !lookup_empty. by rewrite diff_other_unbound.
Qed.

(** The loop of [__add__]. *)
Lemma add_item_raised (self : gmap string pyval) (e : exn) (l : list (string * pyval)) :
  foldl (add_item py_ne self) (Raise e) l = Raise e.
Proof. induction l as [|kv l IH]; [done|]. exact IH. Qed.

Lemma add_items_agree (self : gmap string pyval) (l : list (string * pyval))
    (params : gmap string pyval) :
  Forall (fun kv => ∀ w, self !! kv.1 = Some w -> py_ne kv.2 w = false) l ->
  foldl (add_item py_ne self) (Ok params) l
  = Ok (foldl (fun (m : gmap string pyval) kv => <[kv.1 := kv.2]> m) params l).
Proof.
  intros Hl. revert params. induction Hl as [|[k v] l Hkv _ IH]; intros params; [done|].
  simpl in *. destruct (self !! k) as [w|]; [rewrite (Hkv w eq_refl)|]; apply IH.
Qed.

Lemma add_items_conflict (self : gmap string pyval) (l : list (string * pyval))
    (params : gmap string pyval) :
  Exists (fun kv => ∃ w, self !! kv.1 = Some w ∧ py_ne kv.2 w = true) l ->
  foldl (add_item py_ne self) (Ok params) l = Raise ValueError.
Proof.
  intros Hl. revert params.
  induction Hl as [[k v] l (w & Hw & Hne) | [k v] l _ IH]; intros params; simpl in *.
  - rewrite Hw, Hne. apply add_item_raised.
  - destruct (self !! k) as [w|]; [destruct (py_ne v w)|];
      first [apply add_item_raised | apply IH].
Qed.

(** X8.  [self + other] is the table of all the entries of the two when
    no key has different values in them, and raises ValueError when some
    key has; the sum with an empty table is the table itself. *)
Theorem Incar_add_joins_or_raises (self other : gmap string pyval) :
  ((∀ k v w, other !! k = Some v -> self !! k = Some w -> py_ne v w = false) ->
   Incar_add py_ne self other = Ok (other ∪ self))
  ∧ ((∃ k v w, other !! k = Some v ∧ self !! k = Some w ∧ py_ne v w = true) ->
     Incar_add py_ne self other = Raise ValueError)
  ∧ Incar_add py_ne self ∅ = Ok self.
Proof.
  split; [|split].
  - intros Hagree. unfold Incar_add. rewrite add_items_agree.
    + f_equal. apply map_eq. intros k. rewrite lookup_union.
      destruct (other !! k) as [v|] eqn:Hk.
      * rewrite (foldl_insert_elem _ _ k v);
          [by destruct (self !! k)|apply NoDup_fst_map_to_list|].
        by apply elem_of_map_to_list.
      * rewrite foldl_insert_absent; [by destruct (self !! k)|].
        intros Hin. apply list_elem_of_fmap in Hin as ([k' v] & -> & Hin).
        apply elem_of_map_to_list in Hin. simpl in Hk. congruence.
    + apply Forall_forall. intros [k v] Hin w Hw. apply elem_of_map_to_list in Hin.
      by eapply Hagree.
  - intros (k & v & w & Hv & Hw & Hne). unfold Incar_add.
    apply add_items_conflict. apply Exists_exists. exists (k, v). split.
    + by apply elem_of_map_to_list.
    + by exists w.
  - unfold Incar_add. by rewrite map_to_list_empty.
Qed.

End TableFacts.

Lemma Incar_diff_sorts_own_keys_witness :
  let self : gmap string (@pyval DecFloat.t) :=
    <["NSW" := Scalar (VInt 10)]> (<["ISIF" := Scalar (VInt 3)]> ∅) in
  let other : gmap string (@pyval DecFloat.t) :=
    <["NSW" := Scalar (VInt 99)]> (<["SIGMA" := Scalar (VInt 1)]> ∅) in
  ∃ r, Incar_diff ne_by_text self other = Some r
       ∧ different_param r !! "NSW" = Some (Scalar (VInt 10), Scalar (VInt 99))
       ∧ different_param r !! "ISIF" = Some (Scalar (VInt 3), Default)
       ∧ different_param r !! "SIGMA" = None
       ∧ similar_param r !! "SIGMA" = None.
Proof.
  intros self other.
  destruct (proj1 (Incar_diff_sorts_own_keys ne_by_text self other)) as (r & Hr & Hk).
  - intros Hempty.
    assert (H : self !! "NSW" = (∅ : gmap string (@pyval DecFloat.t)) !! "NSW")
      by (by rewrite Hempty).
    vm_compute in H. discriminate H.
  - exists r. split; [exact Hr|].
    rewrite (proj2 (Hk "NSW")), (proj2 (Hk "ISIF")), (proj2 (Hk "SIGMA")),
      (proj1 (Hk "SIGMA")).
    repeat split; vm_compute; reflexivity.
Defined.

Lemma Incar_add_joins_or_raises_witness :
  let self : gmap string (@pyval DecFloat.t) :=
    <["NSW" := Scalar (VInt 10)]> (<["ISIF" := Scalar (VInt 3)]> ∅) in
  let other : gmap string (@pyval DecFloat.t) :=
    <["NSW" := Scalar (VInt 10)]> (<["SIGMA" := Scalar (VInt 1)]> ∅) in
  let clash : gmap string (@pyval DecFloat.t) := <["NSW" := Scalar (VInt 99)]> ∅ in
  (fun r => (r !! "NSW", r !! "ISIF", r !! "SIGMA")) <$> Incar_add ne_by_text self other
  = Ok (Some (Scalar (VInt 10)), Some (Scalar (VInt 3)), Some (Scalar (VInt 1)))
  ∧ Incar_add ne_by_text self clash = Raise ValueError.
Proof.
  intros self other clash. split.
  - rewrite (proj1 (Incar_add_joins_or_raises ne_by_text self other)).
    + vm_compute; reflexivity.
    + intros k v w Hv Hw.
      destruct (decide (k = "NSW")) as [-> | Hne].
      * vm_compute in Hv, Hw. injection Hv as <-. injection Hw as <-. reflexivity.
      * unfold other, self in Hv, Hw.
        rewrite lookup_insert_ne in Hv, Hw by done.
        apply lookup_insert_Some in Hv as [[<- _] | [_ Hv]]; [|by rewrite lookup_empty in Hv].
        rewrite lookup_insert_ne in Hw by done. by rewrite lookup_empty in Hw.
  - apply (proj1 (proj2 (Incar_add_joins_or_raises ne_by_text self clash))).
    exists "NSW", (Scalar (VInt 99)), (Scalar (VInt 10)).
    repeat split; vm_compute; reflexivity.
Defined.

(** ** Poscar *)

Lemma neighbours_differ_snoc (l : list string) (c x : string) :
  neighbours_differ (l ++ [c]) -> c ≠ x -> neighbours_differ ((l ++ [c]) ++ [x]).
Proof.
  induction l as [|a l IH]; simpl; intros Hl Hne; [done|].
  destruct l as [|b l]; simpl in *.
  - destruct Hl as [Hab _]. done.
  - destruct Hl as [Hab Hl]. split; [done|]. by apply IH.
Qed.

Lemma item_middle {A} (l1 l2 : list A) (x : A) (k : nat) :
  k = length l1 -> item (l1 ++ x :: l2) k = Ok x.
Proof. intros ->. unfold item. by rewrite list_lookup_middle. Qed.

Lemma site_elements_from (before_s after_s : list string) (before_n after_n : list Z)
    (k : nat) :
  k = length before_s -> k = length before_n ->
  (length after_s <= length after_n)%nat ->
  mapM_res (fun i : nat =>
              s ← item (before_s ++ after_s) i;
              n ← item (before_n ++ after_n) i;
              Ok (replicate (Z.to_nat n) s))
           (seq k (length after_s))
  = Ok (zip_with (fun s n => replicate (Z.to_nat n) s) after_s after_n).
Proof.
  revert before_s before_n after_n k.
  induction after_s as [|a after_s IH]; intros before_s before_n after_n k Hs Hn Hle;
    [reflexivity|].
  destruct after_n as [|b after_n]; simpl in Hle; [lia|].
  cbn [length seq mapM_res].
  rewrite (item_middle before_s after_s a k Hs), (item_middle before_n after_n b k Hn).
  simpl.
  specialize (IH (before_s ++ [a]) (before_n ++ [b]) after_n (S k)).
  rewrite <- !app_assoc in IH. simpl in IH.
  rewrite IH; [reflexivity| | |lia]; rewrite length_app; simpl; lia.
Qed.

(** The loop of [set_site_symbols] with no more symbols than amounts. *)
Lemma site_elements_zip (symbols : list string) (natoms : list Z) :
  (length symbols <= length natoms)%nat ->
  site_elements symbols natoms
  = Ok (concat (zip_with (fun s n => replicate (Z.to_nat n) s) symbols natoms)).
Proof.
  intros Hle. unfold site_elements.
  pose proof (site_elements_from [] symbols [] natoms 0 eq_refl eq_refl Hle) as H.
  simpl in H. by rewrite H.
Qed.

Lemma item_beyond {A} (l : list A) (k : nat) :
  (length l <= k)%nat -> item l k = Raise IndexError.
Proof. intros Hk. unfold item. by rewrite lookup_ge_None_2. Qed.

Lemma site_elements_from_short (before_s after_s : list string)
    (before_n after_n : list Z) (k : nat) :
  k = length before_s -> k = length before_n ->
  (length after_n < length after_s)%nat ->
  mapM_res (fun i : nat =>
              s ← item (before_s ++ after_s) i;
              n ← item (before_n ++ after_n) i;
              Ok (replicate (Z.to_nat n) s))
           (seq k (length after_s))
  = Raise IndexError.
Proof.
  revert before_s before_n after_n k.
  induction after_s as [|a after_s IH]; intros before_s before_n after_n k Hs Hn Hlt;
    [simpl in Hlt; lia|].
  cbn [length seq mapM_res].
  rewrite (item_middle before_s after_s a k Hs).
  destruct after_n as [|b after_n].
  - rewrite (item_beyond (before_n ++ []) k); [reflexivity|].
    rewrite app_nil_r. lia.
  - rewrite (item_middle before_n after_n b k Hn). simpl.
    specialize (IH (before_s ++ [a]) (before_n ++ [b]) after_n (S k)).
    rewrite <- !app_assoc in IH. simpl in IH.
    rewrite IH; [reflexivity| | |simpl in Hlt; lia]; rewrite length_app; simpl; lia.
Qed.

(** With more symbols than amounts the loop runs out of amounts. *)
Lemma site_elements_short (symbols : list string) (natoms : list Z) :
  (length natoms < length symbols)%nat -> site_elements symbols natoms = Raise IndexError.
Proof.
  intros Hlt. unfold site_elements.
  pose proof (site_elements_from_short [] symbols [] natoms 0 eq_refl eq_refl Hlt) as H.
  simpl in H. by rewrite H.
Qed.

Section PoscarFacts.
Context {float : Type} `{!PyFloat float}.
Variable formula : Structure (float:=float) -> string.
Variable Structure_new :
  matrix (float:=float) -> list string -> matrix (float:=float)
  -> res (Structure (float:=float)).
Local Abbreviation Structure := (@Structure float).
Local Abbreviation Poscar := (@Poscar float).

(** What the loop over the sites keeps. *)
Lemma count_site_invariant (l : list string) :
  ∀ symbols amounts c a symbols' amounts' c' a',
    length symbols = length amounts -> 1 <= a -> Forall (fun n => 1 <= n) amounts ->
    neighbours_differ (symbols ++ [c]) ->
    foldl count_site (symbols, amounts, c, a) l = (symbols', amounts', c', a') ->
    length symbols' = length amounts' ∧ 1 <= a' ∧ Forall (fun n => 1 <= n) amounts'
    ∧ neighbours_differ (symbols' ++ [c'])
    ∧ concat (zip_with (fun s n => replicate (Z.to_nat n) s)
                (symbols' ++ [c']) (amounts' ++ [a']))
      = concat (zip_with (fun s n => replicate (Z.to_nat n) s)
                  (symbols ++ [c]) (amounts ++ [a])) ++ l
    ∧ foldr Z.add 0 (amounts' ++ [a']) = foldr Z.add 0 (amounts ++ [a]) + Z.of_nat (length l).
Proof.
  induction l as [|x l IH]; intros symbols amounts c a symbols' amounts' c' a'
    Hlen Ha Hamounts Hdiff Hfold.
  - simpl in Hfold. injection Hfold as <- <- <- <-.
    repeat split; try done. by rewrite app_nil_r. simpl. lia.
  - cbn [foldl] in Hfold. unfold count_site at 2 in Hfold.
    destruct (String.eqb x c) eqn:Hx.
    + apply String.eqb_eq in Hx. subst x.
      assert (Ha1 : 1 <= a + 1) by lia.
      destruct (IH symbols amounts c (a + 1) symbols' amounts' c' a'
                  Hlen Ha1 Hamounts Hdiff Hfold)
        as (I1 & I2 & I3 & I4 & I5 & I6).
      repeat split; try done.
      * rewrite I5. rewrite !zip_with_app by done. rewrite !concat_app. simpl.
        rewrite !app_nil_r.
        replace (Z.to_nat (a + 1)) with (S (Z.to_nat a)) by lia.
        rewrite replicate_S_end, <- !app_assoc. reflexivity.
      * rewrite I6, !foldr_app. simpl.
        assert (Hsum : ∀ (l0 : list Z) z, foldr Z.add z l0 = foldr Z.add 0 l0 + z).
        { induction l0 as [|y l0 IHl]; intros z; simpl; [lia|]. rewrite IHl. lia. }
        rewrite (Hsum amounts (a + 1 + 0)), (Hsum amounts (a + 0)). lia.
    + apply String.eqb_neq in Hx.
      assert (Hlen' : length (symbols ++ [c]) = length (amounts ++ [a]))
        by (rewrite !length_app; simpl; lia).
      assert (H1 : 1 <= 1) by lia.
      assert (Hall : Forall (fun n => 1 <= n) (amounts ++ [a]))
        by (apply Forall_app; split; [done|by constructor]).
      assert (Hnb : neighbours_differ ((symbols ++ [c]) ++ [x]))
        by (apply neighbours_differ_snoc; [done|congruence]).
      destruct (IH (symbols ++ [c]) (amounts ++ [a]) x 1 symbols' amounts' c' a'
                  Hlen' H1 Hall Hnb Hfold)
        as (I1 & I2 & I3 & I4 & I5 & I6).
      repeat split; try done.
      * rewrite I5. rewrite (zip_with_app _ (symbols ++ [c]) [x]) by done.
        rewrite concat_app. simpl. by rewrite <- app_assoc.
      * rewrite I6, !foldr_app. simpl.
        assert (Hsum : ∀ (l0 : list Z) z, foldr Z.add z l0 = foldr Z.add 0 l0 + z).
        { induction l0 as [|y l0 IHl]; intros z; simpl; [lia|]. rewrite IHl. lia. }
        rewrite (Hsum amounts (a + (1 + 0))), (Hsum amounts (a + 0)). lia.
Qed.

(** [Poscar(struct)] on a structure with a first site. *)
Lemma Poscar_init_ok (struct : Structure) (text : option string)
    (first : string) (rest : list string) :
  st_species struct = first :: rest ->
  ∃ symbols amounts,
    Poscar_init formula struct text
    = Ok {| _struct := struct; _site_symbols := symbols; _natoms := amounts;
            _true_names := true; _selective_dynamics := None;
            comment := default (formula struct) text |}
    ∧ length amounts = length symbols
    ∧ Forall (fun n => 1 <= n) amounts
    ∧ foldr Z.add 0 amounts = Z.of_nat (length (st_species struct))
    ∧ neighbours_differ symbols
    ∧ concat (zip_with (fun s n => replicate (Z.to_nat n) s) symbols amounts)
      = st_species struct.
Proof.
  intros Hspecies. unfold Poscar_init. rewrite Hspecies.
  simpl. rewrite String.eqb_refl.
  destruct (foldl count_site ([], [], first, 0 + 1) rest) as [[[symbols amounts] c] a]
    eqn:Hfold.
  assert (H1 : 1 <= 0 + 1) by lia.
  destruct (count_site_invariant rest [] [] first (0 + 1) symbols amounts c a
              eq_refl H1 (Forall_nil_2 _) I Hfold)
    as (I1 & I2 & I3 & I4 & I5 & I6).
  eexists _, _. split; [reflexivity|]. repeat split.
  - rewrite !length_app. simpl. lia.
  - apply Forall_app. split; [done|by constructor].
  - rewrite I6. simpl. lia.
  - done.
  - by rewrite I5.
Qed.

(** X9.  [Poscar(struct)] groups the sites of the structure, in their
    order, into runs of one symbol: as many amounts as symbols, every
    amount at least one and their sum the number of sites, no two
    neighbouring groups of one symbol, and the symbols repeated by their
    amounts are the symbols of the sites.  A structure without sites
    raises IndexError. *)
Theorem Poscar_groups_sites (struct : Structure) (text : option string) :
  (st_species struct = [] -> Poscar_init formula struct text = Raise IndexError)
  ∧ (st_species struct ≠ [] ->
     ∃ p : Poscar,
       Poscar_init formula struct text = Ok p
       ∧ _struct p = struct
       ∧ length (_natoms p) = length (_site_symbols p)
       ∧ Forall (fun n => 1 <= n) (_natoms p)
       ∧ foldr Z.add 0 (_natoms p) = Z.of_nat (length (st_species struct))
       ∧ neighbours_differ (_site_symbols p)
       ∧ concat (zip_with (fun s n => replicate (Z.to_nat n) s)
                   (_site_symbols p) (_natoms p))
         = st_species struct).
Proof.
  split.
  - intros Hnone. unfold Poscar_init. by rewrite Hnone.
  - intros Hne. destruct (st_species struct) as [|first rest] eqn:Hspecies; [done|].
    destruct (Poscar_init_ok struct text first rest Hspecies)
      as (symbols & amounts & Hinit & F1 & F2 & F3 & F4 & F5).
    eexists. split; [exact Hinit|]. simpl. rewrite Hspecies in F3, F5. by repeat split.
Qed.

(** X10.  [set_site_symbols] gives every group of sites its new symbol and
    keeps the amounts.  With more symbols than groups it raises IndexError
    before the structure is rebuilt.  Otherwise [Structure(...)] is called
    with the lattice of the old structure, the symbols repeated by the
    amounts of their groups, and the coordinates of the old structure, and
    its outcome decides: its exception is the result, its structure is
    the structure of the object.  With the symbols that [Poscar(struct)]
    found, and a constructor that gives [struct] back from the lattice,
    the symbols and the coordinates of [struct], the object is left as it
    is. *)
Theorem set_site_symbols_by_groups (symbols : list string) (p : Poscar) :
  ((length (_natoms p) < length symbols)%nat ->
   set_site_symbols Structure_new symbols p = Raise IndexError)
  ∧ ((length symbols <= length (_natoms p))%nat ->
     set_site_symbols Structure_new symbols p
     = s ← Structure_new (st_lattice (_struct p))
           (concat (zip_with (fun s n => replicate (Z.to_nat n) s) symbols (_natoms p)))
           (st_coords (_struct p));
       Ok {| _struct := s; _site_symbols := symbols; _natoms := _natoms p;
             _true_names := true; _selective_dynamics := _selective_dynamics p;
             comment := comment p |})
  ∧ (∀ struct text, Poscar_init formula struct text = Ok p ->
       symbols = _site_symbols p ->
       Structure_new (st_lattice struct) (st_species struct) (st_coords struct)
       = Ok struct ->
       set_site_symbols Structure_new symbols p = Ok p).
Proof.
  split; [|split].
  - intros Hlt. unfold set_site_symbols. by rewrite site_elements_short.
  - intros Hle. unfold set_site_symbols. by rewrite site_elements_zip by done.
  - intros struct text Hinit -> Hnew.
    destruct (st_species struct) as [|first rest] eqn:Hspecies.
    { unfold Poscar_init in Hinit. by rewrite Hspecies in Hinit. }
    destruct (Poscar_init_ok struct text first rest Hspecies)
      as (syms & amounts & Hok & F1 & _ & _ & _ & F5).
    rewrite Hok in Hinit. injection Hinit as <-.
    unfold set_site_symbols. simpl. rewrite site_elements_zip by lia. simpl.
    rewrite F5, Hspecies, Hnew. reflexivity.
Qed.

End PoscarFacts.

Lemma Poscar_groups_sites_witness :
  let struct : @Structure DecFloat.t :=
    {| st_lattice := []; st_species := ["Fe"; "Fe"; "O"; "Fe"]; st_coords := [] |} in
  (fun p => (_site_symbols p, _natoms p)) <$> Poscar_init (fun _ => "Fe3 O1") struct None
  = Ok (["Fe"; "O"; "Fe"], [2; 1; 1]).
Proof.
  intros struct.
  destruct (proj2 (Poscar_groups_sites (fun _ => "Fe3 O1") struct None))
    as (p & Hinit & _).
  - discriminate.
  - rewrite Hinit. vm_compute in Hinit. injection Hinit as <-. reflexivity.
Defined.

Lemma set_site_symbols_by_groups_witness :
  let origin := [DecFloat.Dec 0 0; DecFloat.Dec 0 0; DecFloat.Dec 0 0] in
  let struct : @Structure DecFloat.t :=
    {| st_lattice := []; st_species := ["Fe"; "Fe"; "O"];
       st_coords := [origin; origin; origin] |} in
  let p := result_or {| _struct := struct; _site_symbols := []; _natoms := [];
                        _true_names := false; _selective_dynamics := None;
                        comment := "" |}
             (Poscar_init (fun _ => "Fe2 O1") struct None) in
  set_site_symbols checked_structure ["Fe"; "O"; "H"] p = Raise IndexError
  ∧ set_site_symbols checked_structure ["Co"] p = Raise ValueError
  ∧ (fun q => st_species (_struct q)) <$> set_site_symbols checked_structure ["Co"; "N"] p
    = Ok ["Co"; "Co"; "N"]
  ∧ set_site_symbols checked_structure ["Fe"; "O"] p = Ok p.
Proof.
  intros origin struct p. split; [|split; [|split]].
  - apply (proj1 (set_site_symbols_by_groups (fun _ => "Fe2 O1") checked_structure
                    ["Fe"; "O"; "H"] p)).
    vm_compute. lia.
  - rewrite (proj1 (proj2 (set_site_symbols_by_groups (fun _ => "Fe2 O1")
                             checked_structure ["Co"] p))).
    + reflexivity.
    + vm_compute. lia.
  - rewrite (proj1 (proj2 (set_site_symbols_by_groups (fun _ => "Fe2 O1")
                             checked_structure ["Co"; "N"] p))).
    + reflexivity.
    + vm_compute. lia.
  - apply (proj2 (proj2 (set_site_symbols_by_groups (fun _ => "Fe2 O1")
                           checked_structure ["Fe"; "O"] p))
             struct None); reflexivity.
Defined.

(** ** The handler: text in pieces *)

Section HandlerFacts.
Context {float : Type} `{!PyFloat float} `{!FileSystem}.
Local Abbreviation handler := (@handler float).

(** X11.  Text that arrives in two pieces is the text that arrives in
    one: the handler appends every piece to the buffers that are open, so
    the two events leave it as the one event does, failures included. *)
Theorem characters_in_pieces (a b : string) (rest : list event) (h : handler) :
  characters (a +:+ b) h = characters a h ≫= characters b
  ∧ feed (Characters (a +:+ b) :: rest) h = feed (Characters a :: Characters b :: rest) h.
Proof.
  assert (Hone : characters (a +:+ b) h = characters a h ≫= characters b).
  { unfold characters.
    destruct (read_val h) as [[|]|] eqn:Hrv; simpl; [| |reflexivity].
    - destruct (val h) as [v|] eqn:Hv; simpl; [|reflexivity].
      destruct (read_lattice h) eqn:Hl; simpl;
        [destruct (latticestr h) as [t|] eqn:Ht
        |destruct (read_positions h) eqn:Hp; [destruct (posstr h) as [t|] eqn:Ht|]];
        repeat (simpl; rewrite ?Hrv, ?Hl, ?Hp, ?Ht); rewrite ?append_assoc_str; reflexivity.
    - destruct (read_lattice h) eqn:Hl; simpl;
        [destruct (latticestr h) as [t|] eqn:Ht
        |destruct (read_positions h) eqn:Hp; [destruct (posstr h) as [t|] eqn:Ht|]];
        repeat (simpl; rewrite ?Hrv, ?Hl, ?Hp, ?Ht); rewrite ?append_assoc_str; reflexivity. }
  split; [exact Hone|].
  simpl. rewrite Hone. by destruct (characters a h).
Qed.


(** ** The handler: what the input part fills stays as it is *)

Lemma start_section_inputs name (h : handler) :
  inputs (start_section name (start_in_structure name (start_in_calculation name h)))
  = inputs h.
Proof.
  unfold start_section, start_in_structure, start_in_calculation.
  repeat case_match; reflexivity.
Qed.

Lemma start_eigen_dos_inputs name attrs (h h' : handler) :
  start_eigen_dos name attrs h = Ok h' -> inputs h' = inputs h.
Proof.
  unfold start_eigen_dos, start_eigen_set, start_dos_set. intros Hs.
  ok_inv; try reflexivity.
  all: repeat case_match; reflexivity.
Qed.

Lemma start_body_inputs name attrs (h h' : handler) :
  start_body name attrs h = Ok h' -> inputs h' = inputs h.
Proof.
  unfold start_body. intros Hs.
  by rewrite (start_eigen_dos_inputs _ _ _ _ Hs), start_section_inputs.
Qed.

Lemma startElement_inputs name attrs (h h' : handler) :
  input_read h = true -> startElement name attrs h = Ok h' -> inputs h' = inputs h.
Proof.
  unfold startElement. intros Hin Hs.
  apply bind_ok in Hs. destruct Hs as (h1 & Hbr & Hs).
  assert (Hh' : inputs h' = inputs h1) by (ok_inv; reflexivity).
  rewrite Hh'. clear Hs Hh'.
  change (negb (input_read _)) with (negb (input_read h)) in Hbr.
  rewrite Hin in Hbr. simpl in Hbr.
  by rewrite (start_body_inputs _ _ _ _ Hbr).
Qed.

Lemma characters_inputs data (h h' : handler) :
  characters data h = Ok h' -> inputs h' = inputs h.
Proof. unfold characters. intros Hs. ok_inv; reflexivity. Qed.

Lemma end_calculation_inputs name (h h' : handler) :
  end_calculation name h = Ok h' -> inputs h' = inputs h.
Proof. unfold end_calculation. intros Hs. ok_inv; reflexivity. Qed.

Lemma end_structure_inputs name (h h' : handler) :
  end_structure name h = Ok h' -> inputs h' = inputs h.
Proof. unfold end_structure. intros Hs. ok_inv; reflexivity. Qed.

Lemma end_dos_inputs name (h h' : handler) :
  end_dos name h = Ok h' -> inputs h' = inputs h.
Proof.
  unfold end_dos, end_dos_total_row, end_dos_total_set, end_dos_partial_set,
    end_dos_partial.
  intros Hs. ok_inv; reflexivity.
Qed.

Lemma end_eigen_inputs name (h h' : handler) :
  end_eigen name h = Ok h' -> inputs h' = inputs h.
Proof. unfold end_eigen. intros Hs. ok_inv; reflexivity. Qed.

Lemma end_body_inputs name (h h' : handler) :
  end_body name h = Ok h' -> inputs h' = inputs h.
Proof.
  unfold end_body. intros Hs.
  apply bind_ok in Hs. destruct Hs as (h1 & Hcalc & Hrest).
  assert (H1 : inputs h1 = inputs h).
  { destruct (read_calculation h); [by eapply end_calculation_inputs|].
    by injection Hcalc as <-. }
  rewrite <- H1.
  destruct (read_structure h1); [by eapply end_structure_inputs|].
  destruct (read_dos h1); [by eapply end_dos_inputs|].
  destruct (read_eigen h1); [by eapply end_eigen_inputs|].
  by injection Hrest as <-.
Qed.

Lemma endElement_inputs name (h h' : handler) :
  input_read h = true -> endElement name h = Ok h' -> inputs h' = inputs h.
Proof.
  unfold endElement. intros Hin Hs. rewrite Hin in Hs. simpl in Hs.
  apply bind_ok in Hs. destruct Hs as (h1 & Hbr & Hs).
  injection Hs as <-. by rewrite <- (end_body_inputs _ _ _ Hbr).
Qed.

Lemma feed_inputs (evs : list event) (h h' : handler) :
  input_read h = true -> feed evs h = Ok h' -> inputs h' = inputs h.
Proof.
  revert h. induction evs as [|ev rest IH]; simpl; intros h Hin Hfeed.
  - by injection Hfeed as <-.
  - apply bind_ok in Hfeed. destruct Hfeed as (h1 & Hev & Hrest).
    assert (H1 : inputs h1 = inputs h).
    { destruct ev as [name attrs | data | name]; simpl in Hev.
      - by eapply startElement_inputs.
      - by eapply characters_inputs.
      - by eapply endElement_inputs. }
    rewrite <- H1. apply IH; [|exact Hrest].
    unfold inputs in H1. injection H1 as E _. by rewrite E.
Qed.

(** X12.  Once the table of the element types has closed, nothing of what
    the input part of the document fills changes any more: the tables
    [incar] and [parameters], the k-points, the symbols and the version of
    a result are those at that point, whatever elements of those names
    follow. *)
Theorem inputs_settled_by_input_part (fname : string) (evs more : list event)
    (h h' : handler) :
  Vasprun fname evs = Ok h -> input_read h = true ->
  Vasprun fname (evs ++ more) = Ok h' ->
  input_read h' = true ∧ vasp_version h' = vasp_version h
  ∧ incar h' = incar h ∧ parameters h' = parameters h
  ∧ potcar_symbols h' = potcar_symbols h ∧ atomic_symbols h' = atomic_symbols h
  ∧ kpoints h' = kpoints h ∧ actual_kpoints h' = actual_kpoints h
  ∧ actual_kpoints_weights h' = actual_kpoints_weights h.
Proof.
  unfold Vasprun. intros Hrun Hin Hmore.
  rewrite feed_app, Hrun in Hmore. simpl in Hmore.
  pose proof (feed_inputs more h h' Hin Hmore) as Hi. unfold inputs in Hi.
  injection Hi as E1 E2 E3 E4 E5 E6 E7 E8 E9.
  rewrite E1. by repeat split.
Qed.

End HandlerFacts.

Lemma inputs_settled_by_input_part_witness :
  let late := [elem "incar"; StartElement "i" {["type" := "int"; "name" := "NSW"]};
               Characters "99"; EndElement "i"; EndElement "incar"] in
  let h := result_or (handler_init "")
             (@Vasprun _ dec_float run_dir_with_incar "/run/vasprun.xml" ex_header) in
  let h' := result_or (handler_init "")
              (@Vasprun _ dec_float run_dir_with_incar "/run/vasprun.xml"
                 (ex_header ++ late)) in
  incar h' !! "NSW" = Some (Scalar (VInt 10)).
Proof.
  intros late h h'.
  destruct (@inputs_settled_by_input_part _ dec_float run_dir_with_incar
              "/run/vasprun.xml" ex_header late h h')
    as (_ & _ & -> & _).
  - apply ok_result_or. vm_compute; reflexivity.
  - vm_compute; reflexivity.
  - apply ok_result_or. vm_compute; reflexivity.
  - vm_compute; reflexivity.
Defined.

(** ** The handler: the structures of a result *)

Section StructureFacts.
Context {float : Type} `{!PyFloat float} `{!FileSystem}.
Local Abbreviation handler := (@handler float).

(** The close of an element in a structure section appends at most one
    structure, reshaped to three rows of three and one row of three for
    each atomic symbol. *)
Lemma end_structure_shape name (h h1 : handler) :
  end_structure name h = Ok h1 ->
  structures h1 = structures h
  ∨ ∃ s, structures h1 = structures h ++ [s] ∧ well_shaped s.
Proof.
  unfold end_structure. intros Hs. ok_inv; try (by left).
  right. eexists. split; [reflexivity|]. split; simpl.
  - by eapply reshape_shape.
  - by eapply reshape_shape.
Qed.

Lemma end_body_shape name (h h' : handler) :
  end_body name h = Ok h' ->
  structures h' = structures h
  ∨ ∃ s, structures h' = structures h ++ [s] ∧ well_shaped s.
Proof.
  unfold end_body. intros Hs.
  apply bind_ok in Hs. destruct Hs as (h1 & Hcalc & Hrest).
  assert (H1 : structures h1 = structures h).
  { destruct (read_calculation h); [|by injection Hcalc as <-].
    by destruct (end_calculation_effect _ _ _ Hcalc) as (_ & _ & ? & _). }
  rewrite <- H1.
  destruct (read_structure h1); [by eapply end_structure_shape|].
  left.
  assert (Ht : tracked h' = tracked h1).
  { destruct (read_dos h1); [by eapply end_dos_tracked|].
    destruct (read_eigen h1); [by eapply end_eigen_tracked|].
    by injection Hrest as <-. }
  unfold tracked in Ht. by injection Ht.
Qed.

Lemma handle_shape (ev : event) (h h' : handler) :
  handle ev h = Ok h' ->
  structures h' = structures h
  ∨ ∃ s, structures h' = structures h ++ [s] ∧ well_shaped s.
Proof.
  destruct ev as [name attrs | data | name]; simpl; intros Hev.
  - left. pose proof (startElement_tracked _ _ _ _ Hev) as Ht.
    unfold tracked in Ht. by injection Ht.
  - left. pose proof (characters_tracked _ _ _ Hev) as Ht.
    unfold tracked in Ht. by injection Ht.
  - destruct (endElement_inv _ _ _ Hev) as (h1 & Hbr & Ht).
    unfold tracked in Ht. injection Ht as _ _ E _ _ _ _. rewrite E.
    destruct (input_read h).
    + by eapply end_body_shape.
    + left. by destruct (end_input_tracked _ _ _ Hbr) as (? & _).
Qed.

Lemma feed_shape (evs : list event) (h h' : handler) :
  feed evs h = Ok h' -> Forall well_shaped (structures h) ->
  Forall well_shaped (structures h').
Proof.
  revert h. induction evs as [|ev rest IH]; simpl; intros h Hfeed Hall.
  - by injection Hfeed as <-.
  - apply bind_ok in Hfeed. destruct Hfeed as (h1 & Hev & Hrest).
    apply (IH h1 Hrest).
    destruct (handle_shape _ _ _ Hev) as [-> | (s & -> & Hs)]; [done|].
    apply Forall_app. split; [done|by constructor].
Qed.

(** X13.  Every structure of a result has a lattice of three rows of
    three, the atomic symbols of the result as its symbols, and one row of
    three coordinates for each of them; so have the initial and the final
    structure, which exist exactly when some structure was recorded. *)
Theorem recorded_structures_are_well_shaped (fname : string) (evs : list event)
    (h : handler) :
  Vasprun fname evs = Ok h ->
  Forall (fun s => well_shaped s ∧ st_species s = atomic_symbols h) (structures h)
  ∧ (structures h = [] ->
     initial_structure h = Raise IndexError ∧ final_structure h = Raise IndexError)
  ∧ (structures h ≠ [] ->
     ∃ s0 s1, initial_structure h = Ok s0 ∧ final_structure h = Ok s1
              ∧ well_shaped s0 ∧ well_shaped s1
              ∧ st_species s0 = atomic_symbols h ∧ st_species s1 = atomic_symbols h).
Proof.
  intros Hrun.
  assert (Hall : Forall (fun s => well_shaped s ∧ st_species s = atomic_symbols h)
                   (structures h)).
  { apply Forall_and. split.
    - apply (feed_shape evs (handler_init fname) h Hrun). constructor.
    - by destruct (forces_fit_feed _ _ _ Hrun (forces_fit_init fname)) as (_ & ? & _). }
  split; [exact Hall|]. unfold initial_structure, final_structure, item, last_item.
  split.
  - intros ->. by split.
  - intros Hne.
    destruct (structures h) as [|s0 l] eqn:Hs; [done|].
    destruct (exists_last (l:=s0 :: l)) as (front & s1 & Hlast); [done|].
    exists s0, s1. split; [reflexivity|]. split; [by rewrite Hlast, last_snoc|].
    apply Forall_cons in Hall as Hhead. destruct Hhead as [[W0 E0] _].
    rewrite Hlast in Hall. apply Forall_app in Hall as [_ Hl].
    apply Forall_cons in Hl as [[W1 E1] _].
    exact (conj W0 (conj W1 (conj E0 E1))).
Qed.

End StructureFacts.

Lemma recorded_structures_are_well_shaped_witness :
  let h := result_or (handler_init "")
             (@Vasprun _ dec_float run_dir_with_incar "/run/vasprun.xml" ex_run) in
  length (structures h) = 2%nat
  ∧ Forall (fun s => well_shaped s ∧ st_species s = atomic_symbols h) (structures h).
Proof.
  intros h. split; [vm_compute; reflexivity|].
  apply (@recorded_structures_are_well_shaped _ dec_float run_dir_with_incar
           "/run/vasprun.xml" ex_run h).
  apply ok_result_or. vm_compute; reflexivity.
Defined.

(** ** The handler: the table of the element types *)

Lemma stride_from_lookup {A} (step : nat) (l : list A) :
  (0 < step)%nat ->
  ∀ start i, stride_from start step l !! i = l !! (start + i * step)%nat.
Proof.
  intros Hstep. destruct step as [|s]; [lia|]. clear Hstep.
  induction l as [|x r IH]; intros start i; [reflexivity|].
  destruct start as [|k]; simpl.
  - destruct i as [|j]; [reflexivity|]. simpl. rewrite IH.
    f_equal. lia.
  - apply IH.
Qed.

Section ElementTypes.
Context {float : Type} `{!PyFloat float} `{!FileSystem}.
Local Abbreviation handler := (@handler float).

(** X14.  The close of the [set] of the array [atomtypes] keeps of the
    cells read into the POTCAR symbols the fifth of every five (the
    entries 4, 9, 14, ...), leaves the atomic symbols as they are and ends
    the input part of the document. *)
Theorem atomtypes_close_keeps_every_fifth_entry (h : handler) :
  input_read h = false -> is_str (st h "array") "atomtypes" = true ->
  ∃ h', endElement "set" h = Ok h'
        ∧ input_read h' = true
        ∧ atomic_symbols h' = atomic_symbols h
        ∧ ∀ i : nat, potcar_symbols h' !! i = potcar_symbols h !! (5 * i + 4)%nat.
Proof.
  intros Hin Htypes.
  assert (Hatoms : is_str (st h "array") "atoms" = false).
  { destruct (st h "array") as [b|s]; [reflexivity|]. simpl in *.
    apply String.eqb_eq in Htypes. by subst. }
  unfold endElement, end_input, end_input_set. rewrite Hin, Hatoms, Htypes. simpl.
  eexists. split; [reflexivity|]. simpl. repeat split.
  intros i. rewrite stride_from_lookup by lia. f_equal. lia.
Qed.

End ElementTypes.

Lemma atomtypes_close_keeps_every_fifth_entry_witness :
  let h := result_or (handler_init "")
             (@Vasprun _ dec_float run_dir_with_incar "/run/vasprun.xml"
                ex_open_atomtypes) in
  ∃ h', @endElement _ dec_float run_dir_with_incar "set" h = Ok h'
        ∧ input_read h' = true
        ∧ potcar_symbols h' = ["PAW_PBE Fe 06Sep2000"; "PAW_PBE O 08Apr2002"].
Proof.
  intros h.
  destruct (@atomtypes_close_keeps_every_fifth_entry _ dec_float run_dir_with_incar h)
    as (h' & Hend & Hin & _ & Hpot).
  - vm_compute; reflexivity.
  - vm_compute; reflexivity.
  - exists h'. split; [exact Hend|]. split; [exact Hin|].
    apply list_eq. intros i. rewrite Hpot.
    destruct i as [|[|i]]; try (vm_compute; reflexivity).
    replace (5 * S (S i) + 4)%nat with (14 + 5 * i)%nat by lia.
    vm_compute; reflexivity.
Defined.

(** ** The final energy of a result *)

Section FinalEnergy.
Context {float : Type} `{!PyFloat float} `{!FileSystem}.
Local Abbreviation handler := (@handler float).

(** X15.  After the close of a calculation section the final energy of
    the result is the entry [e_wo_entrp] of the last convergence iteration
    of that section: IndexError when the section had no iteration, which
    the parse itself accepts, KeyError when the iteration has no such
    entry. *)
Theorem final_energy_of_last_iteration (h : handler) (data : list ElectronicStep)
    (s : Structure) (f t : matrix) :
  input_read h = true -> read_calculation h = true ->
  scdata h = Some data -> last (structures h) = Some s ->
  forces h = Some f -> stress h = Some t ->
  ∃ h', endElement "calculation" h = Ok h'
        ∧ final_energy h'
          = match last data with
            | None => Raise IndexError
            | Some sc =>
                match sc !! SStr "e_wo_entrp" with
                | Some e => Ok e
                | None => Raise KeyError
                end
            end.
Proof.
  intros Hin Hrc Hdata Hs Hf Ht.
  destruct (calculation_close_appends h data s f t Hin Hrc Hdata Hs Hf Ht)
    as (h' & Hend & Hsteps).
  exists h'. split; [exact Hend|].
  unfold final_energy, last_item. rewrite Hsteps, last_snoc. simpl.
  by destruct (last data).
Qed.

End FinalEnergy.

Lemma final_energy_of_last_iteration_witness :
  let state_of evs :=
    result_or (handler_init "")
      (@Vasprun _ dec_float run_dir_with_incar "/run/vasprun.xml" evs) in
  (∃ h', @endElement _ dec_float run_dir_with_incar "calculation" (state_of ex_open_run)
         = Ok h'
         ∧ final_energy h' = Ok (DecFloat.Dec (-105) 1))
  ∧ (∃ h', @endElement _ dec_float run_dir_with_incar "calculation"
             (state_of ex_open_without_scstep) = Ok h'
           ∧ final_energy h' = Raise IndexError).
Proof.
  intros state_of.
  pose (blank := {| st_lattice := []; st_species := []; st_coords := [] |}
                 : @Structure DecFloat.t).
  split.
  - set (h := state_of ex_open_run).
    destruct (@final_energy_of_last_iteration _ dec_float run_dir_with_incar h
                (result_or [] (getattr (scdata h)))
                (result_or blank (last_item (structures h)))
                (result_or [] (getattr (forces h)))
                (result_or [] (getattr (stress h))))
      as (h' & Hend & Hfinal); try (vm_compute; reflexivity).
    exists h'. split; [exact Hend|]. rewrite Hfinal. vm_compute; reflexivity.
  - set (h := state_of ex_open_without_scstep).
    destruct (@final_energy_of_last_iteration _ dec_float run_dir_with_incar h
                []
                (result_or blank (last_item (structures h)))
                (result_or [] (getattr (forces h)))
                (result_or [] (getattr (stress h))))
      as (h' & Hend & Hfinal); try (vm_compute; reflexivity).
    exists h'. split; [exact Hend|]. exact Hfinal.
Defined.

(** ** The projected densities of states *)

Lemma mapM_res_lookup {A B} (f : A -> res B) (l : list A) (r : list B) :
  mapM_res f l = Ok r ->
  length r = length l
  ∧ ∀ i x y, l !! i = Some x -> r !! i = Some y -> f x = Ok y.
Proof.
  revert r. induction l as [|a l IH]; simpl; intros r Hr.
  - injection Hr as <-. split; [reflexivity|]. intros i x y Hx. by destruct i.
  - apply bind_ok in Hr. destruct Hr as (b & Hb & Hr).
    apply bind_ok in Hr. destruct Hr as (bs & Hbs & Hr). injection Hr as <-.
    destruct (IH _ Hbs) as [Hlen Hall]. split; [simpl; lia|].
    intros [|i] x y Hx Hy; simpl in *.
    + injection Hx as <-. by injection Hy as <-.
    + by eapply Hall.
Qed.

Section ProjectedDos.
Context {float : Type} `{!PyFloat float} `{!FileSystem}.
Local Abbreviation handler := (@handler float).

Lemma make_pdos_entry (h : handler) (iatom : Z) (iorbital : nat) (p : PDos) :
  make_pdos h iatom iorbital = Ok p ->
  pdos_orbital p = iorbital ∧ pdos_efermi p = efermi h
  ∧ pdos_densities p !! Spin_up = pdos_get_opt (pdos h) (iatom, iorbital, Spin_up)
  ∧ is_Some (pdos_densities p !! Spin_up)
  ∧ pdos_densities p !! Spin_down
    = match pdos_get_opt (pdos h) (iatom, iorbital, Spin_down) with
      | Some (x :: l) => Some (x :: l)
      | _ => None
      end.
Proof.
  unfold make_pdos, pdos_getitem, pdos_get_opt. intros Hs.
  destruct (pdos h) as [d|l]; [|discriminate].
  destruct (d !! (iatom, iorbital, Spin_up)) as [updos|] eqn:Hup; [|discriminate].
  simpl in Hs.
  destruct (d !! (iatom, iorbital, Spin_down)) as [[|x l]|] eqn:Hdown;
    injection Hs as <-; simpl; repeat split; try done;
    rewrite ?lookup_insert_eq, ?lookup_insert_ne, ?lookup_singleton_eq,
      ?lookup_singleton_ne by done; try done; by eexists.
Qed.

(** X16.  The close of [partial] makes of the columns read one list for
    each atomic symbol, in the order of the atoms, and in it one entry for
    each orbital, in the order of the orbitals: the entry of atom [a] and
    orbital [i] holds the spin-up column read under ion [a + 1], which
    must exist, and the spin-down column when one was read and is not
    empty. *)
Theorem partial_close_lists_atoms_and_orbitals (h h' : handler) :
  input_read h = true -> read_structure h = false -> read_dos h = true ->
  endElement "partial" h = Ok h' ->
  ∃ l, pdos h' = PdosList l
       ∧ length l = length (atomic_symbols h)
       ∧ (l ≠ [] -> ∃ n, norbitals h = Some n ∧ Forall (fun row => length row = n) l)
       ∧ ∀ a row i p,
           l !! a = Some row -> row !! i = Some p ->
           pdos_orbital p = i ∧ pdos_efermi p = efermi h
           ∧ pdos_densities p !! Spin_up
             = pdos_get_opt (pdos h) (Z.of_nat (S a), i, Spin_up)
           ∧ is_Some (pdos_densities p !! Spin_up)
           ∧ pdos_densities p !! Spin_down
             = match pdos_get_opt (pdos h) (Z.of_nat (S a), i, Spin_down) with
               | Some (x :: r) => Some (x :: r)
               | _ => None
               end.
Proof.
  intros Hin Hrs Hrd.
  unfold endElement, end_body. rewrite Hin. simpl.
  rewrite end_calculation_skips by auto. simpl.
  rewrite Hrs, Hrd. unfold end_dos. simpl. unfold end_dos_partial.
  intros Hs. ok_inv. simpl.
  match goal with
  | H : mapM_res _ (seq 1 _) = Ok ?r |- _ => rename H into Hall; rename r into l
  end.
  exists l. destruct (mapM_res_lookup _ _ _ Hall) as [Hlen Hrows].
  rewrite length_seq in Hlen.
  split; [reflexivity|]. split; [exact Hlen|]. split.
  - intros Hne. destruct l as [|row0 rest] eqn:Ha; [done|].
    assert (Hfirst : seq 1 (length (atomic_symbols h)) !! 0%nat = Some 1%nat).
    { destruct (atomic_symbols h); [discriminate Hlen|reflexivity]. }
    pose proof (Hrows 0%nat 1%nat row0 Hfirst eq_refl) as H0. simpl in H0.
    destruct (norbitals h) as [n|] eqn:Hn; [|discriminate]. simpl in H0.
    exists n. split; [reflexivity|].
    apply Forall_forall. intros row Hrow.
    apply list_elem_of_lookup in Hrow as [k Hk].
    assert (Hseq : seq 1 (length (atomic_symbols h)) !! k = Some (1 + k)%nat).
    { apply lookup_seq. split; [reflexivity|].
      apply lookup_lt_Some in Hk. rewrite Hlen in Hk. exact Hk. }
    pose proof (Hrows k _ row Hseq Hk) as Hr. simpl in Hr.
    destruct (mapM_res_lookup _ _ _ Hr) as [Hl _]. by rewrite length_seq in Hl.
  - intros k row i p Hk Hi.
    assert (Hseq : seq 1 (length (atomic_symbols h)) !! k = Some (1 + k)%nat).
    { apply lookup_seq. split; [reflexivity|].
      apply lookup_lt_Some in Hk. rewrite Hlen in Hk. exact Hk. }
    pose proof (Hrows k _ row Hseq Hk) as Hr. simpl in Hr.
    destruct (norbitals h) as [n|] eqn:Hn; [|discriminate]. simpl in Hr.
    destruct (mapM_res_lookup _ _ _ Hr) as [Hl Hentries].
    assert (Hi' : seq 0 n !! i = Some i).
    { apply (lookup_seq 0 n i i). split; [reflexivity|].
      apply lookup_lt_Some in Hi. rewrite Hl, length_seq in Hi. exact Hi. }
    pose proof (Hentries i i p Hi' Hi) as Hp.
    apply make_pdos_entry in Hp.
    replace (Z.of_nat (S k)) with (Z.of_nat (1 + k)) by (f_equal; lia).
    exact Hp.
Qed.

End ProjectedDos.

Lemma partial_close_lists_atoms_and_orbitals_witness :
  let h := result_or (handler_init "")
             (@Vasprun _ dec_float run_dir_with_incar "/run/vasprun.xml"
                ex_partial_open) in
  let h' := result_or (handler_init "")
              (@endElement _ dec_float run_dir_with_incar "partial" h) in
  ∃ l, pdos h' = PdosList l ∧ length l = 2%nat
       ∧ Forall (fun row => length row = 2%nat) l.
Proof.
  intros h h'.
  destruct (@partial_close_lists_atoms_and_orbitals _ dec_float run_dir_with_incar h h')
    as (l & Hl & Hlen & Hrows & _).
  - vm_compute; reflexivity.
  - vm_compute; reflexivity.
  - vm_compute; reflexivity.
  - apply ok_result_or. vm_compute; reflexivity.
  - exists l. split; [exact Hl|].
    assert (Hn : length l = 2%nat) by (rewrite Hlen; vm_compute; reflexivity).
    split; [exact Hn|].
    destruct Hrows as (n & Hnorb & Hall); [by destruct l|].
    assert (H2 : n = 2%nat).
    { assert (Hc : norbitals h = Some 2%nat) by (vm_compute; reflexivity). congruence. }
    by rewrite H2 in Hall.
Defined.

(** ** The table of the eigenvalues *)

Lemma kpoint_comment (k : Z) :
  startswith ("kpoint " +:+ py_str_int k) "spin" = false
  ∧ startswith ("kpoint " +:+ py_str_int k) "kpoint" = true
  ∧ split_on " " ("kpoint " +:+ py_str_int k) = ["kpoint"; py_str_int k].
Proof.
  split; [reflexivity|]. split; [reflexivity|].
  change ("kpoint " +:+ py_str_int k) with (join " " ["kpoint"; py_str_int k]).
  apply (split_on_join " "); [done|].
  apply Forall_cons. split; [reflexivity|]. apply Forall_cons. split; [|constructor].
  eapply all_chars_impl; [|apply py_str_int_chars].
  intros c Hc. apply orb_prop in Hc as [Hc | Hc].
  - apply digit_not_space in Hc. unfold is_space in Hc.
    destruct (Ascii.eqb c " ") eqn:E; [|reflexivity].
    apply Ascii.eqb_eq in E. subst. discriminate.
  - apply Ascii.eqb_eq in Hc. by subst.
Qed.

Section Eigenvalues.
Context {float : Type} `{!PyFloat float} `{!FileSystem}.
Local Abbreviation handler := (@handler float).

Lemma st_other (h : handler) (n tag : string) (v : sval) :
  n ≠ tag -> default (SBool false) ((<[n := v]> (state h)) !! tag) = st h tag.
Proof. intros Hne. unfold st. by rewrite lookup_insert_ne. Qed.


(** The start of a row. *)
Lemma eigen_row_start (h : handler) (c : string) :
  input_read h = true -> read_structure h = false ->
  read_eigen h = true -> st h "set" = SStr c -> c ≠ "" ->
  ∃ h1, startElement "r" ∅ h = Ok h1
        ∧ val h1 = Some "" ∧ read_val h1 = Some true
        ∧ eigen_context h1 = eigen_context h ∧ raw_data h1 = raw_data h
        ∧ posstr h1 = posstr h.
Proof.
  intros Hin Hrs Hre Hset Hc.
  assert (Hst : ∀ v, default (SBool false) ((<["r" := v]> (state h)) !! "set") = SStr c).
  { intros v. by rewrite st_other, Hset. }
  unfold startElement, start_body, start_in_calculation, start_in_structure,
    start_section, start_eigen_dos.
  destruct (read_calculation h) eqn:Hrc;
    repeat (simpl; rewrite ?Hin, ?Hrc, ?Hrs, ?Hre);
    unfold st; simpl; rewrite Hst; simpl;
    (destruct c as [|x c]; [done|]); simpl;
    (eexists; split; [reflexivity|]); unfold eigen_context, st; simpl;
    rewrite Hst, Hrc; fold (st h "set"); by rewrite Hset.
Qed.

(** The text of a row. *)
Lemma eigen_row_text (text v : string) (h : handler) :
  read_val h = Some true -> val h = Some v -> text_accepted h ->
  ∃ h1, characters text h = Ok h1
        ∧ val h1 = Some (v +:+ text)
        ∧ eigen_context h1 = eigen_context h ∧ raw_data h1 = raw_data h
        ∧ text_accepted h1.
Proof.
  intros Hrv Hv [Hl Hp]. unfold characters, text_accepted.
  repeat (simpl; rewrite ?Hrv, ?Hv, ?Hl).
  destruct (read_positions h) eqn:Hrp.
  - destruct Hp as [Hp | [t Ht]]; [discriminate|].
    repeat (simpl; rewrite ?Hrp, ?Ht).
    eexists. split; [reflexivity|]. unfold eigen_context, st. simpl.
    rewrite Hrp, Hl. repeat split; eauto.
  - simpl. eexists. split; [reflexivity|]. unfold eigen_context, st. simpl.
    rewrite Hrp, Hl. repeat split; eauto.
Qed.

(** The close of a row. *)
Lemma eigen_row_end (h : handler) (c v : string) (row : list float) :
  input_read h = true -> read_structure h = false ->
  read_dos h = false -> read_eigen h = true ->
  st h "set" = SStr c -> startswith c "kpoint" = true ->
  val h = Some v -> floats_of_text v = Ok row ->
  ∃ h1, endElement "r" h = Ok h1
        ∧ eigen_context h1 = eigen_context h ∧ raw_data h1 = raw_data h ++ [row]
        ∧ posstr h1 = posstr h.
Proof.
  intros Hin Hrs Hrd Hre Hset Hc Hv Hrow.
  unfold endElement, end_body, end_calculation, end_eigen, getvalue.
  destruct (read_calculation h) eqn:Hrc;
    repeat (simpl; rewrite ?Hin, ?Hrc, ?Hrs, ?Hrd, ?Hre, ?Hset, ?Hc, ?Hv, ?Hrow);
    (eexists; split; [reflexivity|]); unfold eigen_context, st; simpl;
    rewrite lookup_insert_ne by done; rewrite ?Hrc; by repeat split.
Qed.

(** A whole row. *)
Lemma eigen_row (h : handler) (c text : string) (row : list float) :
  input_read h = true -> read_structure h = false ->
  read_dos h = false -> read_eigen h = true ->
  st h "set" = SStr c -> startswith c "kpoint" = true ->
  text_accepted h -> floats_of_text text = Ok row ->
  ∃ h1, feed (leaf "r" text) h = Ok h1
        ∧ eigen_context h1 = eigen_context h ∧ raw_data h1 = raw_data h ++ [row]
        ∧ text_accepted h1.
Proof.
  intros Hin Hrs Hrd Hre Hset Hc Hacc Hrow.
  assert (Hne : c ≠ "") by (intros ->; discriminate).
  destruct (eigen_row_start h c Hin Hrs Hre Hset Hne)
    as (h1 & H1 & Hv1 & Hrv1 & C1 & R1 & P1).
  assert (Hacc1 : text_accepted h1).
  { unfold text_accepted in *. unfold eigen_context in C1.
    injection C1 as _ _ _ _ _ E6 E7 _ _ _ _. rewrite E6, E7, P1. exact Hacc. }
  destruct (eigen_row_text text "" h1 Hrv1 Hv1 Hacc1) as (h2 & H2 & Hv2 & C2 & R2 & Hacc2).
  assert (C12 : eigen_context h2 = eigen_context h) by congruence.
  unfold eigen_context in C12.
  injection C12 as E1 E2 E3 E4 E5 E6 E7 E8 E9 E10 E11.
  assert (Hset2 : st h2 "set" = SStr c) by congruence.
  assert (Hv2' : val h2 = Some text) by exact Hv2.
  destruct (eigen_row_end h2 c text row ltac:(congruence) ltac:(congruence)
              ltac:(congruence) ltac:(congruence) Hset2 Hc Hv2' Hrow)
    as (h3 & H3 & C3 & R3 & P3).
  exists h3. split.
  - unfold leaf, elem. simpl. rewrite H1. simpl. rewrite H2. simpl. by rewrite H3.
  - split; [congruence|]. split; [congruence|].
    unfold text_accepted in *. unfold eigen_context in C3.
    injection C3 as _ _ _ _ _ F6 F7 _ _ _ _. rewrite F6, F7, P3. exact Hacc2.
Qed.

(** The rows of a set, one after the other. *)
Lemma eigen_rows (c : string) (texts : list string) (rows : list (list float)) :
  startswith c "kpoint" = true ->
  Forall2 (fun text row => floats_of_text text = Ok row) texts rows ->
  ∀ h : handler,
    input_read h = true -> read_structure h = false ->
    read_dos h = false -> read_eigen h = true ->
    st h "set" = SStr c -> text_accepted h ->
    ∃ h1, feed (concat (map (leaf "r") texts)) h = Ok h1
          ∧ eigen_context h1 = eigen_context h ∧ raw_data h1 = raw_data h ++ rows
          ∧ text_accepted h1.
Proof.
  intros Hc. induction 1 as [|text row texts rows Hrow _ IH];
    intros h Hin Hrs Hrd Hre Hset Hacc.
  - exists h. simpl. by rewrite app_nil_r.
  - destruct (eigen_row h c text row Hin Hrs Hrd Hre Hset Hc Hacc Hrow)
      as (h1 & H1 & C1 & R1 & A1).
    pose proof C1 as C1'. unfold eigen_context in C1'.
    injection C1' as E1 E2 E3 E4 E5 E6 E7 E8 E9 E10 E11.
    destruct (IH h1) as (h2 & H2 & C2 & R2 & A2); try congruence.
    exists h2. split.
    + change (concat (map (leaf "r") (text :: texts)))
        with (leaf "r" text ++ concat (map (leaf "r") texts)).
      by rewrite feed_app, H1.
    + split; [congruence|]. split; [|exact A2].
      rewrite R2, R1, <- app_assoc. reflexivity.
Qed.

(** X17.  A k-point set of the eigenvalues section whose rows are read
    as numbers is stored under the pair of the number in its comment and
    the spin of the enclosing spin set, with all its rows in their order;
    the row buffer is left empty for the next set.  This holds inside a
    calculation section, where the eigenvalues of a document lie, as well
    as outside. *)
Theorem kpoint_set_is_stored (h : handler) (k : Z) (s : Spin) (texts : list string)
    (rows : list (list float)) :
  input_read h = true -> read_structure h = false ->
  read_dos h = false -> read_eigen h = true -> text_accepted h ->
  eigen_spin h = Some s -> raw_data h = [] ->
  Forall2 (fun text row => floats_of_text text = Ok row) texts rows ->
  ∃ h', feed (kpoint_set k texts) h = Ok h'
        ∧ eigenvalues h' = <[(k, s) := rows]> (eigenvalues h)
        ∧ raw_data h' = [] ∧ read_eigen h' = true ∧ eigen_spin h' = Some s.
Proof.
  intros Hin Hrs Hrd Hre Hacc Hspin Hraw Hrows.
  destruct (kpoint_comment k) as (Hnospin & Hkpoint & Hsplit).
  unfold kpoint_set.
  remember ("kpoint " +:+ py_str_int k) as c eqn:Hcomment. clear Hcomment.
  (* the start of the set *)
  assert (Hstart : ∃ h1, startElement "set" {["comment" := c]} h = Ok h1
            ∧ eigen_context h1
              = (true, read_calculation h, false, false, true, read_lattice h,
                 read_positions h, SStr c, Some k, Some s, eigenvalues h)
            ∧ raw_data h1 = [] ∧ posstr h1 = posstr h).
  { unfold startElement, start_body, start_in_calculation, start_in_structure,
      start_section, start_eigen_dos, start_eigen_set, int_of_second_word.
    destruct (read_calculation h) eqn:Hrc;
      repeat (simpl; rewrite ?Hin, ?Hrc, ?Hrs, ?Hre);
      rewrite lookup_singleton_eq; simpl;
      rewrite Hnospin, Hkpoint, Hsplit; simpl; rewrite py_int_str; simpl;
      rewrite lookup_singleton_ne by done; simpl;
      (eexists; split; [reflexivity|]); unfold eigen_context, st; simpl;
      rewrite lookup_insert_eq; simpl;
      by rewrite Hin, Hrc, Hrs, Hrd, Hre, Hspin, Hraw. }
  destruct Hstart as (h1 & H1 & C1 & R1 & P1).
  pose proof C1 as C1'. unfold eigen_context in C1'.
  injection C1' as E1 E2 E3 E4 E5 E6 E7 E8 E9 E10 E11.
  assert (A1 : text_accepted h1).
  { unfold text_accepted in *. rewrite E6, E7, P1. exact Hacc. }
  destruct (eigen_rows c texts rows Hkpoint Hrows h1 E1 E3 E4 E5 E8 A1)
    as (h2 & H2 & C2 & R2 & A2).
  rewrite R1 in R2. simpl in R2.
  pose proof C2 as C2'. rewrite C1 in C2'. unfold eigen_context in C2'.
  injection C2' as F1 F2 F3 F4 F5 F6 F7 F8 F9 F10 F11.
  (* the close of the set *)
  assert (Hend : ∃ h3, endElement "set" h2 = Ok h3
            ∧ eigenvalues h3 = <[(k, s) := rows]> (eigenvalues h)
            ∧ raw_data h3 = [] ∧ read_eigen h3 = true ∧ eigen_spin h3 = Some s).
  { unfold endElement, end_body, end_calculation, end_eigen.
    destruct (read_calculation h2) eqn:Hrc2;
      repeat (simpl; rewrite ?F1, ?Hrc2, ?F3, ?F4, ?F5, ?F8, ?F9, ?F10, ?Hkpoint);
      (eexists; split; [reflexivity|]); simpl; by rewrite R2, F11, F5, F10. }
  destruct Hend as (h3 & H3 & Hres).
  exists h3. split; [|exact Hres].
  simpl. rewrite H1. simpl.
  rewrite feed_app, H2. simpl. by rewrite H3.
Qed.

End Eigenvalues.

Lemma kpoint_set_is_stored_witness :
  let h := result_or (handler_init "")
             (@Vasprun _ dec_float run_dir_with_incar "/run/vasprun.xml" ex_eigen_open) in
  read_calculation h = true
  ∧ ∃ h', @feed _ dec_float run_dir_with_incar
            (kpoint_set 3 [" -1.5 1.0 "; " 2.5 0.0 "]) h = Ok h'
          ∧ eigenvalues h' !! (3, Spin_up)
            = Some [[DecFloat.Dec (-15) 1; DecFloat.Dec 1 0];
                    [DecFloat.Dec 25 1; DecFloat.Dec 0 0]].
Proof.
  intros h. split; [vm_compute; reflexivity|].
  destruct (@kpoint_set_is_stored _ dec_float run_dir_with_incar h 3 Spin_up
              [" -1.5 1.0 "; " 2.5 0.0 "]
              [[DecFloat.Dec (-15) 1; DecFloat.Dec 1 0];
               [DecFloat.Dec 25 1; DecFloat.Dec 0 0]])
    as (h' & Hfeed & Heig & _); try (vm_compute; reflexivity).
  - split; [vm_compute; reflexivity|]. right. vm_compute. by eexists.
  - repeat constructor; vm_compute; reflexivity.
  - exists h'. split; [exact Hfeed|]. rewrite Heig. apply lookup_insert_eq.
Defined.

(** ** The declared parameters in the handler *)

Lemma lstrip_clean (s : string) :
  match lstrip s with
  | EmptyString => True
  | String c _ => is_space c = false
  end.
Proof.
  induction s as [|c s IH]; simpl; [done|].
  destruct (is_space c) eqn:Hc; [exact IH|exact Hc].
Qed.

Lemma rstrip_idem (s : string) : rstrip (rstrip s) = rstrip s.
Proof.
  induction s as [|c s IH]; simpl; [done|].
  destruct (rstrip s) as [|x r] eqn:Hr.
  - destruct (is_space c) eqn:Hc; simpl; [done|]. by rewrite Hc.
  - simpl in *. rewrite IH. reflexivity.
Qed.

Lemma rstrip_keeps_head (c : ascii) (r : string) :
  is_space c = false -> ∃ r', rstrip (String c r) = String c r'.
Proof.
  intros Hc. simpl. destruct (rstrip r); [rewrite Hc|]; eauto.
Qed.

(** [strip] of a stripped text is the text. *)
Lemma strip_idem (s : string) : strip (strip s) = strip s.
Proof.
  unfold strip. pose proof (lstrip_clean s) as Hhead.
  destruct (lstrip s) as [|c r]; [reflexivity|].
  destruct (rstrip_keeps_head c r Hhead) as (r' & Hr).
  rewrite Hr. simpl lstrip. rewrite Hhead, <- Hr. apply rstrip_idem.
Qed.

Section DeclaredParameters.
Context {float : Type} `{!PyFloat float} `{!FileSystem}.
Local Abbreviation handler := (@handler float).
Local Abbreviation pyval := (@pyval float).

(** X18.  At the close of an [i] element of the declared parameters the
    value goes into the table through [Incar.__setitem__]: a value
    declared as a string is read once more by [proc_val] under its key,
    so that under a number key it is stored as a number and under a list
    key as a list; a value of another declared type is stored as decoded.
    No other entry changes, and the other table is left alone. *)
Theorem declared_entry_is_stored (h : handler) (ty v k : string) (x : pyval) :
  input_read h = false -> truthy (st h "incar") = true ->
  param_type h = Some ty -> val h = Some v -> incar_param h = Some k ->
  parse_parameters ty (strip v) = Ok x ->
  ∃ h', endElement "i" h = Ok h'
        ∧ incar h' !! strip k
          = Some (if String.eqb ty "string" then proc_val (strip k) (strip v) else x)
        ∧ (∀ k', k' ≠ strip k -> incar h' !! k' = incar h !! k')
        ∧ parameters h' = parameters h ∧ incar_param h' = None.
Proof.
  intros Hin Hincar Hty Hval Hkey Hparse.
  unfold endElement, end_input, end_input_i, getvalue, Incar_setitem.
  rewrite Hin. simpl. rewrite Hincar, Hty, Hval. simpl. rewrite Hparse. simpl.
  rewrite Hkey. simpl.
  eexists. split; [reflexivity|]. simpl. split; [|split; [|by split]].
  - rewrite lookup_insert_eq. f_equal.
    unfold parse_parameters in Hparse.
    destruct (String.eqb ty "logical") eqn:Hl.
    { injection Hparse as <-. apply String.eqb_eq in Hl. by subst. }
    destruct (String.eqb ty "int") eqn:Hi.
    { destruct (py_int (strip v)); [|discriminate]. injection Hparse as <-.
      apply String.eqb_eq in Hi. by subst. }
    destruct (String.eqb ty "string") eqn:Hs.
    { injection Hparse as <-. by rewrite !strip_idem. }
    destruct (float_of_string (strip v)); [|discriminate]. by injection Hparse as <-.
  - intros k' Hne. by rewrite lookup_insert_ne.
Qed.

(** The list decoder on tokens that it accepts. *)
Lemma parse_all_accepts {A} (conv : string -> option A) (l : list string) :
  Forall (fun tok => conv tok ≠ None) l ->
  ∃ r, parse_all conv l = Some r ∧ length r = length l.
Proof.
  unfold parse_all. induction 1 as [|tok l Htok _ (r & IH & Hlen)].
  - by exists [].
  - destruct (conv tok) as [a|] eqn:Ha; [|done].
    exists (a :: r). simpl. rewrite Ha, IH. simpl. by rewrite Hlen.
Qed.

End DeclaredParameters.

Section ListDecoder.
Context {float : Type} `{!PyFloat float}.

(** X19.  The list decoder reads the directory of the parsed file only
    for a token that its number parser rejects: when no token is rejected
    (none can be under the tags [logical] and [string]) it returns one
    item for each token, the same whatever the directory holds. *)
Theorem list_decode_without_sidecar (fs1 fs2 : FileSystem)
    (val_type val fname : string) (param : option string) :
  (numeric_type val_type ->
   Forall (fun tok => ¬ rejects val_type tok) (re_split_ws val)) ->
  ∃ l, @parse_v_parameters _ _ fs1 val_type val fname param = Ok (PList l)
       ∧ @parse_v_parameters _ _ fs2 val_type val fname param = Ok (PList l)
       ∧ length l = length (re_split_ws val).
Proof.
  intros Hacc. unfold parse_v_parameters.
  destruct (String.eqb val_type "logical") eqn:Hl.
  { eexists. split; [reflexivity|]. split; [reflexivity|]. by rewrite length_map. }
  destruct (String.eqb val_type "int") eqn:Hi.
  { assert (Hnum : numeric_type val_type).
    { apply String.eqb_eq in Hi. subst. split; discriminate. }
    specialize (Hacc Hnum). unfold rejects in Hacc. rewrite Hi in Hacc.
    destruct (parse_all_accepts py_int _ Hacc) as (r & -> & Hlen).
    eexists. split; [reflexivity|]. split; [reflexivity|]. by rewrite length_map. }
  destruct (String.eqb val_type "string") eqn:Hs.
  { eexists. split; [reflexivity|]. split; [reflexivity|]. by rewrite length_map. }
  assert (Hnum : numeric_type val_type).
  { apply String.eqb_neq in Hl. apply String.eqb_neq in Hs. by split. }
  specialize (Hacc Hnum). unfold rejects in Hacc. rewrite Hi in Hacc.
  destruct (parse_all_accepts float_of_string _ Hacc) as (r & -> & Hlen).
  eexists. split; [reflexivity|]. split; [reflexivity|]. by rewrite length_map.
Qed.

End ListDecoder.

Lemma declared_entry_is_stored_witness :
  let doc := [elem "modeling"; elem "incar";
              StartElement "i" {["type" := "string"; "name" := "NSW"]};
              Characters " 10 "] in
  let h := result_or (handler_init "")
             (@Vasprun _ dec_float run_dir_with_incar "/run/vasprun.xml" doc) in
  ∃ h', @endElement _ dec_float run_dir_with_incar "i" h = Ok h'
        ∧ incar h' !! "NSW" = Some (Scalar (VInt 10)).
Proof.
  intros doc h.
  destruct (@declared_entry_is_stored _ dec_float run_dir_with_incar h
              "string" " 10 " "NSW" (Scalar (VStr "10")))
    as (h' & Hend & Hk & _); try (vm_compute; reflexivity).
  exists h'. split; [exact Hend|]. exact Hk.
Defined.

Lemma list_decode_without_sidecar_witness :
  @parse_v_parameters _ dec_float run_dir_with_incar "int" "2 -1" "/run/vasprun.xml" None
  = Ok (PList [VInt 2; VInt (-1)])
  ∧ @parse_v_parameters _ dec_float run_dir_alone "int" "2 -1" "/run/vasprun.xml" None
    = Ok (PList [VInt 2; VInt (-1)]).
Proof.
  destruct (@list_decode_without_sidecar _ dec_float run_dir_with_incar run_dir_alone
              "int" "2 -1" "/run/vasprun.xml" None) as (l & H1 & H2 & _).
  - intros _. repeat constructor; vm_compute; discriminate.
  - assert (Hl : @parse_v_parameters _ dec_float run_dir_with_incar "int" "2 -1"
                   "/run/vasprun.xml" None = Ok (PList [VInt 2; VInt (-1)]))
      by (vm_compute; reflexivity).
    rewrite H1 in Hl. injection Hl as ->. by split.
Defined.
